(** * Bell-state circuits with error correction: builder and simulation drivers

    A shallow embedding of [src/bell_circuit.py] (the [BellCircuit] builder)
    and [src/simulations.py] (the three simulation drivers), followed by the
    properties of the specification that were checked against them.

    Conventions of the embedding.
    - Python [int] is [Z]; Python [str] is [string]; Python lists are lists,
      indexed the way Python does it (negative indices count from the end,
      an index out of range raises [IndexError]).
    - A Python exception is a value of [exn]; code that may raise lives in
      the monad [M S], which keeps the state reached when the exception
      was raised.
    - [QuantumCircuit] objects are mutable and shared by reference: they live
      in a store of objects, and the builder holds a reference to its current
      circuit.  [QuantumCircuit.copy] allocates a new object.
    - Qiskit itself is not part of the repository.  The handful of its
      operations used by the builder are modelled by what they append to the
      instruction list of a circuit (its [data]). *)

From Stdlib Require Import ZArith List String Bool Lia.
From stdpp Require Import base tactics option list strings pretty.

Local Open Scope string_scope.
Local Open Scope list_scope.
Local Open Scope Z_scope.

(** ** Exceptions and the state-and-exception monad *)

Inductive exn : Type :=
| ValueError (msg : string)
| Exception (msg : string)
| IndexError (msg : string)
| CircuitError (msg : string).

Inductive outcome (A : Type) : Type :=
| Return (a : A)
| Raise (e : exn).
Arguments Return {A} a.
Arguments Raise {A} e.

Definition outcome_bind {A B} (f : A -> outcome B) (o : outcome A) : outcome B :=
  match o with
  | Return a => f a
  | Raise e => Raise e
  end.

#[global] Instance outcome_mret : MRet outcome := @Return.
#[global] Instance outcome_mbind : MBind outcome := @outcome_bind.

(** A computation over a state [S]: it ends with a value or an exception,
    and in both cases with the state reached so far. *)
Definition M (S A : Type) : Type := S -> outcome A * S.

Definition M_ret {S A} (a : A) : M S A := fun s => (Return a, s).

Definition M_bind {S A B} (f : A -> M S B) (m : M S A) : M S B :=
  fun s =>
    match m s with
    | (Return a, s') => f a s'
    | (Raise e, s') => (Raise e, s')
    end.

#[global] Instance M_mret S : MRet (M S) := @M_ret S.
#[global] Instance M_mbind S : MBind (M S) := @M_bind S.

Definition raise {S A} (e : exn) : M S A := fun s => (Raise e, s).

(** An expression that may raise but does not touch the state. *)
Definition eval {S A} (o : outcome A) : M S A := fun s => (o, s).

Definition get {S} : M S S := fun s => (Return s, s).
Definition modify {S} (f : S -> S) : M S unit := fun s => (Return tt, f s).

(** [if b: body] with no [else]. *)
Definition when_ {S} (b : bool) (body : M S unit) : M S unit :=
  if b then body else mret tt.

(** [for x in xs: body x]. *)
Fixpoint for_ {S X} (xs : list X) (body : X -> M S unit) : M S unit :=
  match xs with
  | [] => mret tt
  | x :: rest => body x ;; for_ rest body
  end.

(** ** Python sequences *)

(** [x in l] for a list of integers. *)
Definition py_in (x : Z) (l : list Z) : bool := existsb (Z.eqb x) l.

(** [l[i]]: a negative [i] counts from the end. *)
Definition py_index {A} (l : list A) (i : Z) : outcome A :=
  let len := Z.of_nat (length l) in
  let j := if i <? 0 then i + len else i in
  if (j <? 0) || (len <=? j) then Raise (IndexError "list index out of range")
  else match nth_error l (Z.to_nat j) with
       | Some a => Return a
       | None => Raise (IndexError "list index out of range")
       end.

(** One bound of a slice, clamped into [0, len]. *)
Definition slice_bound (len : Z) (dflt : Z) (b : option Z) : Z :=
  match b with
  | None => dflt
  | Some i => Z.max 0 (Z.min len (if i <? 0 then i + len else i))
  end.

(** [l[start:stop]]; a missing bound is [None]. *)
Definition py_slice {A} (l : list A) (start stop : option Z) : list A :=
  let len := Z.of_nat (length l) in
  let a := slice_bound len 0 start in
  let b := slice_bound len len stop in
  firstn (Z.to_nat (b - a)) (skipn (Z.to_nat a) l).

(** [range(n)]. *)
Definition py_range (n : Z) : list Z := map Z.of_nat (seq 0 (Z.to_nat n)).

(** [str(i)] for an integer. *)
Definition str (i : Z) : string := pretty i.

(** ** Registers, instructions and circuits (the part of Qiskit in use) *)

Record Qubit : Type := mkQubit { q_register : string; q_index : nat }.
Record Clbit : Type := mkClbit { c_register : string; c_index : nat }.

Record QuantumRegister : Type := mkQReg { size : Z; name : string }.
Record ClassicalRegister : Type := mkCReg { csize : Z; cname : string }.

(** [QuantumRegister(size, name=...)]; Qiskit refuses a size that is not
    positive. *)
Definition QuantumRegister_new (n : Z) (nm : string) : outcome QuantumRegister :=
  if n <=? 0
  then Raise (CircuitError ("Register size must be positive (" +:+ str n +:+ " was provided)"))
  else Return (mkQReg n nm).

Definition ClassicalRegister_new (n : Z) : outcome ClassicalRegister :=
  if n <=? 0
  then Raise (CircuitError ("Register size must be positive (" +:+ str n +:+ " was provided)"))
  else Return (mkCReg n "c").

(** The qubits of a register, in order: [reg[0]], [reg[1]], ... *)
Definition bits (r : QuantumRegister) : list Qubit :=
  map (mkQubit (name r)) (seq 0 (Z.to_nat (size r))).

Definition cbits_of (r : ClassicalRegister) : list Clbit :=
  map (mkClbit (cname r)) (seq 0 (Z.to_nat (csize r))).

(** [reg[i]] and [reg[a:b]]. *)
Definition reg_index (r : QuantumRegister) (i : Z) : outcome Qubit := py_index (bits r) i.
Definition reg_slice (r : QuantumRegister) (a b : option Z) : list Qubit := py_slice (bits r) a b.

(** One entry of [QuantumCircuit.data].  [Barrier] is the barrier over every
    qubit of the circuit ([circuit.barrier()] without arguments);
    [Placeholder] is a bare [Instruction(name, num_qubits, 0, [])] on the
    listed qubits, the symbolic error of the diagrams. *)
Inductive Instruction : Type :=
| HGate (q : Qubit)
| XGate (q : Qubit)
| ZGate (q : Qubit)
| CXGate (control target : Qubit)
| CCXGate (control1 control2 target : Qubit)
| Barrier
| Measure (q : Qubit) (c : Clbit)
| Placeholder (label : string) (qargs : list Qubit).

Record QuantumCircuit : Type := mkCircuit {
  qregs : list QuantumRegister;
  cregs : list ClassicalRegister;
  data : list Instruction
}.

Definition append_data (ins : list Instruction) (qc : QuantumCircuit) : QuantumCircuit :=
  mkCircuit (qregs qc) (cregs qc) (data qc ++ ins).

#[global] Instance QuantumCircuit_inhabited : Inhabited QuantumCircuit :=
  populate (mkCircuit [] [] []).

(** ** The builder object and its store of circuits *)

(** A reference to a [QuantumCircuit] object. *)
Definition ref : Type := nat.

(** The attributes of a [BellCircuit] instance. *)
Record BellCircuit : Type := mkBell {
  qubits : QuantumRegister;
  anc_qubit : list QuantumRegister;
  cbits : ClassicalRegister;
  circuit : ref
}.

(** A builder together with the circuit objects it has created.  Circuit
    objects are created by the constructor and by [QuantumCircuit.copy] in the
    builder's methods only, so every reference the builder hands out points
    into [objects]. *)
Record State : Type := mkState {
  self : BellCircuit;
  objects : list QuantumCircuit
}.

(** The object behind a reference.  References come from the constructor and
    from [qc_copy] only, so the lookup always finds its object; the empty
    circuit stands for a reference that was never handed out. *)
Definition deref (st : State) (r : ref) : QuantumCircuit := objects st !!! r.

(** The circuit the builder currently points to. *)
Definition current (st : State) : QuantumCircuit := deref st (circuit (self st)).

Definition get_self : M State BellCircuit := fun st => (Return (self st), st).

(** [self.circuit = c]. *)
Definition set_circuit (c : ref) : M State unit :=
  modify (fun st =>
    mkState (mkBell (qubits (self st)) (anc_qubit (self st)) (cbits (self st)) c)
            (objects st)).

(** [c.copy()]: a new object with the same registers and instructions. *)
Definition qc_copy (c : ref) : M State ref :=
  fun st => (Return (length (objects st)),
             mkState (self st) (objects st ++ [deref st c])).

(** Appending instructions to the object behind [c], in place. *)
Definition emit (c : ref) (ins : list Instruction) : M State unit :=
  modify (fun st => mkState (self st) (alter (append_data ins) c (objects st))).

Definition qc_h (c : ref) (qs : list Qubit) : M State unit := emit c (map HGate qs).
Definition qc_x (c : ref) (q : Qubit) : M State unit := emit c [XGate q].
Definition qc_z (c : ref) (q : Qubit) : M State unit := emit c [ZGate q].
(** [c.cx(control, targets)]: one gate per target. *)
Definition qc_cx (c : ref) (control : Qubit) (targets : list Qubit) : M State unit :=
  emit c (map (CXGate control) targets).
Definition qc_ccx (c : ref) (c1 c2 target : Qubit) : M State unit :=
  emit c [CCXGate c1 c2 target].
Definition qc_barrier (c : ref) : M State unit := emit c [Barrier].
(** [c.measure(qs, cs)]: pairwise. *)
Definition qc_measure (c : ref) (qs : list Qubit) (cs : list Clbit) : M State unit :=
  emit c (map (fun p => Measure (fst p) (snd p)) (combine qs cs)).
(** [c.append(Instruction(label, num_qubits, 0, []), qargs)]; Qiskit checks
    the number of qubit arguments. *)
Definition qc_append (c : ref) (label : string) (num_qubits : Z) (qargs : list Qubit)
  : M State unit :=
  if Z.of_nat (length qargs) =? num_qubits
  then emit c [Placeholder label qargs]
  else raise (CircuitError
         "The amount of qubit arguments does not match the instruction expectation.").

(** [self.qubits[i]], [self.anc_qubit[g]], [self.anc_qubit[g][i]]. *)
Definition self_qubit (i : Z) : M State Qubit :=
  s ← get_self; eval (reg_index (qubits s) i).
Definition self_anc (g : Z) : M State QuantumRegister :=
  s ← get_self; eval (py_index (anc_qubit s) g).
Definition self_anc_qubit (g i : Z) : M State Qubit :=
  r ← self_anc g; eval (reg_index r i).

(** [BellCircuit.__init__] (bell_circuit.py, lines 12-22). *)
Definition BellCircuit_init (n_anc_qubit1 n_anc_qubit2 : Z) : outcome State :=
  qubits ← QuantumRegister_new 2 "qubit";
  anc_qubit ←
    (if (n_anc_qubit1 =? 0) || (n_anc_qubit2 =? 0)
     then Return []
     else r1 ← QuantumRegister_new n_anc_qubit1 "anc_qb1";
          r2 ← QuantumRegister_new n_anc_qubit2 "anc_qb2";
          Return [r1; r2]);
  cbits ← ClassicalRegister_new 2;
  Return (mkState (mkBell qubits anc_qubit cbits 0%nat)
                  [mkCircuit (qubits :: anc_qubit) [cbits] []]).

(** [self.circuit], read at the moment of the call. *)
Definition self_circuit : M State ref := s ← get_self; mret (circuit s).

(** [len(l)] as a Python integer. *)
Definition len {A} (l : list A) : Z := Z.of_nat (length l).

(** ** The correction gadgets (bell_circuit.py, lines 24-151) *)

Definition msg_invalid_qubit (qubit : Z) : string :=
  "There are only 2 qubits, so " +:+ str qubit +:+ " is not a valid choice."
  +:+ "Please insert 1 or 2!".

Definition msg_requires (how_many : string) (qubit n : Z) : string :=
  "This method requires " +:+ how_many +:+ " per each qubit. "
  +:+ "Currently qubit " +:+ str qubit +:+ " has " +:+ str n +:+ " ancillas.".

(** The two checks every gadget starts with: the group, then the size of the
    group's ancilla register. *)
Definition check_gadget (qubit required : Z) (how_many : string) : M State unit :=
  when_ (negb (py_in qubit [1; 2])) (raise (ValueError (msg_invalid_qubit qubit))) ;;
  r ← self_anc (qubit - 1);
  when_ (size r <? required)
        (r' ← self_anc (qubit - 1);
         raise (Exception (msg_requires how_many qubit (size r')))).

(** The end of every snapshot operation: [if in_place: self.circuit = circuit]
    and [return circuit]. *)
Definition finish (in_place : bool) (circuit : ref) : M State ref :=
  when_ in_place (set_circuit circuit) ;;
  mret circuit.

Definition add_zero_bf_corr (qubit : Z) (in_place : bool) : M State ref :=
  check_gadget qubit 1 "one ancilla" ;;
  c ← self_circuit;
  circuit ← qc_copy c;
  q ← self_qubit (qubit - 1); a ← self_anc_qubit (qubit - 1) 0;
  qc_cx circuit q [a] ;;
  a ← self_anc_qubit (qubit - 1) 0; q ← self_qubit (qubit - 1);
  qc_cx circuit a [q] ;;
  finish in_place circuit.

Definition add_x_pf_corr (qubit : Z) (in_place : bool) : M State ref :=
  check_gadget qubit 1 "one ancilla" ;;
  c ← self_circuit;
  circuit ← qc_copy c;
  q ← self_qubit (qubit - 1);
  qc_h circuit [q] ;;
  q ← self_qubit (qubit - 1); a ← self_anc_qubit (qubit - 1) 0;
  qc_cx circuit q [a] ;;
  a ← self_anc_qubit (qubit - 1) 0; q ← self_qubit (qubit - 1);
  qc_cx circuit a [q] ;;
  q ← self_qubit (qubit - 1);
  qc_h circuit [q] ;;
  finish in_place circuit.

Definition add_zero_bf_corr_with_repetition (qubit : Z) (in_place : bool) : M State ref :=
  check_gadget qubit 2 "two ancilla" ;;
  c ← self_circuit;
  circuit ← qc_copy c;
  q ← self_qubit (qubit - 1); a ← self_anc_qubit (qubit - 1) 0;
  qc_cx circuit q [a] ;;
  q ← self_qubit (qubit - 1); a ← self_anc_qubit (qubit - 1) 1;
  qc_cx circuit q [a] ;;
  a0 ← self_anc_qubit (qubit - 1) 0; a1 ← self_anc_qubit (qubit - 1) 1;
  q ← self_qubit (qubit - 1);
  qc_ccx circuit a0 a1 q ;;
  finish in_place circuit.

Definition add_x_pf_corr_with_repetition (qubit : Z) (in_place : bool) : M State ref :=
  check_gadget qubit 2 "two ancillas" ;;
  c ← self_circuit;
  circuit ← qc_copy c;
  q ← self_qubit (qubit - 1);
  qc_h circuit [q] ;;
  q ← self_qubit (qubit - 1); a ← self_anc_qubit (qubit - 1) 0;
  qc_cx circuit q [a] ;;
  q ← self_qubit (qubit - 1); a ← self_anc_qubit (qubit - 1) 1;
  qc_cx circuit q [a] ;;
  a0 ← self_anc_qubit (qubit - 1) 0; a1 ← self_anc_qubit (qubit - 1) 1;
  q ← self_qubit (qubit - 1);
  qc_ccx circuit a0 a1 q ;;
  q ← self_qubit (qubit - 1);
  qc_h circuit [q] ;;
  finish in_place circuit.

(** ** Error injection (bell_circuit.py, lines 153-173) *)

Definition add_error_gate (qubit : Qubit) (gate : string) : M State unit :=
  if String.eqb gate "z" then c ← self_circuit; qc_z c qubit
  else if String.eqb gate "x" then c ← self_circuit; qc_x c qubit
  else mret tt.

Definition msg_invalid_group (g : Z) : string :=
  str g +:+ " is not a valid choice as qubit value for error error."
  +:+ "Please insert 1 or 2!".

Definition msg_out_of_index (g n i : Z) : string :=
  "In the error correction method  for qubit " +:+ str g +:+ " there are "
  +:+ str n +:+ " ancillas, "
  +:+ "so " +:+ str i +:+ " is out of index "
  +:+ "for applying the error.".

(** The condition of the [elif]:
    [len(anc) > 0 and i > anc[g - 1].size or len(anc) == 0 and i != 0],
    with Python's left-to-right short-circuit evaluation. *)
Definition index_out_of_range (qubit : Z * Z) : M State bool :=
  s ← get_self;
  beyond ← (if 0 <? len (anc_qubit s)
            then r ← self_anc (fst qubit - 1); mret (size r <? snd qubit)
            else mret false);
  if beyond : bool then mret true
  else mret ((len (anc_qubit s) =? 0) && negb (snd qubit =? 0)).

Definition add_error (qubit : Z * Z) (error_gate : string) : M State unit :=
  (if negb (py_in (fst qubit) [1; 2])
   then raise (ValueError (msg_invalid_group (fst qubit)))
   else
     bad ← index_out_of_range qubit;
     when_ bad
       (s ← get_self;
        n ← (if 0 <? len (anc_qubit s)
             then r ← self_anc (fst qubit - 1); mret (size r)
             else mret 0);
        raise (ValueError (msg_out_of_index (fst qubit) n (snd qubit))))) ;;
  if snd qubit =? 0
  then q ← self_qubit (fst qubit - 1); add_error_gate q error_gate
  else q ← self_anc_qubit (fst qubit - 1) (snd qubit - 1); add_error_gate q error_gate.

(** ** Measurement (bell_circuit.py, lines 175-187) *)

Definition add_measurement (in_pace : bool) : M State ref :=
  c ← self_circuit;
  circuit ← qc_copy c;
  q0 ← self_qubit 0; q1 ← self_qubit 1;
  qc_cx circuit q0 [q1] ;;
  q0 ← self_qubit 0;
  qc_h circuit [q0] ;;
  s ← get_self;
  qc_measure circuit (reg_slice (qubits s) None None) (cbits_of (cbits s)) ;;
  finish in_pace circuit.

(** ** The Shor steps (bell_circuit.py, lines 189-229) *)

Definition _prepare_repetition (qubit : Qubit) (ancillas : QuantumRegister) : M State unit :=
  c ← self_circuit; a2 ← eval (reg_index ancillas 2); qc_cx c qubit [a2] ;;
  c ← self_circuit; a5 ← eval (reg_index ancillas 5); qc_cx c qubit [a5] ;;
  c ← self_circuit; a2 ← eval (reg_index ancillas 2); a5 ← eval (reg_index ancillas 5);
  qc_h c [qubit; a2; a5] ;;
  c ← self_circuit; qc_barrier c ;;
  c ← self_circuit; qc_cx c qubit (reg_slice ancillas None (Some 2)) ;;
  c ← self_circuit; a2 ← eval (reg_index ancillas 2);
  qc_cx c a2 (reg_slice ancillas (Some 3) (Some 5)) ;;
  c ← self_circuit; a5 ← eval (reg_index ancillas 5);
  qc_cx c a5 (reg_slice ancillas (Some 6) None) ;;
  c ← self_circuit; qc_barrier c.

Definition _add_shor_correction (qubit : Qubit) (ancillas : QuantumRegister) : M State unit :=
  c ← self_circuit; qc_cx c qubit (reg_slice ancillas None (Some 2)) ;;
  c ← self_circuit; a2 ← eval (reg_index ancillas 2);
  qc_cx c a2 (reg_slice ancillas (Some 3) (Some 5)) ;;
  c ← self_circuit; a5 ← eval (reg_index ancillas 5);
  qc_cx c a5 (reg_slice ancillas (Some 6) None) ;;
  c ← self_circuit; qc_barrier c ;;
  c ← self_circuit; a0 ← eval (reg_index ancillas 0); a1 ← eval (reg_index ancillas 1);
  qc_ccx c a0 a1 qubit ;;
  c ← self_circuit; a3 ← eval (reg_index ancillas 3); a4 ← eval (reg_index ancillas 4);
  a2 ← eval (reg_index ancillas 2);
  qc_ccx c a3 a4 a2 ;;
  c ← self_circuit; a6 ← eval (reg_index ancillas 6); a7 ← eval (reg_index ancillas 7);
  a5 ← eval (reg_index ancillas 5);
  qc_ccx c a6 a7 a5 ;;
  c ← self_circuit; qc_barrier c ;;
  c ← self_circuit; a2 ← eval (reg_index ancillas 2); a5 ← eval (reg_index ancillas 5);
  qc_h c [qubit; a2; a5] ;;
  c ← self_circuit; a2 ← eval (reg_index ancillas 2); qc_cx c qubit [a2] ;;
  c ← self_circuit; a5 ← eval (reg_index ancillas 5); qc_cx c qubit [a5] ;;
  c ← self_circuit; qc_barrier c ;;
  c ← self_circuit; a2 ← eval (reg_index ancillas 2); a5 ← eval (reg_index ancillas 5);
  qc_ccx c a2 a5 qubit ;;
  c ← self_circuit; qc_barrier c.

(** ** The four circuits (bell_circuit.py, lines 231-356) *)

(** One injected error: [((group, index), gate)]. *)
Definition Error : Type := (Z * Z) * string.

Definition msg_requires_both (how_many : string) (n1 n2 : Z) : string :=
  "This method requires " +:+ how_many +:+ " per each qubit. "
  +:+ "Currently qubit1 has " +:+ str n1 +:+ " ancillas "
  +:+ "and qubit2 has " +:+ str n2 +:+ " ancillas.".

(** [if self.anc_qubit[0].size < required or self.anc_qubit[1].size < required:
     raise Exception(...)]. *)
Definition check_both (required : Z) (how_many : string) : M State unit :=
  r0 ← self_anc 0;
  short ← (if size r0 <? required then mret true
           else r1 ← self_anc 1; mret (size r1 <? required));
  when_ short
    (r0 ← self_anc 0; r1 ← self_anc 1;
     raise (Exception (msg_requires_both how_many (size r0) (size r1)))).

(** [self.circuit.h(self.qubits[0])] and the barrier after it. *)
Definition superpose : M State unit :=
  c ← self_circuit; q0 ← self_qubit 0; qc_h c [q0] ;;
  c ← self_circuit; qc_barrier c.

(** The [else] branch of the injection stage. *)
Definition inject (errors : list Error) : M State unit :=
  for_ errors (fun qe => add_error (fst qe) (snd qe)) ;;
  c ← self_circuit; qc_barrier c.

(** The symbolic errors on the primary qubits alone. *)
Definition inject_symbolic_1 : M State unit :=
  c ← self_circuit; q0 ← self_qubit 0; qc_append c "err_1" 1 [q0] ;;
  c ← self_circuit; q1 ← self_qubit 1; qc_append c "err_2" 1 [q1] ;;
  c ← self_circuit; qc_barrier c.

(** The symbolic errors on a primary qubit and all its ancillas:
    [[self.qubits[g]] + self.anc_qubit[g][:]]. *)
Definition inject_symbolic_all (num_qubits : Z) : M State unit :=
  c ← self_circuit; q0 ← self_qubit 0; r0 ← self_anc 0;
  qc_append c "err_1" num_qubits (q0 :: reg_slice r0 None None) ;;
  c ← self_circuit; q1 ← self_qubit 1; r1 ← self_anc 1;
  qc_append c "err_2" num_qubits (q1 :: reg_slice r1 None None) ;;
  c ← self_circuit; qc_barrier c.

(** The entangling gate with its barrier, then the measurement. *)
Definition entangle_and_measure : M State unit :=
  c ← self_circuit; q0 ← self_qubit 0; q1 ← self_qubit 1; qc_cx c q0 [q1] ;;
  c ← self_circuit; qc_barrier c ;;
  add_measurement true ;;
  mret tt.

Definition create_circuit_with_no_correction (errors : list Error) (symb_err : bool)
  : M State unit :=
  superpose ;;
  (if symb_err then inject_symbolic_1 else inject errors) ;;
  entangle_and_measure.

Definition create_circuit_with_simple_correction (errors : list Error) (symb_err : bool)
  : M State unit :=
  check_both 1 "one ancilla" ;;
  superpose ;;
  (if symb_err then inject_symbolic_1 else inject errors) ;;
  add_x_pf_corr 1 true ;;
  c ← self_circuit; qc_barrier c ;;
  add_zero_bf_corr 2 true ;;
  c ← self_circuit; qc_barrier c ;;
  entangle_and_measure.

Definition create_circuit_with_simple_repetition (errors : list Error) (symb_err : bool)
  : M State unit :=
  check_both 2 "two ancillas" ;;
  superpose ;;
  (if symb_err then inject_symbolic_all 3 else inject errors) ;;
  add_x_pf_corr_with_repetition 1 true ;;
  c ← self_circuit; qc_barrier c ;;
  add_zero_bf_corr_with_repetition 2 true ;;
  c ← self_circuit; qc_barrier c ;;
  entangle_and_measure.

Definition create_circuit_with_shor_correction (errors : list Error) (symb_err : bool)
  : M State unit :=
  check_both 8 "eight ancillas" ;;
  superpose ;;
  q0 ← self_qubit 0; r0 ← self_anc 0; _prepare_repetition q0 r0 ;;
  q1 ← self_qubit 1; r1 ← self_anc 1; _prepare_repetition q1 r1 ;;
  (if symb_err then inject_symbolic_all 9 else inject errors) ;;
  q0 ← self_qubit 0; r0 ← self_anc 0; _add_shor_correction q0 r0 ;;
  q1 ← self_qubit 1; r1 ← self_anc 1; _add_shor_correction q1 r1 ;;
  entangle_and_measure.

(** ** Dictionaries

    A Python [dict] keeps its keys in insertion order, and the report written
    by [main.py] prints them in that order: a dictionary is the list of its
    items, each key once. *)

Definition dict (V : Type) : Type := list (string * V).

Fixpoint dict_get {V} (d : dict V) (k : string) : option V :=
  match d with
  | [] => None
  | (k', v) :: rest => if String.eqb k k' then Some v else dict_get rest k
  end.

(** [k in d]. *)
Definition dict_mem {V} (d : dict V) (k : string) : bool :=
  match dict_get d k with Some _ => true | None => false end.

(** [d[k] = v]: a known key keeps its place, a new one goes last. *)
Fixpoint dict_set {V} (d : dict V) (k : string) (v : V) : dict V :=
  match d with
  | [] => [(k, v)]
  | (k', v') :: rest =>
      if String.eqb k k' then (k, v) :: rest else (k', v') :: dict_set rest k v
  end.

(** Measurement outcomes to number of shots. *)
Definition Counts : Type := dict Z.

(** [for key, value in counts.items(): all_counts[key] += value], where
    [all_counts] is a [defaultdict(int)]. *)
Definition add_counts (all_counts counts : Counts) : Counts :=
  fold_left (fun acc kv => dict_set acc (fst kv) (default 0 (dict_get acc (fst kv)) + snd kv))
            counts all_counts.

(** [for key, value in counts.items():
       if key in d: d[key] += value
       else: d[key] = value]. *)
Definition merge_counts (d counts : Counts) : Counts :=
  fold_left (fun acc kv =>
               match dict_get acc (fst kv) with
               | Some old => dict_set acc (fst kv) (old + snd kv)
               | None => dict_set acc (fst kv) (snd kv)
               end)
            counts d.

(** ** The simulation drivers (simulations.py) *)

(** Calling a method on a builder held in a local variable: the exception,
    if any, propagates to the caller. *)
Definition call {A} (method : M State A) (qc : State) : outcome (A * State) :=
  match method qc with
  | (Return a, qc') => Return (a, qc')
  | (Raise e, _) => Raise e
  end.

(** [get_circuit_to_print] (lines 10-29); the result is the circuit object
    behind [qc.circuit]. *)
Definition get_circuit_to_print (n_ancillas : Z) (correction_type : string)
  : outcome QuantumCircuit :=
  qc ← BellCircuit_init n_ancillas n_ancillas;
  r ← (if String.eqb correction_type "simple"
       then call (create_circuit_with_simple_correction [] true) qc
       else if String.eqb correction_type "repetition_simple"
       then call (create_circuit_with_simple_repetition [] true) qc
       else if String.eqb correction_type "shor"
       then call (create_circuit_with_shor_correction [] true) qc
       else call (create_circuit_with_no_correction [] true) qc);
  Return (current (snd r)).

(** The error key [f'[({i1}, {g1}), ({i2}, {g2})]']. *)
Definition error_key (i1 : Z) (g1 : string) (i2 : Z) (g2 : string) : string :=
  "[(" +:+ str i1 +:+ ", " +:+ g1 +:+ "), (" +:+ str i2 +:+ ", " +:+ g2 +:+ ")]".

(** [for x in xs: body], the body updating the local variables [acc]. *)
Fixpoint for_loop {S X A} (xs : list X) (body : X -> A -> M S A) (acc : A) : M S A :=
  match xs with
  | [] => mret acc
  | x :: rest => acc' ← body x acc; for_loop rest body acc'
  end.

Section Simulation.

(** What the drivers take from outside the repository.

    - The backend: [execute(circuit, backend, shots=1000).result().get_counts()],
      a function of the circuit.
    - Python's [random] module: a generator state [G], [random.seed] of a
      supplied seed, the state the generator takes from the operating
      system when the seed is [None], [random.randint] and
      [random.choices].  Weights are floating-point numbers that the
      drivers only pass on, so their type is left open. *)
Variables G SeedValue Weight OsRandom : Type.
Variable execute : QuantumCircuit -> Counts.
Variable seed_state : SeedValue -> G.
Variable os_seed : OsRandom -> G * OsRandom.
Variable randint : Z -> Z -> G -> outcome Z * G.
Variable choices : list string -> option (list Weight) -> G -> outcome (list string) * G.

(** The state shared by the drivers: the global generator of [random], the
    operating system's source of randomness, and the circuits handed to the
    backend so far, oldest first. *)
Record World : Type := mkWorld {
  random_state : G;
  os_random : OsRandom;
  backend_log : list QuantumCircuit
}.

Definition backend_execute (qc : QuantumCircuit) : M World Counts :=
  fun w => (Return (execute qc),
            mkWorld (random_state w) (os_random w) (backend_log w ++ [qc])).

(** [random.seed(seed)]; [None] takes the state from the operating system. *)
Definition random_seed (seed : option SeedValue) : M World unit :=
  fun w =>
    match seed with
    | Some s => (Return tt, mkWorld (seed_state s) (os_random w) (backend_log w))
    | None => let '(g, os) := os_seed (os_random w) in
              (Return tt, mkWorld g os (backend_log w))
    end.

Definition random_randint (a b : Z) : M World Z :=
  fun w => let '(r, g) := randint a b (random_state w) in
           (r, mkWorld g (os_random w) (backend_log w)).

Definition random_choices (population : list string) (weights : option (list Weight))
  : M World (list string) :=
  fun w => let '(r, g) := choices population weights (random_state w) in
           (r, mkWorld g (os_random w) (backend_log w)).

(** [run_one_combination] (lines 32-61). *)
Definition run_one_combination (n_ancillas : Z) (correction_type : string)
    (errors : list Error) : M World (Counts * string) :=
  qc ← eval (BellCircuit_init n_ancillas n_ancillas);
  e0 ← eval (py_index errors 0);
  e1 ← eval (py_index errors 1);
  let error := error_key (snd (fst e0)) (snd e0) (snd (fst e1)) (snd e1) in
  '(error, qc) ←
    (if String.eqb correction_type "simple"
     then
       let error := error_key 0 (snd e0) 0 (snd e1) in
       r ← eval (call (create_circuit_with_simple_correction
                         [((1, 0), snd e0); ((2, 0), snd e1)] false) qc);
       mret (error, snd r)
     else if String.eqb correction_type "repetition_simple"
     then r ← eval (call (create_circuit_with_simple_repetition errors false) qc);
          mret (error, snd r)
     else if String.eqb correction_type "shor"
     then r ← eval (call (create_circuit_with_shor_correction errors false) qc);
          mret (error, snd r)
     else r ← eval (call (create_circuit_with_no_correction errors false) qc);
          mret (error, snd r));
  counts ← backend_execute (current qc);
  mret (counts, error).

(** The two accumulators of the drivers: [all_counts] and [err_to_counts]. *)
Definition Totals : Type := Counts * dict Counts.

(** The body of the loop of [run_random_errors] (lines 86-105). *)
Definition random_step (n_ancillas : Z) (correction_type : string)
    (probabilities : option (list Weight)) (acc : Totals) : M World Totals :=
  let errors := ["i"; "x"; "z"] in
  let '(all_counts, err_to_counts) := acc in
  qubit_group_1 ← random_randint 0 n_ancillas;
  qubit_group_2 ← random_randint 0 n_ancillas;
  err_1 ← random_choices errors probabilities;
  err_2 ← random_choices errors probabilities;
  g1 ← eval (py_index err_1 0);
  g2 ← eval (py_index err_2 0);
  '(counts, error) ← run_one_combination n_ancillas correction_type
                       [((1, qubit_group_1), g1); ((2, qubit_group_2), g2)];
  let all_counts := add_counts all_counts counts in
  match dict_get err_to_counts error with
  | Some old => mret (all_counts, dict_set err_to_counts error (merge_counts old counts))
  | None => mret (all_counts, dict_set err_to_counts error counts)
  end.

(** [run_random_errors] (lines 64-107). *)
Definition run_random_errors (n_ancillas : Z) (correction_type : string)
    (iterations : Z) (probabilities : option (list Weight)) (seed : option SeedValue)
  : M World Totals :=
  random_seed seed ;;
  for_loop (py_range iterations)
           (fun _ acc => random_step n_ancillas correction_type probabilities acc)
           ([], []).

(** The body of the innermost loop of [run_all_combinations] (lines 127-135). *)
Definition all_step (n_ancillas : Z) (correction_type : string)
    (qubit_group_1 qubit_group_2 : Z) (err_1 err_2 : string) (acc : Totals)
  : M World Totals :=
  let '(all_counts, err_to_counts) := acc in
  '(counts, error) ← run_one_combination n_ancillas correction_type
                       [((1, qubit_group_1), err_1); ((2, qubit_group_2), err_2)];
  if dict_mem err_to_counts error
  then mret (all_counts, err_to_counts)
  else mret (add_counts all_counts counts, dict_set err_to_counts error counts).

(** [run_all_combinations] (lines 110-137). *)
Definition run_all_combinations (n_ancillas : Z) (correction_type : string)
  : M World Totals :=
  let errors := ["i"; "x"; "z"] in
  for_loop (py_range (n_ancillas + 1)) (fun qubit_group_1 acc =>
    for_loop (py_range (n_ancillas + 1)) (fun qubit_group_2 acc =>
      for_loop errors (fun err_1 acc =>
        for_loop errors (fun err_2 acc =>
          all_step n_ancillas correction_type
                   qubit_group_1 qubit_group_2 err_1 err_2 acc) acc) acc) acc)
    ([], []).

End Simulation.

Arguments mkWorld {G OsRandom} _ _ _.
Arguments random_state {G OsRandom} _.
Arguments os_random {G OsRandom} _.
Arguments backend_log {G OsRandom} _.
Arguments backend_execute {G OsRandom} execute qc _.
Arguments random_seed {G SeedValue OsRandom} seed_state os_seed seed _.
Arguments random_randint {G OsRandom} randint a b _.
Arguments random_choices {G Weight OsRandom} choices population weights _.
Arguments run_one_combination {G OsRandom} execute n_ancillas correction_type errors _.
Arguments random_step {G Weight OsRandom} execute randint choices
  n_ancillas correction_type probabilities acc _.
Arguments run_random_errors {G SeedValue Weight OsRandom} execute seed_state os_seed
  randint choices n_ancillas correction_type iterations probabilities seed _.
Arguments all_step {G OsRandom} execute n_ancillas correction_type
  qubit_group_1 qubit_group_2 err_1 err_2 acc _.
Arguments run_all_combinations {G OsRandom} execute n_ancillas correction_type _.

(** ** Notions used in the statements *)

(** The number of ancillas a builder holds for a group, the way [add_error]
    reads it for its message:
    [self.anc_qubit[group - 1].size if len(self.anc_qubit) > 0 else 0]. *)
Definition ancilla_count (b : BellCircuit) (group : Z) : Z :=
  if 0 <? len (anc_qubit b)
  then match py_index (anc_qubit b) (group - 1) with
       | Return r => size r
       | Raise _ => 0
       end
  else 0.

(** [st] is a builder whose registers are those allocated by
    [BellCircuit(n1, n2)]; its circuits may hold any instructions. *)
Definition allocated (n1 n2 : Z) (st : State) : Prop :=
  exists st0, BellCircuit_init n1 n2 = Return st0 /\
              qubits (self st) = qubits (self st0) /\
              anc_qubit (self st) = anc_qubit (self st0) /\
              cbits (self st) = cbits (self st0).

(** The qubit an error descriptor [(group, index)] designates in a builder
    with named registers: the primary qubit for index 0, the ancilla
    [index - 1] of the group's register otherwise. *)
Definition target (group index : Z) : Qubit :=
  if index =? 0 then mkQubit "qubit" (Z.to_nat (group - 1))
  else mkQubit (if group =? 1 then "anc_qb1" else "anc_qb2") (Z.to_nat (index - 1)).

(** The operations of the builder that add to a circuit. *)
Inductive operation : Type :=
| Op_add_zero_bf_corr (qubit : Z)
| Op_add_x_pf_corr (qubit : Z)
| Op_add_zero_bf_corr_with_repetition (qubit : Z)
| Op_add_x_pf_corr_with_repetition (qubit : Z)
| Op_add_measurement
| Op_add_error (qubit : Z * Z) (error_gate : string).

(** Calling an operation with a choice for the in-place flag.  The flag goes
    to the method's [in_place] ([in_pace]) parameter; [add_error] has no
    such parameter and returns [None]. *)
Definition invoke (op : operation) (flag : bool) : M State (option ref) :=
  match op with
  | Op_add_zero_bf_corr q => r ← add_zero_bf_corr q flag; mret (Some r)
  | Op_add_x_pf_corr q => r ← add_x_pf_corr q flag; mret (Some r)
  | Op_add_zero_bf_corr_with_repetition q =>
      r ← add_zero_bf_corr_with_repetition q flag; mret (Some r)
  | Op_add_x_pf_corr_with_repetition q =>
      r ← add_x_pf_corr_with_repetition q flag; mret (Some r)
  | Op_add_measurement => r ← add_measurement flag; mret (Some r)
  | Op_add_error q g => add_error q g ;; mret None
  end.

(** The new object [r] of [st'] is a snapshot of the current circuit of [st]:
    a copy with instructions appended, every older object being as it was. *)
Definition snapshot_of (st : State) (r : ref) (st' : State) : Prop :=
  r = length (objects st) /\
  exists ins, objects st' = (objects st ++ [append_data ins (current st)])%list.

(** The discipline of the in-place flag, for one operation in one state:
    without the flag the call returns a snapshot and leaves the builder as it
    was; with the flag the builder moves on to the snapshot it returns. *)
Definition flag_controlled (op : operation) (st : State) : Prop :=
  (forall r st', invoke op false st = (Return r, st') ->
     exists c, r = Some c /\ snapshot_of st c st' /\ self st' = self st) /\
  (forall r st', invoke op true st = (Return r, st') ->
     exists c, r = Some c /\ snapshot_of st c st' /\
               self st' = mkBell (qubits (self st)) (anc_qubit (self st))
                                 (cbits (self st)) c).

(** A backend that reports a thousand shots of the all-zero outcome. *)
Definition execute_zero (qc : QuantumCircuit) : Counts := [("00", 1000)].

(** A generator that always draws the lower bound and the first element. *)
Definition randint_low (a b : Z) (g : unit) : outcome Z * unit :=
  if b <? a then (Raise (ValueError "empty range for randrange()"), g) else (Return a, g).
Definition choices_first {W} (population : list string) (weights : option (list W))
    (g : unit) : outcome (list string) * unit :=
  match population with
  | [] => (Raise (IndexError "Cannot choose from an empty sequence"), g)
  | x :: _ => (Return [x], g)
  end.

Definition world0 : World unit unit := mkWorld tt tt [].

(** The raw configurations of the exhaustive run, in the order of the four
    nested loops. *)
Definition configurations (n_ancillas : Z) : list (Z * Z * string * string) :=
  let errors := ["i"; "x"; "z"] in
  g1 ← py_range (n_ancillas + 1);
  g2 ← py_range (n_ancillas + 1);
  e1 ← errors;
  e2 ← errors;
  [(g1, g2, e1, e2)].

(** The sum of a list of counts, taken in order. *)
Definition total_counts (cs : list Counts) : Counts := fold_left add_counts cs [].

(** The builders [BellCircuit(2, 2)] and [BellCircuit(0, 0)], as constructed. *)
Definition bell_2_2 : State :=
  mkState (mkBell (mkQReg 2 "qubit") [mkQReg 2 "anc_qb1"; mkQReg 2 "anc_qb2"]
                  (mkCReg 2 "c") 0%nat)
          [mkCircuit [mkQReg 2 "qubit"; mkQReg 2 "anc_qb1"; mkQReg 2 "anc_qb2"]
                     [mkCReg 2 "c"] []].

Definition bell_0_0 : State :=
  mkState (mkBell (mkQReg 2 "qubit") [] (mkCReg 2 "c") 0%nat)
          [mkCircuit [mkQReg 2 "qubit"] [mkCReg 2 "c"] []].

(** The gates [add_error_gate] appends: one for ["z"] and ["x"], none for any
    other string. *)
Definition error_gates (q : Qubit) (gate : string) : list Instruction :=
  if String.eqb gate "z" then [ZGate q]
  else if String.eqb gate "x" then [XGate q]
  else [].

(** The four gadgets, by name. *)
Definition gadget (op : operation) (in_place : bool) : option (M State ref) :=
  match op with
  | Op_add_zero_bf_corr q => Some (add_zero_bf_corr q in_place)
  | Op_add_x_pf_corr q => Some (add_x_pf_corr q in_place)
  | Op_add_zero_bf_corr_with_repetition q => Some (add_zero_bf_corr_with_repetition q in_place)
  | Op_add_x_pf_corr_with_repetition q => Some (add_x_pf_corr_with_repetition q in_place)
  | _ => None
  end.

Definition gadget_group (op : operation) : Z :=
  match op with
  | Op_add_zero_bf_corr q | Op_add_x_pf_corr q
  | Op_add_zero_bf_corr_with_repetition q | Op_add_x_pf_corr_with_repetition q => q
  | _ => 0
  end.

(** What a snapshot operation promises: when it returns, the new object is
    a snapshot of the current circuit and the builder has moved to it exactly
    when the flag is set; when it raises, the builder and every older object
    are as they were. *)
Definition snapshot_post (st : State) (flag : bool) (o : outcome ref) (st' : State) : Prop :=
  match o with
  | Return c =>
      snapshot_of st c st' /\
      self st' = (if flag
                  then mkBell (qubits (self st)) (anc_qubit (self st)) (cbits (self st)) c
                  else self st)
  | Raise _ =>
      self st' = self st /\ exists new, objects st' = (objects st ++ new)%list
  end.

(** What [run_one_combination] computes before it calls the backend: the
    error key and the circuit behind [qc.circuit]. *)
Definition assemble (n_ancillas : Z) (correction_type : string) (errors : list Error)
  : outcome (string * QuantumCircuit) :=
  qc ← BellCircuit_init n_ancillas n_ancillas;
  e0 ← py_index errors 0;
  e1 ← py_index errors 1;
  let error := error_key (snd (fst e0)) (snd e0) (snd (fst e1)) (snd e1) in
  if String.eqb correction_type "simple"
  then r ← call (create_circuit_with_simple_correction
                   [((1, 0), snd e0); ((2, 0), snd e1)] false) qc;
       Return (error_key 0 (snd e0) 0 (snd e1), current (snd r))
  else if String.eqb correction_type "repetition_simple"
  then r ← call (create_circuit_with_simple_repetition errors false) qc;
       Return (error, current (snd r))
  else if String.eqb correction_type "shor"
  then r ← call (create_circuit_with_shor_correction errors false) qc;
       Return (error, current (snd r))
  else r ← call (create_circuit_with_no_correction errors false) qc;
       Return (error, current (snd r)).

(** The instructions of the no-correction circuit with symbolic errors. *)
Definition no_correction_diagram : list Instruction :=
  [HGate (mkQubit "qubit" 0); Barrier;
   Placeholder "err_1" [mkQubit "qubit" 0];
   Placeholder "err_2" [mkQubit "qubit" 1];
   Barrier;
   CXGate (mkQubit "qubit" 0) (mkQubit "qubit" 1); Barrier;
   CXGate (mkQubit "qubit" 0) (mkQubit "qubit" 1);
   HGate (mkQubit "qubit" 0);
   Measure (mkQubit "qubit" 0) (mkClbit "c" 0);
   Measure (mkQubit "qubit" 1) (mkClbit "c" 1)].

(** The two errors of a raw configuration, as [run_all_combinations] passes
    them on. *)
Definition config_errors (cfg : Z * Z * string * string) : list Error :=
  let '(g1, g2, e1, e2) := cfg in [((1, g1), e1); ((2, g2), e2)].

(** The key [run_one_combination] returns for a raw configuration. *)
Definition canonical_key (correction_type : string) (cfg : Z * Z * string * string)
  : string :=
  let '(g1, g2, e1, e2) := cfg in
  if String.eqb correction_type "simple" then error_key 0 e1 0 e2
  else error_key g1 e1 g2 e2.

(** ** Notions used in the proofs *)

(** The body of the exhaustive run for one raw configuration. *)
Definition all_body {G OsRandom : Type} (execute : QuantumCircuit -> Counts)
    (n : Z) (ct : string) (cfg : Z * Z * string * string) (acc : Totals)
  : M (World G OsRandom) Totals :=
  let '(g1, g2, e1, e2) := cfg in all_step execute n ct g1 g2 e1 e2 acc.

(** What holds in the exhaustive run after the configurations [done], from the
    world [w0]: each of them went to the backend once, in order; the keys kept
    are theirs, each once; the counts kept under a key come from a run with
    that key; and the total is the sum of the counts kept. *)
Definition exhaustive_inv {G OsRandom : Type} (execute : QuantumCircuit -> Counts)
    (n : Z) (ct : string) (w0 : World G OsRandom)
    (done : list (Z * Z * string * string)) (acc : Totals) (w : World G OsRandom)
  : Prop :=
  (exists runs,
      backend_log w = backend_log w0 ++ runs /\
      Forall2 (fun cfg qc => exists key, assemble n ct (config_errors cfg) = Return (key, qc))
              done runs) /\
  NoDup (fst <$> snd acc) /\
  (forall k, k ∈ (fst <$> snd acc) <-> exists cfg, cfg ∈ done /\ canonical_key ct cfg = k) /\
  (forall k c, (k, c) ∈ snd acc ->
     exists cfg qc, cfg ∈ done /\ assemble n ct (config_errors cfg) = Return (k, qc) /\
                    c = execute qc) /\
  fst acc = total_counts (snd <$> snd acc).

(** A computation whose outcome, final generator state and calls to the
    backend are decided by the generator state it starts from, and by nothing
    else in the world. *)
Definition generator_driven {G OsRandom A : Type} (m : M (World G OsRandom) A) : Prop :=
  forall g, exists o runs g',
    forall w, random_state w = g ->
              m w = (o, mkWorld g' (os_random w) (backend_log w ++ runs)).

(** [wp m s Q]: running [m] from [s] ends in an outcome and a state that
    satisfy [Q]. *)
Definition wp {S A} (m : M S A) (s : S) (Q : outcome A -> S -> Prop) : Prop :=
  Q (fst (m s)) (snd (m s)).

(** ** Notions used in the further properties *)

Definition is_measure (i : Instruction) : bool :=
  match i with
  | Measure _ _ => true
  | _ => false
  end.

(** The builder's reference points to one of its objects. *)
Definition well_formed (st : State) : Prop :=
  (circuit (self st) < length (objects st))%nat.

Definition same_registers (st st' : State) : Prop :=
  qubits (self st') = qubits (self st) /\
  anc_qubit (self st') = anc_qubit (self st) /\
  cbits (self st') = cbits (self st).

(** From [st] to [st'] the builder kept its registers and its current circuit
    gained instructions, none of them a measurement. *)
Definition grows (st st' : State) : Prop :=
  well_formed st' /\ same_registers st st' /\
  exists ins, current st' = append_data ins (current st) /\
              Forall (fun i => is_measure i = false) ins.

(** A method after which, returning or raising, the builder has grown. *)
Definition keeps_growing {A} (m : M State A) : Prop :=
  forall st, well_formed st -> grows st (snd (m st)).

(** What [add_measurement] appends in an allocated builder. *)
Definition measurement : list Instruction :=
  [CXGate (mkQubit "qubit" 0) (mkQubit "qubit" 1);
   HGate (mkQubit "qubit" 0);
   Measure (mkQubit "qubit" 0) (mkClbit "c" 0);
   Measure (mkQubit "qubit" 1) (mkClbit "c" 1)].

(** A method that, when it returns, has appended to the current circuit some
    instructions without a measurement, then the entangling gate with its
    barrier, then the measurement. *)
Definition ends_measured (m : M State unit) : Prop :=
  forall st st',
    well_formed st ->
    qubits (self st) = mkQReg 2 "qubit" -> cbits (self st) = mkCReg 2 "c" ->
    m st = (Return tt, st') ->
    well_formed st' /\ same_registers st st' /\
    exists body,
      current st' =
      append_data (body ++ [CXGate (mkQubit "qubit" 0) (mkQubit "qubit" 1); Barrier]
                        ++ measurement) (current st) /\
      Forall (fun i => is_measure i = false) body.

(** The shape of an assembled circuit: the Hadamard gate on the first primary
    qubit and a barrier, then instructions without a measurement, then the
    entangling gate with its barrier, then the measurement. *)
Definition skeleton (ins : list Instruction) : Prop :=
  exists middle,
    ins = [HGate (mkQubit "qubit" 0); Barrier] ++ middle
          ++ [CXGate (mkQubit "qubit" 0) (mkQubit "qubit" 1); Barrier] ++ measurement /\
    Forall (fun i => is_measure i = false) middle.

(** The state after the entangling gate and its barrier. *)
Definition entangled (st : State) : State :=
  mkState (self st)
    (alter (append_data [Barrier]) (circuit (self st))
       (alter (append_data [CXGate (mkQubit "qubit" 0) (mkQubit "qubit" 1)])
          (circuit (self st)) (objects st))).

(** The state after the Hadamard gate on the first primary qubit and its
    barrier. *)
Definition superposed (st : State) : State :=
  mkState (self st)
    (alter (append_data [Barrier]) (circuit (self st))
       (alter (append_data [HGate (mkQubit "qubit" 0)]) (circuit (self st)) (objects st))).

(** The builder holds the primary pair, the ancilla registers [anc] and the
    classical pair. *)
Definition registers (anc : list QuantumRegister) (st : State) : Prop :=
  qubits (self st) = mkQReg 2 "qubit" /\
  anc_qubit (self st) = anc /\
  cbits (self st) = mkCReg 2 "c".

(** The ancilla registers of [BellCircuit(n, n)] for a positive [n]. *)
Definition ancillas (n : Z) : list QuantumRegister :=
  [mkQReg n "anc_qb1"; mkQReg n "anc_qb2"].

(** The call returned, and the builder still holds the same registers. *)
Definition returned {A} (anc : list QuantumRegister) (o : outcome A) (st' : State) : Prop :=
  (exists a, o = Return a) /\ registers anc st'.

(** An error whose group is 1 or 2 and whose index is one of [0 .. n]. *)
Definition in_range (n : Z) (e : Error) : Prop :=
  (fst (fst e) = 1 \/ fst (fst e) = 2) /\ 0 <= snd (fst e) <= n.

(** The number of ancillas [run_simulation] picks for a correction type
    (main.py, lines 46-52). *)
Definition n_ancillas_of (correction : string) : Z :=
  if String.eqb correction "simple" then 1
  else if String.eqb correction "repetition_simple" then 2
  else if String.eqb correction "shor" then 8
  else 0.

(** The ancilla registers of [BellCircuit(n, n)]. *)
Definition ancillas_of (n : Z) : list QuantumRegister :=
  if n =? 0 then [] else ancillas n.

(** The numbers of ancillas with which a diagram can be drawn for a
    correction type: one or more for ["simple"], exactly two for
    ["repetition_simple"], exactly eight for ["shor"], any number from zero
    for every other name. *)
Definition printable (n_ancillas : Z) (correction_type : string) : Prop :=
  if String.eqb correction_type "simple" then 1 <= n_ancillas
  else if String.eqb correction_type "repetition_simple" then n_ancillas = 2
  else if String.eqb correction_type "shor" then n_ancillas = 8
  else 0 <= n_ancillas.

(** The builder [BellCircuit(8, 8)], as constructed. *)
Definition bell_8_8 : State :=
  mkState (mkBell (mkQReg 2 "qubit") [mkQReg 8 "anc_qb1"; mkQReg 8 "anc_qb2"]
                  (mkCReg 2 "c") 0%nat)
          [mkCircuit [mkQReg 2 "qubit"; mkQReg 8 "anc_qb1"; mkQReg 8 "anc_qb2"]
                     [mkCReg 2 "c"] []].

(** [c.get(k, 0)]: the shots counted for the measured state [k]. *)
Definition count (c : Counts) (k : string) : Z := default 0 (dict_get c k).

(** The shots for [k] summed over the entries of [err_to_counts]. *)
Definition split_count (d : dict Counts) (k : string) : Z :=
  foldr (fun ec s => count (snd ec) k + s) 0 d.

(** [sum(c.values())]. *)
Definition shots (c : Counts) : Z := foldr (fun kv s => snd kv + s) 0 c.

(** The builder after a snapshot operation that appended [ins] to a copy of
    the current circuit: the copy is the newest object, and the builder
    points to it when the flag is set. *)
Definition snapshot (in_place : bool) (ins : list Instruction) (st : State) : State :=
  mkState (mkBell (qubits (self st)) (anc_qubit (self st)) (cbits (self st))
                  (if in_place then length (objects st) else circuit (self st)))
          (objects st ++ [append_data ins (current st)]).

(** The qubits an instruction acts on; a barrier is no gate. *)
Definition instruction_qubits (i : Instruction) : list Qubit :=
  match i with
  | HGate q | XGate q | ZGate q | Measure q _ => [q]
  | CXGate c t => [c; t]
  | CCXGate c1 c2 t => [c1; c2; t]
  | Barrier => []
  | Placeholder _ qs => qs
  end.

(** The qubits of a group: its primary qubit and the ancillas of its
    register. *)
Definition in_group (g : Z) (q : Qubit) : Prop :=
  q = mkQubit "qubit" (Z.to_nat (g - 1)) \/
  q_register q = (if g =? 1 then "anc_qb1" else "anc_qb2").

Definition within_group (g : Z) (i : Instruction) : Prop :=
  Forall (in_group g) (instruction_qubits i).

(** The same for a qubit [q] and a register [r] given as such: the qubits of
    the instruction are [q] or belong to [r]. *)
Definition on_block (q : Qubit) (r : QuantumRegister) (i : Instruction) : Prop :=
  Forall (fun x => x = q \/ q_register x = name r) (instruction_qubits i).

(** The instructions of the circuit without correction for a list of errors:
    the Hadamard gate and its barrier, the gate of every error in order on the
    qubit it designates, a barrier, the entangling gate with its barrier, and
    the measurement. *)
Definition no_correction_circuit (errors : list Error) : list Instruction :=
  [HGate (mkQubit "qubit" 0); Barrier]
  ++ flat_map (fun e => error_gates (target (fst (fst e)) (snd (fst e))) (snd e)) errors
  ++ [Barrier; CXGate (mkQubit "qubit" 0) (mkQubit "qubit" 1); Barrier]
  ++ measurement.

(** * Properties *)

(** ** Python sequences *)

(** Case analysis on the integer comparisons of the goal and of the
    hypotheses. *)
Ltac zcase :=
  match goal with
  | |- context [?a <? ?b] => destruct (Z.ltb_spec a b)
  | |- context [?a <=? ?b] => destruct (Z.leb_spec a b)
  | |- context [?a =? ?b] => destruct (Z.eqb_spec a b)
  | H : context [?a <? ?b] |- _ => revert H; destruct (Z.ltb_spec a b); intros ?
  | H : context [?a <=? ?b] |- _ => revert H; destruct (Z.leb_spec a b); intros ?
  | H : context [?a =? ?b] |- _ => revert H; destruct (Z.eqb_spec a b); intros ?
  end.

Ltac zcases := repeat (zcase; try lia; cbn [orb andb negb]).

Lemma py_index_in_range {A} (l : list A) (i : Z) (a : A) :
  0 <= i -> nth_error l (Z.to_nat i) = Some a -> py_index l i = Return a.
Proof.
  intros Hi Hnth. unfold py_index. cbv zeta.
  assert (Hlt : (Z.to_nat i < length l)%nat).
  { apply nth_error_Some. congruence. }
  zcases. rewrite Hnth. reflexivity.
Qed.

Lemma py_index_nil {A} (i : Z) :
  py_index (@nil A) i = Raise (IndexError "list index out of range").
Proof. unfold py_index. cbn [length]. cbv zeta. zcases; reflexivity. Qed.

Lemma py_index_above {A} (l : list A) (i : Z) :
  Z.of_nat (length l) <= i ->
  py_index l i = Raise (IndexError "list index out of range").
Proof. intros Hi. unfold py_index. cbv zeta. zcases; reflexivity. Qed.

Lemma py_index_below {A} (l : list A) (i : Z) :
  i < - Z.of_nat (length l) ->
  py_index l i = Raise (IndexError "list index out of range").
Proof. intros Hi. unfold py_index. cbv zeta. zcases; reflexivity. Qed.

Lemma length_bits (r : QuantumRegister) : length (bits r) = Z.to_nat (size r).
Proof. unfold bits. rewrite length_map, length_seq. reflexivity. Qed.

(** [reg[i]] for an index in range is the [i]-th qubit of the register. *)
Lemma reg_index_in_range (r : QuantumRegister) (i : Z) :
  0 <= i < size r -> reg_index r i = Return (mkQubit (name r) (Z.to_nat i)).
Proof.
  intros Hi. apply py_index_in_range; [lia|].
  unfold bits. rewrite nth_error_map, nth_error_seq.
  destruct (Nat.ltb_spec (Z.to_nat i) (Z.to_nat (size r))); [reflexivity | lia].
Qed.

(** ** The constructor *)

Lemma BellCircuit_init_none (n1 n2 : Z) :
  n1 = 0 \/ n2 = 0 ->
  BellCircuit_init n1 n2 =
  Return (mkState (mkBell (mkQReg 2 "qubit") [] (mkCReg 2 "c") 0%nat)
                  [mkCircuit [mkQReg 2 "qubit"] [mkCReg 2 "c"] []]).
Proof.
  intros H. unfold BellCircuit_init.
  destruct H; subst; zcases; reflexivity.
Qed.

Lemma BellCircuit_init_some (n1 n2 : Z) :
  0 < n1 -> 0 < n2 ->
  BellCircuit_init n1 n2 =
  Return (mkState (mkBell (mkQReg 2 "qubit")
                          [mkQReg n1 "anc_qb1"; mkQReg n2 "anc_qb2"]
                          (mkCReg 2 "c") 0%nat)
                  [mkCircuit [mkQReg 2 "qubit"; mkQReg n1 "anc_qb1"; mkQReg n2 "anc_qb2"]
                             [mkCReg 2 "c"] []]).
Proof.
  intros H1 H2. unfold BellCircuit_init, QuantumRegister_new.
  zcases. reflexivity.
Qed.

(** The constructor raises exactly when both counts are non-zero and one of
    them is negative. *)
Lemma BellCircuit_init_Return (n1 n2 : Z) (st : State) :
  BellCircuit_init n1 n2 = Return st ->
  (n1 = 0 \/ n2 = 0) \/ (0 < n1 /\ 0 < n2).
Proof.
  intros H.
  destruct (Z.eq_dec n1 0); [tauto|]. destruct (Z.eq_dec n2 0); [tauto|].
  right. revert H. unfold BellCircuit_init, QuantumRegister_new.
  zcases; cbn; intros; try discriminate; lia.
Qed.

(** The registers of a builder allocated by [BellCircuit(n1, n2)]. *)
Lemma allocated_registers (n1 n2 : Z) (st : State) :
  allocated n1 n2 st ->
  qubits (self st) = mkQReg 2 "qubit" /\ cbits (self st) = mkCReg 2 "c" /\
  (((n1 = 0 \/ n2 = 0) /\ anc_qubit (self st) = []) \/
   (0 < n1 /\ 0 < n2 /\
    anc_qubit (self st) = [mkQReg n1 "anc_qb1"; mkQReg n2 "anc_qb2"])).
Proof.
  intros (st0 & Hinit & Hq & Ha & Hc).
  destruct (BellCircuit_init_Return _ _ _ Hinit) as [Hz | [H1 H2]].
  - rewrite (BellCircuit_init_none _ _ Hz) in Hinit. injection Hinit as <-.
    cbn in *. auto.
  - rewrite (BellCircuit_init_some _ _ H1 H2) in Hinit. injection Hinit as <-.
    cbn in *. auto 10.
Qed.

(** C7. Constructing a [BellCircuit] with either ancilla count zero allocates
    no ancilla register at all, whatever the other count is: the builder's
    list of ancilla registers is empty, its circuit has the register of the two
    primary qubits as its only quantum register, and both groups count zero
    ancillas. *)
Theorem BellCircuit_init_zero_allocates_none (n_anc_qubit1 n_anc_qubit2 : Z) :
  n_anc_qubit1 = 0 \/ n_anc_qubit2 = 0 ->
  exists st, BellCircuit_init n_anc_qubit1 n_anc_qubit2 = Return st /\
             anc_qubit (self st) = [] /\
             qregs (current st) = [mkQReg 2 "qubit"] /\
             ancilla_count (self st) 1 = 0 /\
             ancilla_count (self st) 2 = 0.
Proof.
  intros H. eexists. split; [apply BellCircuit_init_none; exact H|].
  repeat split.
Qed.

Lemma BellCircuit_init_zero_allocates_none_witness :
  exists st, BellCircuit_init 0 8 = Return st /\
             anc_qubit (self st) = [] /\
             qregs (current st) = [mkQReg 2 "qubit"] /\
             ancilla_count (self st) 1 = 0 /\
             ancilla_count (self st) 2 = 0.
Proof. apply (BellCircuit_init_zero_allocates_none 0 8). left. reflexivity. Defined.

(** The counts a successful construction holds for the two groups. *)
Lemma BellCircuit_init_counts (n1 n2 : Z) (st : State) :
  BellCircuit_init n1 n2 = Return st ->
  ancilla_count (self st) 1 = (if (n1 =? 0) || (n2 =? 0) then 0 else n1) /\
  ancilla_count (self st) 2 = (if (n1 =? 0) || (n2 =? 0) then 0 else n2).
Proof.
  intros Hinit.
  destruct (BellCircuit_init_Return _ _ _ Hinit) as [Hz | [H1 H2]].
  - rewrite (BellCircuit_init_none _ _ Hz) in Hinit. injection Hinit as <-.
    destruct Hz; subst; zcases; split; reflexivity.
  - rewrite (BellCircuit_init_some _ _ H1 H2) in Hinit. injection Hinit as <-.
    zcases. split; reflexivity.
Qed.

(** C8, as stated, fails: [BellCircuit(1, 2)] is constructed and holds one
    ancilla for group 1 and two for group 2. *)
Lemma BellCircuit_init_asymmetric :
  exists st, BellCircuit_init 1 2 = Return st /\
             ancilla_count (self st) 1 = 1 /\ ancilla_count (self st) 2 = 2 /\
             ancilla_count (self st) 1 <> ancilla_count (self st) 2.
Proof. eexists. split; [reflexivity|]. repeat split. discriminate. Qed.

(** C8, amended. A constructed [BellCircuit] holds the same ancilla count for
    both groups exactly when the two requested counts are equal or one of them
    is zero; [simulations.py] constructs [BellCircuit(n_ancillas, n_ancillas)]
    only, where both groups hold the same count. *)
Theorem BellCircuit_init_same_count_iff (n_anc_qubit1 n_anc_qubit2 : Z) (st : State) :
  BellCircuit_init n_anc_qubit1 n_anc_qubit2 = Return st ->
  (ancilla_count (self st) 1 = ancilla_count (self st) 2 <->
   n_anc_qubit1 = n_anc_qubit2 \/ n_anc_qubit1 = 0 \/ n_anc_qubit2 = 0).
Proof.
  intros Hinit. destruct (BellCircuit_init_counts _ _ _ Hinit) as [-> ->].
  zcase; cbn [orb]; [tauto|]. zcase; [tauto|]. lia.
Qed.

Lemma BellCircuit_init_same_count_iff_witness :
  exists st, BellCircuit_init 2 2 = Return st /\
    (ancilla_count (self st) 1 = ancilla_count (self st) 2 <-> 2 = 2 \/ 2 = 0 \/ 2 = 0).
Proof.
  eexists. split; [reflexivity|].
  apply (BellCircuit_init_same_count_iff 2 2). reflexivity.
Defined.

(** ** Running computations of the monad *)


Lemma wp_run {S A} (m : M S A) (s : S) (r : outcome A * S) :
  wp m s (fun o s' => (o, s') = r) -> m s = r.
Proof. unfold wp. destruct (m s). exact (fun H => H). Qed.

Lemma wp_of_run {S A} (m : M S A) (s : S) (Q : outcome A -> S -> Prop) o s' :
  m s = (o, s') -> Q o s' -> wp m s Q.
Proof. unfold wp. intros ->. exact (fun H => H). Qed.

Lemma wp_bind {S A B} (m : M S A) (f : A -> M S B) (s : S) (Q : outcome B -> S -> Prop) :
  wp m s (fun o s' => match o with
                      | Return a => wp (f a) s' Q
                      | Raise e => Q (Raise e) s'
                      end) ->
  wp (m ≫= f) s Q.
Proof.
  unfold wp, mbind, M_mbind, M_bind. destruct (m s) as [[a|e] s']; exact (fun H => H).
Qed.

Lemma wp_ret {S A} (a : A) (s : S) (Q : outcome A -> S -> Prop) :
  Q (Return a) s -> wp (mret a) s Q.
Proof. exact (fun H => H). Qed.

Lemma wp_raise {S A} (e : exn) (s : S) (Q : outcome A -> S -> Prop) :
  Q (Raise e) s -> wp (raise e) s Q.
Proof. exact (fun H => H). Qed.

Lemma wp_eval {S A} (o : outcome A) (s : S) (Q : outcome A -> S -> Prop) :
  Q o s -> wp (eval o) s Q.
Proof. exact (fun H => H). Qed.

Lemma wp_modify {S} (f : S -> S) (s : S) (Q : outcome unit -> S -> Prop) :
  Q (Return tt) (f s) -> wp (modify f) s Q.
Proof. exact (fun H => H). Qed.

Lemma wp_get_self (s : State) (Q : outcome BellCircuit -> State -> Prop) :
  Q (Return (self s)) s -> wp get_self s Q.
Proof. exact (fun H => H). Qed.

Lemma wp_qc_copy (c : ref) (s : State) (Q : outcome ref -> State -> Prop) :
  Q (Return (length (objects s))) (mkState (self s) (objects s ++ [deref s c])) ->
  wp (qc_copy c) s Q.
Proof. exact (fun H => H). Qed.

Lemma wp_if {S A} (b : bool) (m1 m2 : M S A) (s : S) (Q : outcome A -> S -> Prop) :
  (b = true -> wp m1 s Q) -> (b = false -> wp m2 s Q) ->
  wp (if b then m1 else m2) s Q.
Proof. destruct b; auto. Qed.

Lemma wp_when {S} (b : bool) (m : M S unit) (s : S) (Q : outcome unit -> S -> Prop) :
  (b = true -> wp m s Q) -> (b = false -> Q (Return tt) s) ->
  wp (when_ b m) s Q.
Proof. destruct b; intros H1 H2; [apply H1 | apply H2]; reflexivity. Qed.

Lemma wp_mono {S A} (m : M S A) (s : S) (Q Q' : outcome A -> S -> Prop) :
  wp m s Q -> (forall o s', Q o s' -> Q' o s') -> wp m s Q'.
Proof. unfold wp. auto. Qed.

(** One step of a run: the structure of the computation decides the rule.
    A condition or a lookup that evaluates is evaluated; otherwise the run
    splits on it. *)
Ltac wp_step :=
  lazymatch goal with
  | |- wp (_ ≫= _) _ _ => apply wp_bind
  | |- wp (mret _) _ _ => apply wp_ret
  | |- wp (raise _) _ _ => apply wp_raise
  | |- wp (eval _) _ _ => apply wp_eval
  | |- wp (modify _) _ _ => apply wp_modify
  | |- wp get_self _ _ => apply wp_get_self
  | |- wp (qc_copy _) _ _ => apply wp_qc_copy
  | |- wp (when_ ?b _) _ _ =>
      first [ let b' := eval vm_compute in b in
              lazymatch b' with
              | true => change b with true
              | false => change b with false
              end; apply wp_when; intros ?; [|discriminate]
            | let b' := eval vm_compute in b in
              lazymatch b' with
              | false => change b with false
              end; apply wp_when; intros ?; [discriminate|]
            | apply wp_when; intros ? ]
  | |- wp (if ?b then _ else _) _ _ =>
      first [ let b' := eval vm_compute in b in
              lazymatch b' with
              | true => change b with true
              | false => change b with false
              end; cbv iota
            | apply wp_if; intros ? ]
  | |- wp (set_circuit _) _ _ => unfold set_circuit
  | |- wp (emit _ _) _ _ => unfold emit
  | |- wp self_circuit _ _ => unfold self_circuit
  | |- wp (self_qubit _) _ _ => unfold self_qubit
  | |- wp (self_anc _) _ _ => unfold self_anc
  | |- wp (self_anc_qubit _ _) _ _ => unfold self_anc_qubit
  | |- wp (check_gadget _ _ _) _ _ => unfold check_gadget
  | |- wp (finish _ _) _ _ => unfold finish
  | |- wp (qc_h _ _) _ _ => unfold qc_h
  | |- wp (qc_x _ _) _ _ => unfold qc_x
  | |- wp (qc_z _ _) _ _ => unfold qc_z
  | |- wp (qc_cx _ _ _) _ _ => unfold qc_cx
  | |- wp (qc_ccx _ _ _ _) _ _ => unfold qc_ccx
  | |- wp (qc_barrier _) _ _ => unfold qc_barrier
  | |- wp (qc_measure _ _ _) _ _ => unfold qc_measure
  | |- match ?o with Return _ => _ | Raise _ => _ end =>
      first [ rewrite reg_index_in_range by (cbn; lia)
            | let o' := eval vm_compute in o in
              lazymatch o' with
              | Return _ => change o with o'
              | Raise _ => change o with o'
              end
            | destruct o eqn:? ];
      cbv beta iota
  end;
  cbn [self objects qubits anc_qubit cbits circuit fst snd size name].

Ltac wp_steps := repeat wp_step.

Lemma len_nil {A} : len (@nil A) = 0.
Proof. reflexivity. Qed.

Lemma len_two {A} (x y : A) : len [x; y] = 2.
Proof. reflexivity. Qed.

(** The end of a run: the comparisons met on the way decide the goal. *)
Ltac wp_done :=
  rewrite ?len_nil, ?len_two in *;
  zcases; try discriminate; try reflexivity.

(** ** Error injection *)


Lemma add_error_gate_run (q : Qubit) (gate : string) (st : State) :
  add_error_gate q gate st =
  (Return tt,
   match error_gates q gate with
   | [] => st
   | ins => mkState (self st) (alter (append_data ins) (circuit (self st)) (objects st))
   end).
Proof.
  unfold add_error_gate, error_gates.
  destruct (String.eqb gate "z"); [reflexivity|].
  destruct (String.eqb gate "x"); reflexivity.
Qed.

Lemma add_error_invalid_group (g i : Z) (gate : string) (st : State) :
  g <> 1 -> g <> 2 ->
  add_error (g, i) gate st = (Raise (ValueError (msg_invalid_group g)), st).
Proof.
  intros H1 H2. apply wp_run. unfold add_error, py_in. cbn [fst snd existsb].
  wp_steps; wp_done.
Qed.

Ltac allocated_state H :=
  let Hq := fresh "Hq" in
  let Hc := fresh "Hc" in
  let Ha := fresh "Ha" in
  apply allocated_registers in H;
  destruct H as (Hq & Hc & Ha);
  match goal with
  | st : State |- _ =>
      destruct st as [[q a c r] objs]; cbn [self qubits cbits anc_qubit] in Hq, Hc, Ha;
      subst q c
  end.

Lemma add_error_out_of_index (n : Z) (st : State) (g i : Z) (gate : string) :
  allocated n n st -> g = 1 \/ g = 2 ->
  n < i \/ (n = 0 /\ i <> 0) ->
  add_error (g, i) gate st = (Raise (ValueError (msg_out_of_index g n i)), st).
Proof.
  intros Hal Hg Hi. allocated_state Hal. apply wp_run.
  destruct Ha as [[Hz ->] | (Hn & _ & ->)].
  - assert (n = 0) by lia. subst n.
    destruct Hg; subst g; unfold add_error, index_out_of_range; cbn [fst snd];
    wp_steps; wp_done. 
  - destruct Hg; subst g; unfold add_error, index_out_of_range; cbn [fst snd];
    wp_steps; wp_done. 
Qed.

Ltac add_error_gate_done :=
  eapply wp_of_run; [apply add_error_gate_run|];
  rewrite add_error_gate_run; reflexivity.

Lemma add_error_in_range (n : Z) (st : State) (g i : Z) (gate : string) :
  allocated n n st -> g = 1 \/ g = 2 -> 0 <= i <= n ->
  add_error (g, i) gate st = (Return tt, snd (add_error_gate (target g i) gate st)).
Proof.
  intros Hal Hg Hi. allocated_state Hal. apply wp_run. unfold target.
  destruct Ha as [[Hz ->] | (Hn & _ & ->)].
  - assert (n = 0) by lia. subst n. assert (i = 0) by lia. subst i.
    destruct Hg; subst g; unfold add_error, index_out_of_range; cbn [fst snd];
    wp_steps; wp_done; add_error_gate_done.
  - destruct Hg; subst g; unfold add_error, index_out_of_range; cbn [fst snd];
    wp_steps; wp_done; try add_error_gate_done.
Qed.

(** C3. In a builder whose two groups were allocated [n] ancillas each, for
    a group of 1 or 2: [add_error] with index [n] succeeds and applies the gate
    through [add_error_gate] to the [n]-th ancilla of the group (the primary
    qubit when [n] is 0); with an index above [n] it raises [ValueError];
    with a non-zero index in a builder without ancillas it raises
    [ValueError]; and with a group other than 1 and 2 it raises [ValueError].
    Every failure leaves the builder as it was. *)
Theorem add_error_index_boundary (n : Z) (st : State) (g : Z) (gate : string) :
  allocated n n st -> g = 1 \/ g = 2 ->
  add_error (g, n) gate st = (Return tt, snd (add_error_gate (target g n) gate st)) /\
  (forall i, n < i ->
     add_error (g, i) gate st = (Raise (ValueError (msg_out_of_index g n i)), st)) /\
  (n = 0 -> forall i, i <> 0 ->
     add_error (g, i) gate st = (Raise (ValueError (msg_out_of_index g 0 i)), st)) /\
  (forall g' i, g' <> 1 -> g' <> 2 ->
     add_error (g', i) gate st = (Raise (ValueError (msg_invalid_group g')), st)).
Proof.
  intros Hal Hg.
  assert (Hn : 0 <= n).
  { destruct (allocated_registers _ _ _ Hal) as (_ & _ & [[H _] | (H & _)]); lia. }
  split; [|split; [|split]].
  - apply (add_error_in_range n); auto. lia.
  - intros i Hi. apply (add_error_out_of_index n); auto.
  - intros -> i Hi. apply (add_error_out_of_index 0); auto.
  - intros g' i H1 H2. apply add_error_invalid_group; assumption.
Qed.


Lemma allocated_bell_2_2 : allocated 2 2 bell_2_2.
Proof. exists bell_2_2. repeat split. Qed.

Lemma add_error_index_boundary_witness :
  add_error (1, 2) "x" bell_2_2
  = (Return tt, snd (add_error_gate (target 1 2) "x" bell_2_2)) /\
  (forall i, 2 < i ->
     add_error (1, i) "x" bell_2_2
     = (Raise (ValueError (msg_out_of_index 1 2 i)), bell_2_2)) /\
  (2 = 0 -> forall i, i <> 0 ->
     add_error (1, i) "x" bell_2_2
     = (Raise (ValueError (msg_out_of_index 1 0 i)), bell_2_2)) /\
  (forall g' i, g' <> 1 -> g' <> 2 ->
     add_error (g', i) "x" bell_2_2
     = (Raise (ValueError (msg_invalid_group g')), bell_2_2)).
Proof.
  apply (add_error_index_boundary 2 bell_2_2 1 "x").
  - exact allocated_bell_2_2.
  - left. reflexivity.
Defined.

(** For a group of 1 or 2 and an index from 0 to the allocated count, a gate
    string other than ["x"] and ["z"] makes [add_error] do nothing at all,
    without an error; ["x"] and ["z"] append one gate on the designated
    qubit. *)
Lemma add_error_gate_kind (n : Z) (st : State) (g i : Z) (gate : string) :
  allocated n n st -> g = 1 \/ g = 2 -> 0 <= i <= n ->
  (gate <> "x" -> gate <> "z" -> add_error (g, i) gate st = (Return tt, st)) /\
  (gate = "x" ->
   add_error (g, i) gate st =
   (Return tt, mkState (self st) (alter (append_data [XGate (target g i)])
                                        (circuit (self st)) (objects st)))) /\
  (gate = "z" ->
   add_error (g, i) gate st =
   (Return tt, mkState (self st) (alter (append_data [ZGate (target g i)])
                                        (circuit (self st)) (objects st)))).
Proof.
  intros Hal Hg Hi. rewrite (add_error_in_range n) by assumption.
  rewrite add_error_gate_run. unfold error_gates. repeat split.
  - intros Hx Hz. apply String.eqb_neq in Hx, Hz. rewrite Hx, Hz. reflexivity.
  - intros ->. reflexivity.
  - intros ->. reflexivity.
Qed.

(** C9, at the failing input. The index validation of [add_error] has no
    lower bound: in [BellCircuit(1, 1)] the index -1 passes it
    ([index_out_of_range] answers [False]), and the lookup
    [self.anc_qubit[0][-2]] that follows raises [IndexError], although the
    gate ["i"] asks for no operation. *)
Theorem add_error_negative_index_raises :
  exists st, BellCircuit_init 1 1 = Return st /\
             index_out_of_range (1, -1) st = (Return false, st) /\
             add_error (1, -1) "i" st
             = (Raise (IndexError "list index out of range"), st).
Proof. eexists. split; [reflexivity|]. split; reflexivity. Qed.

(** With two ancillas the same index wraps around instead: the gate lands on
    the first ancilla of the group. *)
Lemma add_error_negative_index_wraps :
  add_error (1, -1) "x" bell_2_2
  = (Return tt,
     mkState (self bell_2_2)
             (alter (append_data [XGate (mkQubit "anc_qb1" 0)]) 0%nat (objects bell_2_2))).
Proof. reflexivity. Qed.

(** ** Snapshots *)

Lemma wp_inv {S A} (m : M S A) (s : S) (Q : outcome A -> S -> Prop) o s' :
  wp m s Q -> m s = (o, s') -> Q o s'.
Proof. unfold wp. intros H E. rewrite E in H. exact H. Qed.

Lemma append_data_app (a b : list Instruction) (qc : QuantumCircuit) :
  append_data b (append_data a qc) = append_data (a ++ b) qc.
Proof. unfold append_data. cbn. rewrite app_assoc. reflexivity. Qed.

(** Appending to the newest object of the store. *)
Lemma alter_newest (ins : list Instruction) (objs : list QuantumCircuit) (qc : QuantumCircuit) :
  alter (append_data ins) (length objs) (objs ++ [qc])%list
  = (objs ++ [append_data ins qc])%list.
Proof.
  replace (length objs) with (length objs + 0)%nat by lia.
  rewrite alter_app_r. reflexivity.
Qed.

Lemma append_data_nil (qc : QuantumCircuit) : append_data [] qc = qc.
Proof. destruct qc. unfold append_data. cbn. rewrite app_nil_r. reflexivity. Qed.


Ltac snapshot_done :=
  lazymatch goal with
  | |- snapshot_post _ _ (Raise _) _ =>
      split; [reflexivity|]; cbn [objects]; rewrite ?alter_newest;
      first [ exists []; rewrite app_nil_r; reflexivity | eexists; reflexivity ]
  | |- snapshot_post _ ?flag (Return _) _ =>
      split; [split; [reflexivity|]; cbn [objects];
              rewrite ?alter_newest, ?append_data_app; eexists; reflexivity
             | destruct flag; try discriminate; reflexivity]
  end.

Lemma add_zero_bf_corr_snapshot (qubit : Z) (flag : bool) (st : State) :
  wp (add_zero_bf_corr qubit flag) st (snapshot_post st flag).
Proof. unfold add_zero_bf_corr. wp_steps; snapshot_done. Qed.

Lemma add_x_pf_corr_snapshot (qubit : Z) (flag : bool) (st : State) :
  wp (add_x_pf_corr qubit flag) st (snapshot_post st flag).
Proof. unfold add_x_pf_corr. wp_steps; snapshot_done. Qed.

Lemma add_zero_bf_corr_with_repetition_snapshot (qubit : Z) (flag : bool) (st : State) :
  wp (add_zero_bf_corr_with_repetition qubit flag) st (snapshot_post st flag).
Proof. unfold add_zero_bf_corr_with_repetition. wp_steps; snapshot_done. Qed.

Lemma add_x_pf_corr_with_repetition_snapshot (qubit : Z) (flag : bool) (st : State) :
  wp (add_x_pf_corr_with_repetition qubit flag) st (snapshot_post st flag).
Proof. unfold add_x_pf_corr_with_repetition. wp_steps; snapshot_done. Qed.

Lemma add_measurement_snapshot (flag : bool) (st : State) :
  wp (add_measurement flag) st (snapshot_post st flag).
Proof. unfold add_measurement. wp_steps; snapshot_done. Qed.

(** [add_error] works on the builder's current circuit object itself: it
    allocates nothing, keeps the builder's reference, and only appends to the
    object behind it, whether it returns or raises. *)
Lemma add_error_in_place (qubit : Z * Z) (gate : string) (st : State) :
  wp (add_error qubit gate) st
     (fun _ st' => self st' = self st /\
                   exists ins, objects st' =
                               alter (append_data ins) (circuit (self st)) (objects st)).
Proof.
  assert (Hid : objects st = alter (append_data []) (circuit (self st)) (objects st)).
  { symmetry. apply list_alter_id. intros qc. apply append_data_nil. }
  unfold add_error, index_out_of_range. wp_steps.
  all: try (split; [reflexivity|]; exists []; exact Hid).
  all: eapply wp_of_run; [apply add_error_gate_run|].
  all: destruct (error_gates _ _) eqn:E; (split; [reflexivity|]).
  all: first [ exists []; exact Hid | eexists; reflexivity ].
Qed.


(** C2, as stated, fails for [add_error]: the method has no in-place flag,
    returns no snapshot, and appends to the builder's current circuit object
    itself.  In a fresh [BellCircuit(0, 0)], the X error on the first primary
    qubit changes the current circuit whatever flag the caller had in mind. *)
Lemma add_error_has_no_flag :
  ~ flag_controlled (Op_add_error (1, 0) "x") bell_0_0 /\
  (forall flag,
     exists st', invoke (Op_add_error (1, 0) "x") flag bell_0_0 = (Return None, st') /\
                 self st' = self bell_0_0 /\
                 length (objects st') = length (objects bell_0_0) /\
                 data (current bell_0_0) = [] /\
                 data (current st') = [XGate (mkQubit "qubit" 0)]).
Proof.
  split.
  - intros [H _].
    destruct (H None _ eq_refl) as (c & Hc & _). discriminate Hc.
  - intros flag. eexists. split; [reflexivity|]. repeat split.
Qed.

(** C2, amended. The four correction gadgets and [add_measurement] follow the
    discipline of the in-place flag: without the flag the call returns a new
    snapshot and leaves the builder and every older circuit object as they
    were; with the flag it returns the new snapshot and the builder moves on
    to it, the older objects still being as they were.  [add_error] has no
    flag: it returns nothing, allocates nothing, keeps the builder's reference
    and appends to the circuit object behind it. *)
Theorem in_place_flag_discipline (op : operation) (st : State) :
  match op with
  | Op_add_error qubit gate =>
      forall flag o st',
        invoke op flag st = (o, st') ->
        (o = Return None \/ exists e, o = Raise e) /\
        self st' = self st /\
        exists ins, objects st' = alter (append_data ins) (circuit (self st)) (objects st)
  | _ => flag_controlled op st
  end.
Proof.
  assert (Hop : forall (method : bool -> M State ref),
            (forall flag st0, wp (method flag) st0 (snapshot_post st0 flag)) ->
            (forall r st', (r0 ← method false; mret (Some r0)) st = (Return r, st') ->
               exists c, r = Some c /\ snapshot_of st c st' /\ self st' = self st) /\
            (forall r st', (r0 ← method true; mret (Some r0)) st = (Return r, st') ->
               exists c, r = Some c /\ snapshot_of st c st' /\
                         self st' = mkBell (qubits (self st)) (anc_qubit (self st))
                                           (cbits (self st)) c)).
  { intros method Hm. split; intros r st' Hrun.
    - pose proof (Hm false st) as Hwp. unfold wp in Hwp.
      unfold mbind, M_mbind, M_bind in Hrun.
      destruct (method false st) as [[c|e] s1]; [|discriminate].
      cbn in Hwp. injection Hrun as <- <-. exists c. tauto.
    - pose proof (Hm true st) as Hwp. unfold wp in Hwp.
      unfold mbind, M_mbind, M_bind in Hrun.
      destruct (method true st) as [[c|e] s1]; [|discriminate].
      cbn in Hwp. injection Hrun as <- <-. exists c. tauto. }
  destruct op as [q|q|q|q| |q g]; cbn [invoke].
  - apply (Hop (add_zero_bf_corr q)). intros. apply add_zero_bf_corr_snapshot.
  - apply (Hop (add_x_pf_corr q)). intros. apply add_x_pf_corr_snapshot.
  - apply (Hop (add_zero_bf_corr_with_repetition q)). intros.
    apply add_zero_bf_corr_with_repetition_snapshot.
  - apply (Hop (add_x_pf_corr_with_repetition q)). intros.
    apply add_x_pf_corr_with_repetition_snapshot.
  - apply (Hop add_measurement). intros. apply add_measurement_snapshot.
  - intros flag o st' Hrun.
    pose proof (add_error_in_place q g st) as Hwp. unfold wp in Hwp.
    unfold mbind, M_mbind, M_bind in Hrun.
    destruct (add_error q g st) as [[[]|e] s1]; injection Hrun as <- <-; cbn in Hwp.
    + split; [left; reflexivity | exact Hwp].
    + split; [right; eexists; reflexivity | exact Hwp].
Qed.

Lemma in_place_flag_discipline_witness :
  exists c st',
    invoke Op_add_measurement false bell_2_2 = (Return (Some c), st') /\
    snapshot_of bell_2_2 c st' /\ self st' = self bell_2_2.
Proof.
  pose proof (in_place_flag_discipline Op_add_measurement bell_2_2) as H.
  cbv beta iota in H. destruct H as [H _].
  eexists _, _. split; [reflexivity|].
  destruct (H _ _ eq_refl) as (c & Hc & Hs & Hself).
  injection Hc as <-. split; assumption.
Defined.

(** ** The checks of the gadgets *)

Lemma bind_raise {S A B} (m : M S A) (f : A -> M S B) (s s' : S) (e : exn) :
  m s = (Raise e, s') -> (m ≫= f) s = (Raise e, s').
Proof. intros H. unfold mbind, M_mbind, M_bind. rewrite H. reflexivity. Qed.

Lemma check_gadget_invalid_group (qubit required : Z) (how_many : string) (st : State) :
  qubit <> 1 -> qubit <> 2 ->
  check_gadget qubit required how_many st
  = (Raise (ValueError (msg_invalid_qubit qubit)), st).
Proof.
  intros H1 H2. apply wp_run. unfold check_gadget, py_in. cbn [existsb].
  wp_steps; wp_done.
Qed.

(** A register that is too small is reported with the group and the count. *)
Lemma check_gadget_too_few (n required qubit : Z) (how_many : string) (st : State) :
  allocated n n st -> qubit = 1 \/ qubit = 2 -> 0 < n < required ->
  check_gadget qubit required how_many st
  = (Raise (Exception (msg_requires how_many qubit n)), st).
Proof.
  intros Hal Hq Hn. allocated_state Hal. apply wp_run.
  destruct Ha as [[Hz _] | (_ & _ & ->)]; [lia|].
  destruct Hq; subst qubit; unfold check_gadget; wp_steps; wp_done.
Qed.

(** Without ancilla registers the check itself fails: [self.anc_qubit] is the
    empty list and [self.anc_qubit[qubit - 1]] raises [IndexError]. *)
Lemma check_gadget_no_register (qubit required : Z) (how_many : string) (st : State) :
  anc_qubit (self st) = [] -> qubit = 1 \/ qubit = 2 ->
  check_gadget qubit required how_many st
  = (Raise (IndexError "list index out of range"), st).
Proof.
  intros Ha Hq. apply wp_run.
  destruct Hq; subst qubit; unfold check_gadget; wp_steps;
    try (rewrite Ha in *; rewrite py_index_nil in *; try discriminate);
    wp_done.
  all: congruence.
Qed.


(** Every gadget rejects a group other than 1 and 2 with a [ValueError] that
    names the group, before it touches anything. *)
Lemma gadget_invalid_group (op : operation) (in_place : bool) (m : M State ref) (st : State) :
  gadget op in_place = Some m ->
  gadget_group op <> 1 -> gadget_group op <> 2 ->
  m st = (Raise (ValueError (msg_invalid_qubit (gadget_group op))), st).
Proof.
  intros Hm H1 H2.
  destruct op; cbn in Hm, H1, H2 |- *; try discriminate; injection Hm as <-;
    apply bind_raise, check_gadget_invalid_group; assumption.
Qed.

(** The repetition gadgets reject a single ancilla per group with an
    [Exception] that reports the group and the count, before they touch
    anything. *)
Lemma repetition_gadget_too_few (qubit : Z) (in_place : bool) (st : State) :
  allocated 1 1 st -> qubit = 1 \/ qubit = 2 ->
  add_zero_bf_corr_with_repetition qubit in_place st
  = (Raise (Exception (msg_requires "two ancilla" qubit 1)), st) /\
  add_x_pf_corr_with_repetition qubit in_place st
  = (Raise (Exception (msg_requires "two ancillas" qubit 1)), st).
Proof.
  intros Hal Hq. split; apply bind_raise, (check_gadget_too_few 1); auto; lia.
Qed.

(** In a builder without ancilla registers every gadget fails in its own
    check, with the [IndexError] of the list lookup. *)
Lemma gadget_no_register (op : operation) (in_place : bool) (m : M State ref) (st : State) :
  gadget op in_place = Some m ->
  anc_qubit (self st) = [] -> gadget_group op = 1 \/ gadget_group op = 2 ->
  m st = (Raise (IndexError "list index out of range"), st).
Proof.
  intros Hm Ha Hq.
  destruct op; cbn in Hm, Hq |- *; try discriminate; injection Hm as <-;
    apply bind_raise, check_gadget_no_register; assumption.
Qed.

(** C4, at the failing input. With no ancillas allocated ([BellCircuit(0, 0)]),
    each of the four gadgets called for group 1 raises the [IndexError] of the
    list lookup [self.anc_qubit[0]] ("list index out of range") instead of the
    descriptive error of its own check; the builder is left as it was. *)
Theorem gadgets_without_ancillas_raise_IndexError :
  exists st, BellCircuit_init 0 0 = Return st /\
    add_zero_bf_corr 1 true st = (Raise (IndexError "list index out of range"), st) /\
    add_x_pf_corr 1 true st = (Raise (IndexError "list index out of range"), st) /\
    add_zero_bf_corr_with_repetition 1 true st
    = (Raise (IndexError "list index out of range"), st) /\
    add_x_pf_corr_with_repetition 1 true st
    = (Raise (IndexError "list index out of range"), st).
Proof. eexists. split; [reflexivity|]. repeat split. Qed.

(** In the same builder [add_error] does report the missing ancillas: its
    check asks for [len(self.anc_qubit)] before it indexes the list. *)
Lemma add_error_without_ancillas_is_reported :
  add_error (1, 1) "x" bell_0_0
  = (Raise (ValueError (msg_out_of_index 1 0 1)), bell_0_0).
Proof. vm_compute. reflexivity. Qed.

(** ** One combination *)


Section OneCombination.

Context {G OsRandom : Type} (execute : QuantumCircuit -> Counts).

(** [run_one_combination] raises what the assembly raises, in the world as
    it was; otherwise it hands the assembled circuit to the backend, once,
    and returns the backend's counts with the key. *)
Lemma run_one_combination_run (n : Z) (ct : string) (errors : list Error)
    (w : World G OsRandom) :
  run_one_combination execute n ct errors w =
  match assemble n ct errors with
  | Return (key, qc) =>
      (Return (execute qc, key),
       mkWorld (random_state w) (os_random w) (backend_log w ++ [qc]))
  | Raise e => (Raise e, w)
  end.
Proof.
  unfold run_one_combination, assemble.
  unfold mbind, M_mbind, M_bind, outcome_mbind, outcome_bind, eval.
  destruct (BellCircuit_init n n) as [qc|e]; [|reflexivity].
  destruct (py_index errors 0) as [e0|e]; [|reflexivity].
  destruct (py_index errors 1) as [e1|e]; [|reflexivity].
  destruct (String.eqb ct "simple").
  { destruct (call _ qc) as [r|e]; reflexivity. }
  destruct (String.eqb ct "repetition_simple").
  { destruct (call _ qc) as [r|e]; reflexivity. }
  destruct (String.eqb ct "shor").
  { destruct (call _ qc) as [r|e]; reflexivity. }
  destruct (call _ qc) as [r|e]; reflexivity.
Qed.

End OneCombination.

Lemma py_index_0 {A} (x : A) (l : list A) : py_index (x :: l) 0 = Return x.
Proof. apply py_index_in_range; [lia | reflexivity]. Qed.

Lemma py_index_1 {A} (x y : A) (l : list A) : py_index (x :: y :: l) 1 = Return y.
Proof. apply py_index_in_range; [lia | reflexivity]. Qed.




(** ** Unrecognised correction types *)


Lemma get_circuit_to_print_no_correction (n : Z) :
  0 <= n ->
  get_circuit_to_print n "no_correction" =
  Return (mkCircuit (mkQReg 2 "qubit" ::
                     (if n =? 0 then [] else [mkQReg n "anc_qb1"; mkQReg n "anc_qb2"]))
                    [mkCReg 2 "c"] no_correction_diagram).
Proof.
  intros Hn. unfold get_circuit_to_print.
  destruct (Z.eqb_spec n 0) as [->|Hnz].
  - reflexivity.
  - rewrite BellCircuit_init_some by lia. reflexivity.
Qed.

(** ** Loops *)

Lemma for_loop_app {S X A} (body : X -> A -> M S A) (l1 l2 : list X) (acc : A) (s : S) :
  for_loop (l1 ++ l2) body acc s =
  match for_loop l1 body acc s with
  | (Return acc', s') => for_loop l2 body acc' s'
  | (Raise e, s') => (Raise e, s')
  end.
Proof.
  revert acc s. induction l1 as [|x l1 IH]; intros acc s; [reflexivity|].
  cbn [app for_loop]. unfold mbind, M_mbind, M_bind.
  destruct (body x acc s) as [[acc'|e] s']; [apply IH | reflexivity].
Qed.

Lemma for_loop_ext {S X A} (body1 body2 : X -> A -> M S A) (xs : list X) :
  (forall x acc s, body1 x acc s = body2 x acc s) ->
  forall acc s, for_loop xs body1 acc s = for_loop xs body2 acc s.
Proof.
  intros Hext. induction xs as [|x xs IH]; intros acc s; [reflexivity|].
  cbn [for_loop]. unfold mbind, M_mbind, M_bind. rewrite Hext.
  destruct (body2 x acc s) as [[acc'|e] s']; [apply IH | reflexivity].
Qed.

(** Nested loops are one loop over the combined sequence. *)
Lemma for_loop_bind {S X Y A} (f : X -> list Y) (body : Y -> A -> M S A) (xs : list X) :
  forall acc s,
    for_loop xs (fun x acc => for_loop (f x) body acc) acc s
    = for_loop (xs ≫= f) body acc s.
Proof.
  induction xs as [|x xs IH]; intros acc s; [reflexivity|].
  cbn [for_loop mbind list_bind]. rewrite for_loop_app.
  unfold mbind at 1. unfold M_mbind, M_bind.
  destruct (for_loop (f x) body acc s) as [[acc'|e] s']; [apply IH | reflexivity].
Qed.

Lemma for_loop_singleton {S X A} (body : X -> A -> M S A) (x : X) (acc : A) (s : S) :
  for_loop [x] body acc s = body x acc s.
Proof.
  cbn [for_loop]. unfold mbind, M_mbind, M_bind.
  destruct (body x acc s) as [[acc'|e] s']; reflexivity.
Qed.

(** An invariant of the variables and the state, indexed by the elements
    already visited, holds when the loop returns. *)
Lemma for_loop_inv {S X A} (I : list X -> A -> S -> Prop) (body : X -> A -> M S A) :
  (forall done x acc s acc' s',
     I done acc s -> body x acc s = (Return acc', s') -> I (done ++ [x]) acc' s') ->
  forall xs done acc s acc' s',
    I done acc s ->
    for_loop xs body acc s = (Return acc', s') ->
    I (done ++ xs) acc' s'.
Proof.
  intros Hstep. induction xs as [|x xs IH]; intros done acc s acc' s' HI Hrun.
  - cbn in Hrun. injection Hrun as <- <-. rewrite app_nil_r. exact HI.
  - cbn [for_loop] in Hrun. unfold mbind, M_mbind, M_bind in Hrun.
    destruct (body x acc s) as [[acc1|e] s1] eqn:Hbody; [|discriminate].
    replace (done ++ x :: xs) with ((done ++ [x]) ++ xs)
      by (rewrite <- app_assoc; reflexivity).
    eapply IH; [|exact Hrun]. eapply Hstep; eassumption.
Qed.

(** ** Dictionaries *)

Lemma dict_get_None {V} (d : dict V) (k : string) :
  dict_get d k = None <-> k ∉ (fst <$> d).
Proof.
  induction d as [|[k' v] d IH]; cbn.
  - split; [intros _; apply not_elem_of_nil | reflexivity].
  - rewrite not_elem_of_cons. destruct (String.eqb_spec k k') as [->|Hne].
    + split; [discriminate | intros [H _]; congruence].
    + rewrite IH. tauto.
Qed.

Lemma dict_mem_true {V} (d : dict V) (k : string) :
  dict_mem d k = true <-> k ∈ (fst <$> d).
Proof.
  unfold dict_mem. destruct (dict_get d k) eqn:E.
  - split; [intros _ | reflexivity].
    destruct (decide (k ∈ fst <$> d)) as [H|H]; [exact H|].
    apply dict_get_None in H. congruence.
  - apply dict_get_None in E. split; [discriminate | tauto].
Qed.

(** A new key goes last. *)
Lemma dict_set_new {V} (d : dict V) (k : string) (v : V) :
  dict_mem d k = false -> dict_set d k v = d ++ [(k, v)].
Proof.
  unfold dict_mem. induction d as [|[k' v'] d IH]; cbn; [reflexivity|].
  destruct (String.eqb k k'); [discriminate|].
  intros H. rewrite IH by exact H. reflexivity.
Qed.

Lemma total_counts_snoc (cs : list Counts) (c : Counts) :
  total_counts (cs ++ [c]) = add_counts (total_counts cs) c.
Proof. unfold total_counts. rewrite fold_left_app. reflexivity. Qed.

Lemma length_list_bind_const {X Y} (f : X -> list Y) (k : nat) (xs : list X) :
  (forall x, length (f x) = k) -> length (xs ≫= f) = (length xs * k)%nat.
Proof.
  intros Hf. induction xs as [|x xs IH]; [reflexivity|].
  unfold mbind in *. cbn [list_bind length]. rewrite length_app, Hf, IH. lia.
Qed.

Lemma length_py_range (n : Z) : length (py_range n) = Z.to_nat n.
Proof. unfold py_range. rewrite length_map, length_seq. reflexivity. Qed.

(** The exhaustive enumeration has 9 (n + 1)^2 configurations. *)
Lemma length_configurations (n : Z) :
  length (configurations n) = (9 * (Z.to_nat (n + 1) * Z.to_nat (n + 1)))%nat.
Proof.
  unfold configurations.
  rewrite (length_list_bind_const _ (Z.to_nat (n + 1) * 9)), length_py_range; [lia|].
  intros g1. rewrite (length_list_bind_const _ 9), length_py_range; [lia|].
  intros g2. reflexivity.
Qed.

(** ** The exhaustive run *)


Lemma assemble_key (n : Z) (ct : string) (cfg : Z * Z * string * string)
    (key : string) (qc : QuantumCircuit) :
  assemble n ct (config_errors cfg) = Return (key, qc) -> key = canonical_key ct cfg.
Proof.
  destruct cfg as [[[g1 g2] e1] e2]. unfold assemble, canonical_key, config_errors.
  rewrite py_index_0, py_index_1.
  unfold mbind, outcome_mbind, outcome_bind.
  destruct (BellCircuit_init n n) as [st|e]; [|discriminate].
  destruct (String.eqb ct "simple").
  { destruct (call _ st); [|discriminate]. intros [= <- _]. reflexivity. }
  destruct (String.eqb ct "repetition_simple").
  { destruct (call _ st); [|discriminate]. intros [= <- _]. reflexivity. }
  destruct (String.eqb ct "shor").
  { destruct (call _ st); [|discriminate]. intros [= <- _]. reflexivity. }
  destruct (call _ st); [|discriminate]. intros [= <- _]. reflexivity.
Qed.

Section Exhaustive.

Context {G OsRandom : Type} (execute : QuantumCircuit -> Counts).
Variables (n : Z) (ct : string).


(** The four nested loops are one loop over [configurations]. *)
Lemma run_all_combinations_flat (w : World G OsRandom) :
  run_all_combinations execute n ct w
  = for_loop (configurations n) (all_body execute n ct) ([], []) w.
Proof.
  unfold run_all_combinations, configurations.
  rewrite <- for_loop_bind. apply for_loop_ext. intros g1 acc1 w1.
  rewrite <- for_loop_bind. apply for_loop_ext. intros g2 acc2 w2.
  rewrite <- for_loop_bind. apply for_loop_ext. intros e1 acc3 w3.
  rewrite <- for_loop_bind. apply for_loop_ext. intros e2 acc4 w4.
  rewrite for_loop_singleton. reflexivity.
Qed.

(** One configuration: the circuit goes to the backend in every case, and
    the counts are kept only when the key is new. *)
Lemma all_body_run (cfg : Z * Z * string * string) (all_counts : Counts)
    (err_to_counts : dict Counts) (w : World G OsRandom) :
  all_body execute n ct cfg (all_counts, err_to_counts) w =
  match assemble n ct (config_errors cfg) with
  | Return (key, qc) =>
      (Return (if dict_mem err_to_counts key
               then (all_counts, err_to_counts)
               else (add_counts all_counts (execute qc),
                     dict_set err_to_counts key (execute qc))),
       mkWorld (random_state w) (os_random w) (backend_log w ++ [qc]))
  | Raise e => (Raise e, w)
  end.
Proof.
  destruct cfg as [[[g1 g2] e1] e2]. unfold all_body, all_step.
  unfold mbind, M_mbind, M_bind. rewrite run_one_combination_run.
  cbn [config_errors].
  destruct (assemble n ct _) as [[key qc]|e]; [|reflexivity].
  destruct (dict_mem err_to_counts key); reflexivity.
Qed.


Lemma exhaustive_inv_step (w0 : World G OsRandom) done cfg acc w acc' w' :
  exhaustive_inv execute n ct w0 done acc w ->
  all_body execute n ct cfg acc w = (Return acc', w') ->
  exhaustive_inv execute n ct w0 (done ++ [cfg]) acc' w'.
Proof.
  destruct acc as [ac etc]. intros (Hlog & Hnd & Hkeys & Hvals & Htot) Hrun.
  cbn [fst snd] in *. rewrite all_body_run in Hrun.
  destruct (assemble n ct (config_errors cfg)) as [[key qc]|e] eqn:Hasm; [|discriminate].
  pose proof (assemble_key _ _ _ _ _ Hasm) as Hkey.
  injection Hrun as <- <-. unfold exhaustive_inv. cbn [backend_log].
  split.
  { destruct Hlog as (runs & -> & Hall). exists (runs ++ [qc]).
    split; [rewrite app_assoc; reflexivity|].
    apply Forall2_app; [exact Hall|]. constructor; [|constructor]. eauto. }
  destruct (dict_mem etc key) eqn:Hmem; cbn [fst snd].
  - apply dict_mem_true in Hmem.
    split; [exact Hnd|]. split; [|split; [|exact Htot]].
    + intros k. rewrite Hkeys. split.
      * intros (c & Hc & <-). exists c. split; [|reflexivity].
        apply elem_of_app. left. exact Hc.
      * intros (c & Hc & <-). apply elem_of_app in Hc as [Hc|Hc]; [eauto|].
        apply list_elem_of_singleton in Hc as ->. apply Hkeys. rewrite <- Hkey. exact Hmem.
    + intros k c Hkc. destruct (Hvals k c Hkc) as (cfg0 & qc0 & H0 & H1 & H2).
      exists cfg0, qc0. split; [apply elem_of_app; left; exact H0 | auto].
  - rewrite (dict_set_new _ _ _ Hmem).
    assert (Hnew : key ∉ (fst <$> etc)).
    { intros Hin. apply dict_mem_true in Hin. congruence. }
    rewrite !fmap_app. cbn [fmap list_fmap fst snd].
    split; [|split; [|split]].
    + apply NoDup_app. split; [exact Hnd|]. split; [|apply NoDup_singleton].
      intros k Hk Hk'. apply list_elem_of_singleton in Hk' as ->. exact (Hnew Hk).
    + intros k. rewrite elem_of_app, Hkeys, list_elem_of_singleton. split.
      * intros [(c & Hc & <-) | ->].
        -- exists c. split; [apply elem_of_app; left; exact Hc | reflexivity].
        -- exists cfg. split; [apply elem_of_app; right; constructor | auto].
      * intros (c & Hc & <-). apply elem_of_app in Hc as [Hc|Hc]; [left; eauto|].
        apply list_elem_of_singleton in Hc as ->. right. auto.
    + intros k c Hkc. apply elem_of_app in Hkc as [Hkc|Hkc].
      * destruct (Hvals k c Hkc) as (cfg0 & qc0 & H0 & H1 & H2).
        exists cfg0, qc0. split; [apply elem_of_app; left; exact H0 | auto].
      * apply list_elem_of_singleton in Hkc. injection Hkc as -> ->.
        exists cfg, qc. split; [apply elem_of_app; right; constructor | auto].
    + rewrite total_counts_snoc, Htot. reflexivity.
Qed.

End Exhaustive.

(** C1, as stated, fails: a configuration whose key was already seen is run
    again, only its counts are dropped.  For the simple scheme with one
    ancilla the backend is called for each of the 36 raw configurations,
    although they share 9 keys. *)
Lemma exhaustive_run_reruns_seen_keys :
  exists all_counts err_to_counts w',
    run_all_combinations execute_zero 1 "simple" world0
    = (Return (all_counts, err_to_counts), w') /\
    length err_to_counts = 9%nat /\
    length (backend_log w') = 36%nat /\
    ~ (length (backend_log w') <= length err_to_counts)%nat.
Proof.
  eexists _, _, _. split; [vm_compute; reflexivity|].
  cbn [backend_log length]. repeat split. lia.
Qed.

(** C1, amended. When the exhaustive run returns, every configuration of the
    enumeration has been assembled and handed to the backend exactly once, in
    order, 9 (n + 1)^2 calls in all, whether its key had been seen or not;
    the keys of [err_to_counts] are the keys of the configurations, each
    once; the counts kept under a key are those of a run with that key; and
    [all_counts] is the sum of the counts kept, so each key is counted
    once. *)
Theorem exhaustive_run_counts_each_key_once {G OsRandom : Type}
    (execute : QuantumCircuit -> Counts) (n : Z) (ct : string)
    (w w' : World G OsRandom) (all_counts : Counts) (err_to_counts : dict Counts) :
  run_all_combinations execute n ct w = (Return (all_counts, err_to_counts), w') ->
  (exists runs,
      backend_log w' = backend_log w ++ runs /\
      Forall2 (fun cfg qc => exists key, assemble n ct (config_errors cfg) = Return (key, qc))
              (configurations n) runs /\
      length runs = (9 * (Z.to_nat (n + 1) * Z.to_nat (n + 1)))%nat) /\
  NoDup (fst <$> err_to_counts) /\
  (forall k, k ∈ (fst <$> err_to_counts) <->
             exists cfg, cfg ∈ configurations n /\ canonical_key ct cfg = k) /\
  (forall k c, (k, c) ∈ err_to_counts ->
     exists cfg qc, cfg ∈ configurations n /\
                    assemble n ct (config_errors cfg) = Return (k, qc) /\
                    c = execute qc) /\
  all_counts = total_counts (snd <$> err_to_counts).
Proof.
  intros Hrun. rewrite run_all_combinations_flat in Hrun.
  assert (Hinit : exhaustive_inv execute n ct w [] ([], []) w).
  { split; [exists []; split; [rewrite app_nil_r; reflexivity | constructor]|].
    cbn. split; [constructor|]. split; [|split; [|reflexivity]].
    - intros k. split; [intros H; inversion H|].
      intros (cfg & H & _). inversion H.
    - intros k c H. inversion H. }
  pose proof (for_loop_inv (exhaustive_inv execute n ct w) (all_body execute n ct)
                (exhaustive_inv_step execute n ct w)
                (configurations n) [] _ _ _ _ Hinit Hrun) as Hinv.
  cbn [app] in Hinv. destruct Hinv as ((runs & Hlog & Hall) & Hrest).
  split; [|exact Hrest].
  exists runs. split; [exact Hlog|]. split; [exact Hall|].
  rewrite <- (Forall2_length _ _ _ Hall). apply length_configurations.
Qed.

Lemma exhaustive_run_counts_each_key_once_witness :
  exists all_counts err_to_counts w',
    run_all_combinations execute_zero 1 "simple" world0
    = (Return (all_counts, err_to_counts), w') /\
    NoDup (fst <$> err_to_counts) /\
    all_counts = total_counts (snd <$> err_to_counts).
Proof.
  eexists _, _, _. split; [vm_compute; reflexivity|].
  edestruct (exhaustive_run_counts_each_key_once execute_zero 1 "simple" world0)
    as (_ & Hnd & _ & _ & Htot); [vm_compute; reflexivity|].
  split; [exact Hnd | exact Htot].
Defined.

(** ** The random run *)

Section Random.

Context {G SeedValue Weight OsRandom : Type}.
Context (execute : QuantumCircuit -> Counts).
Context (seed_state : SeedValue -> G) (os_seed : OsRandom -> G * OsRandom).
Context (randint : Z -> Z -> G -> outcome Z * G).
Context (choices : list string -> option (list Weight) -> G -> outcome (list string) * G).

Local Abbreviation driven := (generator_driven (G:=G) (OsRandom:=OsRandom)).


Lemma generator_driven_eval {A} (o : outcome A) :
  driven (eval o).
Proof.
  intros g. exists o, [], g. intros [g0 os log] <-. cbn. rewrite app_nil_r. reflexivity.
Qed.

Lemma generator_driven_ret {A} (a : A) :
  driven (mret a).
Proof. exact (generator_driven_eval (Return a)). Qed.

Lemma generator_driven_bind {A B} (m : M (World G OsRandom) A)
    (f : A -> M (World G OsRandom) B) :
  driven m -> (forall a, driven (f a)) ->
  driven (m ≫= f).
Proof.
  intros Hm Hf g. destruct (Hm g) as (o & runs & g' & Hrun).
  destruct o as [a|e].
  - destruct (Hf a g') as (o2 & runs2 & g2 & Hrun2).
    exists o2, (runs ++ runs2), g2. intros w Hw.
    unfold mbind, M_mbind, M_bind. rewrite (Hrun w Hw).
    rewrite Hrun2 by reflexivity. cbn. rewrite app_assoc. reflexivity.
  - exists (Raise e), runs, g'. intros w Hw.
    unfold mbind, M_mbind, M_bind. rewrite (Hrun w Hw). reflexivity.
Qed.

Lemma generator_driven_randint (a b : Z) : driven (random_randint randint a b).
Proof.
  intros g. destruct (randint a b g) as [o g'] eqn:E.
  exists o, [], g'. intros [g0 os log] Hw. cbn in Hw. subst g0.
  unfold random_randint. cbn. rewrite E, app_nil_r. reflexivity.
Qed.

Lemma generator_driven_choices (population : list string) (weights : option (list Weight)) :
  driven (random_choices choices population weights).
Proof.
  intros g. destruct (choices population weights g) as [o g'] eqn:E.
  exists o, [], g'. intros [g0 os log] Hw. cbn in Hw. subst g0.
  unfold random_choices. cbn. rewrite E, app_nil_r. reflexivity.
Qed.

Lemma generator_driven_run_one_combination (n : Z) (ct : string) (errors : list Error) :
  driven (run_one_combination execute n ct errors).
Proof.
  intros g. destruct (assemble n ct errors) as [[key qc]|e] eqn:E.
  - exists (Return (execute qc, key)), [qc], g. intros w <-.
    rewrite run_one_combination_run, E. reflexivity.
  - exists (Raise e), [], g. intros [g0 os log] <-.
    rewrite run_one_combination_run, E. cbn. rewrite app_nil_r. reflexivity.
Qed.

Lemma generator_driven_random_step (n : Z) (ct : string)
    (probabilities : option (list Weight)) (acc : Totals) :
  driven (random_step execute randint choices n ct probabilities acc).
Proof.
  unfold random_step. destruct acc as [all_counts err_to_counts].
  repeat (apply generator_driven_bind;
          [first [ apply generator_driven_randint
                 | apply generator_driven_choices
                 | apply generator_driven_eval
                 | apply generator_driven_run_one_combination ]
          | intros ? ]).
  match goal with p : (Counts * string)%type |- _ => destruct p as [counts error] end.
  destruct (dict_get err_to_counts error); apply generator_driven_ret.
Qed.

Lemma generator_driven_for_loop {X A} (body : X -> A -> M (World G OsRandom) A)
    (xs : list X) :
  (forall x acc, driven (body x acc)) ->
  forall acc, driven (for_loop xs body acc).
Proof.
  intros Hbody. induction xs as [|x xs IH]; intros acc; cbn [for_loop].
  - apply generator_driven_ret.
  - apply generator_driven_bind; [apply Hbody | exact IH].
Qed.

(** After [random.seed(s)] with a supplied seed, the whole run is decided
    by its arguments. *)
Lemma run_random_errors_decided (n : Z) (ct : string) (iterations : Z)
    (probabilities : option (list Weight)) (s : SeedValue) :
  exists result runs g',
    forall w,
      run_random_errors execute seed_state os_seed randint choices
                        n ct iterations probabilities (Some s) w
      = (result, mkWorld g' (os_random w) (backend_log w ++ runs)).
Proof.
  destruct (generator_driven_for_loop
              (fun _ acc => random_step execute randint choices n ct probabilities acc)
              (py_range iterations)
              (fun _ acc => generator_driven_random_step n ct probabilities acc)
              ([], []) (seed_state s)) as (o & runs & g' & Hrun).
  exists o, runs, g'. intros w.
  unfold run_random_errors, mbind, M_mbind, M_bind. cbn [random_seed].
  rewrite Hrun by reflexivity. reflexivity.
Qed.

End Random.

(** C6. Two runs of [run_random_errors] with the same supplied seed, the same
    number of iterations and the same weights (and the same number of
    ancillas and correction type) have the same outcome, whatever the two
    worlds they start from: the same [all_counts] and [err_to_counts], item
    for item and in the same order, or the same exception.  They hand the
    same circuits, built from the same sampled configurations, to the backend
    in the same order, and leave the generator in the same state.  The backend
    is a function of the circuit; the seed is a value, not [None]. *)
Theorem run_random_errors_reproducible {G SeedValue Weight OsRandom : Type}
    (execute : QuantumCircuit -> Counts)
    (seed_state : SeedValue -> G) (os_seed : OsRandom -> G * OsRandom)
    (randint : Z -> Z -> G -> outcome Z * G)
    (choices : list string -> option (list Weight) -> G -> outcome (list string) * G)
    (n : Z) (ct : string) (iterations : Z) (probabilities : option (list Weight))
    (seed : SeedValue) (w1 w2 : World G OsRandom) :
  let run := run_random_errors execute seed_state os_seed randint choices
                               n ct iterations probabilities (Some seed) in
  fst (run w1) = fst (run w2) /\
  random_state (snd (run w1)) = random_state (snd (run w2)) /\
  exists runs, backend_log (snd (run w1)) = backend_log w1 ++ runs /\
               backend_log (snd (run w2)) = backend_log w2 ++ runs.
Proof.
  intros run.
  destruct (run_random_errors_decided execute seed_state os_seed randint choices
              n ct iterations probabilities seed) as (result & runs & g' & Hrun).
  subst run. rewrite (Hrun w1), (Hrun w2). cbn.
  split; [reflexivity|]. split; [reflexivity|]. exists runs. split; reflexivity.
Qed.

(** * Further properties *)

(** ** The current circuit only grows *)

Lemma same_registers_refl (st : State) : same_registers st st.
Proof. repeat split. Qed.

Lemma same_registers_trans (st1 st2 st3 : State) :
  same_registers st1 st2 -> same_registers st2 st3 -> same_registers st1 st3.
Proof. unfold same_registers. intros (?&?&?) (?&?&?). repeat split; congruence. Qed.

Lemma grows_refl (st : State) : well_formed st -> grows st st.
Proof.
  intros Hwf. split; [exact Hwf|]. split; [apply same_registers_refl|].
  exists []. split; [symmetry; apply append_data_nil | constructor].
Qed.

Lemma grows_trans (st1 st2 st3 : State) : grows st1 st2 -> grows st2 st3 -> grows st1 st3.
Proof.
  intros (_ & Hr12 & ins1 & H1 & F1) (Hwf & Hr23 & ins2 & H2 & F2).
  split; [exact Hwf|]. split; [eapply same_registers_trans; eassumption|].
  exists (ins1 ++ ins2). split; [|apply Forall_app; split; assumption].
  rewrite H2, H1. apply append_data_app.
Qed.

(** Appending to any object of the store: the current circuit gains the
    instructions when the object is the current one and is as it was
    otherwise. *)
Lemma grows_emit (c : ref) (ins : list Instruction) (st : State) :
  well_formed st -> Forall (fun i => is_measure i = false) ins ->
  grows st (mkState (self st) (alter (append_data ins) c (objects st))).
Proof.
  intros Hwf Hins. unfold grows, well_formed, current, deref in *. cbn [self objects].
  split; [rewrite length_alter; exact Hwf|]. split; [repeat split|].
  destruct (decide (c = circuit (self st))) as [->|Hne].
  - exists ins. split; [|exact Hins]. apply list_lookup_total_alter_eq. exact Hwf.
  - exists []. split; [|constructor].
    rewrite list_lookup_total_alter_ne by exact Hne. symmetry. apply append_data_nil.
Qed.

(** A new object at the end of the store changes nothing for the builder. *)
Lemma grows_alloc (qc : QuantumCircuit) (st : State) :
  well_formed st -> grows st (mkState (self st) (objects st ++ [qc])).
Proof.
  intros Hwf. unfold grows, well_formed, current, deref in *. cbn [self objects].
  split; [rewrite length_app; lia|]. split; [repeat split|].
  exists []. split; [|constructor].
  rewrite lookup_total_app_l by exact Hwf. symmetry. apply append_data_nil.
Qed.

Lemma keeps_growing_bind {A B} (m : M State A) (f : A -> M State B) :
  keeps_growing m -> (forall a, keeps_growing (f a)) -> keeps_growing (m ≫= f).
Proof.
  intros Hm Hf st Hwf. specialize (Hm st Hwf).
  unfold mbind, M_mbind, M_bind. destruct (m st) as [[a|e] s1]; cbn [snd] in *.
  - eapply grows_trans; [exact Hm|]. apply Hf. apply Hm.
  - exact Hm.
Qed.

Lemma keeps_growing_eval {A} (o : outcome A) : keeps_growing (eval o : M State A).
Proof. intros st Hwf. apply grows_refl, Hwf. Qed.

Lemma keeps_growing_ret {A} (a : A) : keeps_growing (mret a : M State A).
Proof. intros st Hwf. apply grows_refl, Hwf. Qed.

Lemma keeps_growing_raise {A} (e : exn) : keeps_growing (raise e : M State A).
Proof. intros st Hwf. apply grows_refl, Hwf. Qed.

Lemma keeps_growing_get_self : keeps_growing get_self.
Proof. intros st Hwf. apply grows_refl, Hwf. Qed.

Lemma keeps_growing_emit (c : ref) (ins : list Instruction) :
  Forall (fun i => is_measure i = false) ins -> keeps_growing (emit c ins).
Proof. intros Hins st Hwf. apply grows_emit; assumption. Qed.

Lemma keeps_growing_qc_copy (c : ref) : keeps_growing (qc_copy c).
Proof. intros st Hwf. apply grows_alloc, Hwf. Qed.

Lemma keeps_growing_when (b : bool) (m : M State unit) :
  keeps_growing m -> keeps_growing (when_ b m).
Proof. intros Hm. destruct b; [exact Hm | apply keeps_growing_ret]. Qed.

Lemma keeps_growing_if {A} (b : bool) (m1 m2 : M State A) :
  keeps_growing m1 -> keeps_growing m2 -> keeps_growing (if b then m1 else m2).
Proof. destruct b; auto. Qed.

Lemma keeps_growing_for {X} (xs : list X) (body : X -> M State unit) :
  (forall x, keeps_growing (body x)) -> keeps_growing (for_ xs body).
Proof.
  intros Hbody. induction xs as [|x xs IH]; cbn [for_].
  - apply keeps_growing_ret.
  - apply keeps_growing_bind; [apply Hbody | intros _; exact IH].
Qed.

Lemma no_measure_map_H (qs : list Qubit) :
  Forall (fun i => is_measure i = false) (map HGate qs).
Proof. induction qs; constructor; [reflexivity | assumption]. Qed.

Lemma no_measure_map_CX (c : Qubit) (qs : list Qubit) :
  Forall (fun i => is_measure i = false) (map (CXGate c) qs).
Proof. induction qs; constructor; [reflexivity | assumption]. Qed.

(** The structure of a method decides the rule. *)
Ltac growing :=
  repeat first
    [ apply keeps_growing_bind; [|intros ?]
    | apply keeps_growing_eval
    | apply keeps_growing_ret
    | apply keeps_growing_raise
    | apply keeps_growing_get_self
    | apply keeps_growing_qc_copy
    | apply keeps_growing_when
    | apply keeps_growing_if
    | apply keeps_growing_emit;
      first [ apply no_measure_map_H | apply no_measure_map_CX
            | repeat constructor ]
    | progress unfold self_circuit, self_qubit, self_anc, self_anc_qubit,
        qc_h, qc_x, qc_z, qc_cx, qc_ccx, qc_barrier, qc_append, check_gadget,
        check_both, superpose, inject_symbolic_1, inject_symbolic_all,
        add_error_gate, index_out_of_range ].

Lemma keeps_growing_add_error (qubit : Z * Z) (gate : string) :
  keeps_growing (add_error qubit gate).
Proof. unfold add_error. growing. Qed.

Lemma keeps_growing_inject (errors : list Error) : keeps_growing (inject errors).
Proof.
  unfold inject. apply keeps_growing_bind.
  - apply keeps_growing_for. intros x. apply keeps_growing_add_error.
  - intros _. growing.
Qed.

Lemma keeps_growing_prepare_repetition (q : Qubit) (r : QuantumRegister) :
  keeps_growing (_prepare_repetition q r).
Proof. unfold _prepare_repetition. growing. Qed.

Lemma keeps_growing_add_shor_correction (q : Qubit) (r : QuantumRegister) :
  keeps_growing (_add_shor_correction q r).
Proof. unfold _add_shor_correction. growing. Qed.

(** The snapshot operations: whatever the flag, the builder grows by the gates
    of the gadget or stays as it was. *)
Lemma grows_moved (ins : list Instruction) (st : State) :
  well_formed st -> Forall (fun i => is_measure i = false) ins ->
  grows st (mkState (mkBell (qubits (self st)) (anc_qubit (self st)) (cbits (self st))
                            (length (objects st)))
                    (objects st ++ [append_data ins (current st)])).
Proof.
  intros Hwf Hins. unfold grows, well_formed, current, deref. cbn [self objects circuit].
  split; [rewrite length_app; cbn; lia|]. split; [repeat split|].
  exists ins. split; [|exact Hins].
  rewrite lookup_total_app_r by lia. rewrite Nat.sub_diag. reflexivity.
Qed.

Ltac grows_done :=
  lazymatch goal with
  | Hwf : well_formed ?st |- grows ?st ?st => apply grows_refl; exact Hwf
  | Hwf : well_formed ?st |- grows ?st (mkState (self ?st) _) =>
      rewrite ?alter_newest, ?append_data_app; apply grows_alloc; exact Hwf
  | Hwf : well_formed ?st |- grows ?st (mkState (mkBell _ _ _ _) _) =>
      rewrite ?alter_newest, ?append_data_app;
      apply (grows_moved _ st Hwf); cbn [map app]; repeat constructor
  end.

Lemma keeps_growing_add_zero_bf_corr (qubit : Z) (flag : bool) :
  keeps_growing (add_zero_bf_corr qubit flag).
Proof.
  intros st Hwf. change (wp (add_zero_bf_corr qubit flag) st (fun _ st' => grows st st')).
  unfold add_zero_bf_corr. wp_steps; grows_done.
Qed.

Lemma keeps_growing_add_x_pf_corr (qubit : Z) (flag : bool) :
  keeps_growing (add_x_pf_corr qubit flag).
Proof.
  intros st Hwf. change (wp (add_x_pf_corr qubit flag) st (fun _ st' => grows st st')).
  unfold add_x_pf_corr. wp_steps; grows_done.
Qed.

Lemma keeps_growing_add_zero_bf_corr_with_repetition (qubit : Z) (flag : bool) :
  keeps_growing (add_zero_bf_corr_with_repetition qubit flag).
Proof.
  intros st Hwf.
  change (wp (add_zero_bf_corr_with_repetition qubit flag) st (fun _ st' => grows st st')).
  unfold add_zero_bf_corr_with_repetition. wp_steps; grows_done.
Qed.

Lemma keeps_growing_add_x_pf_corr_with_repetition (qubit : Z) (flag : bool) :
  keeps_growing (add_x_pf_corr_with_repetition qubit flag).
Proof.
  intros st Hwf.
  change (wp (add_x_pf_corr_with_repetition qubit flag) st (fun _ st' => grows st st')).
  unfold add_x_pf_corr_with_repetition. wp_steps; grows_done.
Qed.

(** ** The measurement comes last, once *)

Lemma add_measurement_in_place (st : State) :
  qubits (self st) = mkQReg 2 "qubit" -> cbits (self st) = mkCReg 2 "c" ->
  add_measurement true st =
  (Return (length (objects st)),
   mkState (mkBell (qubits (self st)) (anc_qubit (self st)) (cbits (self st))
                   (length (objects st)))
           (objects st ++ [append_data measurement (current st)])).
Proof.
  destruct st as [[q a c r] objs]. cbn [self qubits cbits]. intros -> ->.
  apply wp_run. unfold add_measurement. wp_steps.
  rewrite !alter_newest, !append_data_app. reflexivity.
Qed.

Lemma entangle_and_measure_run (st : State) :
  qubits (self st) = mkQReg 2 "qubit" -> cbits (self st) = mkCReg 2 "c" ->
  entangle_and_measure st =
  (Return tt,
   mkState (mkBell (qubits (self st)) (anc_qubit (self st)) (cbits (self st))
                   (length (objects (entangled st))))
           (objects (entangled st) ++ [append_data measurement (current (entangled st))])).
Proof.
  destruct st as [[q a c r] objs]. cbn [self qubits cbits]. intros -> ->.
  apply wp_run. unfold entangle_and_measure.
  wp_steps.
  eapply wp_of_run; [apply add_measurement_in_place; reflexivity|].
  wp_steps. reflexivity.
Qed.

Lemma ends_measured_entangle_and_measure : ends_measured entangle_and_measure.
Proof.
  intros st st' Hwf Hq Hc Hrun.
  rewrite (entangle_and_measure_run st Hq Hc) in Hrun. injection Hrun as <-.
  unfold well_formed, same_registers, current, deref, entangled in *.
  cbn [self objects circuit qubits anc_qubit cbits].
  split; [rewrite length_app; cbn; lia|]. split; [repeat split|].
  exists []. split; [|constructor].
  rewrite lookup_total_app_r by lia. rewrite Nat.sub_diag. cbn [lookup_total list_lookup_total].
  rewrite list_lookup_total_alter_eq by (rewrite length_alter; exact Hwf).
  rewrite list_lookup_total_alter_eq by exact Hwf.
  rewrite !append_data_app. reflexivity.
Qed.

Lemma ends_measured_bind {A} (m : M State A) (f : A -> M State unit) :
  keeps_growing m -> (forall a, ends_measured (f a)) -> ends_measured (m ≫= f).
Proof.
  intros Hm Hf st st' Hwf Hq Hc Hrun.
  specialize (Hm st Hwf). unfold mbind, M_mbind, M_bind in Hrun.
  destruct (m st) as [[a|e] s1]; [|discriminate]. cbn [snd] in Hm.
  destruct Hm as (Hwf1 & (Hq1 & Ha1 & Hc1) & ins & Hcur1 & Hins).
  destruct (Hf a s1 st' Hwf1) as (Hwf' & Hregs & body & Hcur & Hbody);
    [congruence | congruence | exact Hrun |].
  split; [exact Hwf'|]. split.
  { eapply same_registers_trans; [|exact Hregs]. repeat split; assumption. }
  exists (ins ++ body). split; [|apply Forall_app; split; assumption].
  rewrite Hcur, Hcur1, append_data_app, <- app_assoc. reflexivity.
Qed.

Ltac measured :=
  repeat lazymatch goal with
  | |- ends_measured entangle_and_measure => apply ends_measured_entangle_and_measure
  | |- ends_measured (_ ≫= _) => apply ends_measured_bind; [|intros ?]
  | |- keeps_growing (inject _) => apply keeps_growing_inject
  | |- keeps_growing (add_x_pf_corr _ _) => apply keeps_growing_add_x_pf_corr
  | |- keeps_growing (add_zero_bf_corr _ _) => apply keeps_growing_add_zero_bf_corr
  | |- keeps_growing (add_x_pf_corr_with_repetition _ _) =>
      apply keeps_growing_add_x_pf_corr_with_repetition
  | |- keeps_growing (add_zero_bf_corr_with_repetition _ _) =>
      apply keeps_growing_add_zero_bf_corr_with_repetition
  | |- keeps_growing (_prepare_repetition _ _) => apply keeps_growing_prepare_repetition
  | |- keeps_growing (_add_shor_correction _ _) => apply keeps_growing_add_shor_correction
  | |- keeps_growing _ => solve [growing]
  end.

(** The part of each assembly after the Hadamard gate and its barrier. *)
Lemma ends_measured_no_correction (errors : list Error) (symb_err : bool) :
  ends_measured ((if symb_err then inject_symbolic_1 else inject errors) ;;
                 entangle_and_measure).
Proof. destruct symb_err; measured. Qed.

Lemma ends_measured_simple (errors : list Error) (symb_err : bool) :
  ends_measured ((if symb_err then inject_symbolic_1 else inject errors) ;;
                 add_x_pf_corr 1 true ;;
                 c ← self_circuit; qc_barrier c ;;
                 add_zero_bf_corr 2 true ;;
                 c ← self_circuit; qc_barrier c ;;
                 entangle_and_measure).
Proof. destruct symb_err; measured. Qed.

Lemma ends_measured_repetition (errors : list Error) (symb_err : bool) :
  ends_measured ((if symb_err then inject_symbolic_all 3 else inject errors) ;;
                 add_x_pf_corr_with_repetition 1 true ;;
                 c ← self_circuit; qc_barrier c ;;
                 add_zero_bf_corr_with_repetition 2 true ;;
                 c ← self_circuit; qc_barrier c ;;
                 entangle_and_measure).
Proof. destruct symb_err; measured. Qed.

Lemma ends_measured_shor (errors : list Error) (symb_err : bool) :
  ends_measured (q0 ← self_qubit 0; r0 ← self_anc 0; _prepare_repetition q0 r0 ;;
                 q1 ← self_qubit 1; r1 ← self_anc 1; _prepare_repetition q1 r1 ;;
                 (if symb_err then inject_symbolic_all 9 else inject errors) ;;
                 q0 ← self_qubit 0; r0 ← self_anc 0; _add_shor_correction q0 r0 ;;
                 q1 ← self_qubit 1; r1 ← self_anc 1; _add_shor_correction q1 r1 ;;
                 entangle_and_measure).
Proof. destruct symb_err; measured. Qed.

Lemma check_both_pure (required : Z) (how_many : string) (st : State) :
  snd (check_both required how_many st) = st.
Proof.
  change (wp (check_both required how_many) st (fun _ st' => st' = st)).
  unfold check_both. wp_steps; reflexivity.
Qed.

Lemma pure_check_bind (check rest : M State unit) (st st' : State) :
  snd (check st) = st ->
  (check ;; rest) st = (Return tt, st') -> rest st = (Return tt, st').
Proof.
  unfold mbind, M_mbind, M_bind. destruct (check st) as [[[]|e] s1]; cbn [snd].
  - intros ->. exact (fun H => H).
  - discriminate.
Qed.

Lemma superpose_run (st : State) :
  qubits (self st) = mkQReg 2 "qubit" -> superpose st = (Return tt, superposed st).
Proof.
  destruct st as [[q a c r] objs]. cbn [self qubits]. intros ->.
  apply wp_run. unfold superpose. wp_steps. reflexivity.
Qed.

Lemma current_superposed (st : State) :
  well_formed st ->
  well_formed (superposed st) /\ same_registers st (superposed st) /\
  current (superposed st)
  = append_data [HGate (mkQubit "qubit" 0); Barrier] (current st).
Proof.
  intros Hwf. unfold well_formed, same_registers, current, deref, superposed in *.
  cbn [self objects]. split; [rewrite !length_alter; exact Hwf|]. split; [repeat split|].
  rewrite list_lookup_total_alter_eq by (rewrite length_alter; exact Hwf).
  rewrite list_lookup_total_alter_eq by exact Hwf.
  rewrite append_data_app. reflexivity.
Qed.

(** The Hadamard gate and its barrier first, then a part that ends with the
    measurement: what the builder's current circuit gains has the shape of
    [skeleton]. *)
Lemma skeleton_after_superpose (rest : M State unit) (st st' : State) :
  ends_measured rest ->
  well_formed st ->
  qubits (self st) = mkQReg 2 "qubit" -> cbits (self st) = mkCReg 2 "c" ->
  (superpose ;; rest) st = (Return tt, st') ->
  well_formed st' /\ same_registers st st' /\
  exists ins, skeleton ins /\ current st' = append_data ins (current st).
Proof.
  intros Hrest Hwf Hq Hc Hrun.
  unfold mbind, M_mbind, M_bind in Hrun. rewrite (superpose_run st Hq) in Hrun.
  destruct (current_superposed st Hwf) as (Hwf1 & (Hq1 & Ha1 & Hc1) & Hcur1).
  destruct (Hrest (superposed st) st' Hwf1) as (Hwf' & Hregs & body & Hcur & Hbody);
    [congruence | congruence | exact Hrun |].
  split; [exact Hwf'|]. split.
  { eapply same_registers_trans; [|exact Hregs]. repeat split; assumption. }
  eexists. split; [exists body; split; [reflexivity | exact Hbody]|].
  rewrite Hcur, Hcur1, append_data_app. reflexivity.
Qed.

(** The four assemblies, from any builder with the primary and classical
    registers of the constructor. *)
Lemma create_circuit_skeleton (errors : list Error) (symb_err : bool) (st st' : State) :
  well_formed st ->
  qubits (self st) = mkQReg 2 "qubit" -> cbits (self st) = mkCReg 2 "c" ->
  create_circuit_with_no_correction errors symb_err st = (Return tt, st') \/
  create_circuit_with_simple_correction errors symb_err st = (Return tt, st') \/
  create_circuit_with_simple_repetition errors symb_err st = (Return tt, st') \/
  create_circuit_with_shor_correction errors symb_err st = (Return tt, st') ->
  well_formed st' /\ same_registers st st' /\
  exists ins, skeleton ins /\ current st' = append_data ins (current st).
Proof.
  intros Hwf Hq Hc [Hrun | [Hrun | [Hrun | Hrun]]].
  - eapply skeleton_after_superpose;
      [apply (ends_measured_no_correction errors symb_err) | eassumption ..].
  - apply pure_check_bind in Hrun; [|apply check_both_pure].
    eapply skeleton_after_superpose;
      [apply (ends_measured_simple errors symb_err) | eassumption ..].
  - apply pure_check_bind in Hrun; [|apply check_both_pure].
    eapply skeleton_after_superpose;
      [apply (ends_measured_repetition errors symb_err) | eassumption ..].
  - apply pure_check_bind in Hrun; [|apply check_both_pure].
    eapply skeleton_after_superpose;
      [apply (ends_measured_shor errors symb_err) | eassumption ..].
Qed.

(** A builder fresh from the constructor. *)
Lemma BellCircuit_init_fresh (n1 n2 : Z) (st : State) :
  BellCircuit_init n1 n2 = Return st ->
  well_formed st /\ qubits (self st) = mkQReg 2 "qubit" /\
  cbits (self st) = mkCReg 2 "c" /\ data (current st) = [].
Proof.
  intros Hinit.
  destruct (BellCircuit_init_Return _ _ _ Hinit) as [Hz | [H1 H2]].
  - rewrite (BellCircuit_init_none _ _ Hz) in Hinit. injection Hinit as <-.
    repeat split. unfold well_formed. cbn. lia.
  - rewrite (BellCircuit_init_some _ _ H1 H2) in Hinit. injection Hinit as <-.
    repeat split. unfold well_formed. cbn. lia.
Qed.

Lemma data_append_data (ins : list Instruction) (qc : QuantumCircuit) :
  data (append_data ins qc) = data qc ++ ins.
Proof. reflexivity. Qed.

Lemma call_Return {A} (method : M State A) (qc : State) (r : A * State) :
  call method qc = Return r -> method qc = (Return (fst r), snd r).
Proof.
  unfold call. destruct (method qc) as [[a|e] qc']; [|discriminate].
  intros H. injection H as <-. reflexivity.
Qed.

(** An assembly called on a fresh builder leaves a circuit with the shape of
    [skeleton]. *)
Lemma call_skeleton (n : Z) (errors : list Error) (symb_err : bool)
    (qc : State) (m : M State unit) (r : unit * State) :
  BellCircuit_init n n = Return qc ->
  m = create_circuit_with_no_correction errors symb_err \/
  m = create_circuit_with_simple_correction errors symb_err \/
  m = create_circuit_with_simple_repetition errors symb_err \/
  m = create_circuit_with_shor_correction errors symb_err ->
  call m qc = Return r ->
  skeleton (data (current (snd r))).
Proof.
  intros Hinit Hm Hcall.
  destruct (BellCircuit_init_fresh _ _ _ Hinit) as (Hwf & Hq & Hc & Hdata).
  apply call_Return in Hcall. destruct r as [[] st']. cbn [fst snd] in *.
  destruct (create_circuit_skeleton errors symb_err qc st' Hwf Hq Hc)
    as (_ & _ & ins & Hins & Hcur).
  { destruct Hm as [-> | [-> | [-> | ->]]]; auto. }
  rewrite Hcur, data_append_data, Hdata. exact Hins.
Qed.

Ltac skeleton_call :=
  eapply call_skeleton; [eassumption | | eassumption];
  first [ left; reflexivity
        | right; left; reflexivity
        | right; right; left; reflexivity
        | right; right; right; reflexivity ].

Lemma assemble_skeleton (n : Z) (ct : string) (errors : list Error)
    (key : string) (c : QuantumCircuit) :
  assemble n ct errors = Return (key, c) -> skeleton (data c).
Proof.
  unfold assemble. unfold mbind, outcome_mbind, outcome_bind.
  destruct (BellCircuit_init n n) as [qc|e] eqn:Hinit; [|discriminate].
  destruct (py_index errors 0) as [e0|e]; [|discriminate].
  destruct (py_index errors 1) as [e1|e]; [|discriminate].
  destruct (String.eqb ct "simple").
  { destruct (call _ qc) as [r|e] eqn:Hcall; [|discriminate].
    intros H; injection H as _ <-. skeleton_call. }
  destruct (String.eqb ct "repetition_simple").
  { destruct (call _ qc) as [r|e] eqn:Hcall; [|discriminate].
    intros H; injection H as _ <-. skeleton_call. }
  destruct (String.eqb ct "shor").
  { destruct (call _ qc) as [r|e] eqn:Hcall; [|discriminate].
    intros H; injection H as _ <-. skeleton_call. }
  destruct (call _ qc) as [r|e] eqn:Hcall; [|discriminate].
  intros H; injection H as _ <-. skeleton_call.
Qed.

(** X1. Whatever the number of ancillas, the correction type and the errors,
    a circuit that [run_one_combination] hands to the backend starts with the
    Hadamard gate on the first primary qubit and a barrier, and ends with the
    entangling CNOT, a barrier and the Bell measurement (CNOT, Hadamard, and
    the two primary qubits measured into the two classical bits); in between
    nothing is measured. *)
Theorem executed_circuit_skeleton {G OsRandom : Type} (execute : QuantumCircuit -> Counts)
    (n_ancillas : Z) (correction_type : string) (errors : list Error)
    (w w' : World G OsRandom) (counts : Counts) (key : string) :
  run_one_combination execute n_ancillas correction_type errors w
  = (Return (counts, key), w') ->
  exists qc, backend_log w' = backend_log w ++ [qc] /\ counts = execute qc /\
             skeleton (data qc).
Proof.
  rewrite run_one_combination_run.
  destruct (assemble n_ancillas correction_type errors) as [[k c]|e] eqn:Hasm;
    [|discriminate].
  intros H. injection H as <- <- <-.
  exists c. cbn [backend_log]. repeat split. eapply assemble_skeleton; eassumption.
Qed.

Lemma executed_circuit_skeleton_witness :
  run_one_combination execute_zero 8 "shor" [((1, 1), "x"); ((2, 0), "z")] world0
  = (Return ([("00", 1000)],  "[(1, x), (0, z)]"),
     snd (run_one_combination execute_zero 8 "shor" [((1, 1), "x"); ((2, 0), "z")] world0)) /\
  exists qc,
    backend_log (snd (run_one_combination execute_zero 8 "shor"
                        [((1, 1), "x"); ((2, 0), "z")] world0)) = backend_log world0 ++ [qc] /\
    [("00", 1000)] = execute_zero qc /\ skeleton (data qc).
Proof.
  split; [vm_compute; reflexivity|].
  apply (executed_circuit_skeleton execute_zero 8 "shor" [((1, 1), "x"); ((2, 0), "z")]
           world0 _ [("00", 1000)] "[(1, x), (0, z)]").
  vm_compute; reflexivity.
Defined.

(** X2. The diagram [get_circuit_to_print] returns, with its symbolic errors
    and for every correction type, has the same shape: Hadamard and barrier
    first, the entangling CNOT, a barrier and the Bell measurement last, and
    no measurement in between. *)
Theorem printed_circuit_skeleton (n_ancillas : Z) (correction_type : string)
    (qc : QuantumCircuit) :
  get_circuit_to_print n_ancillas correction_type = Return qc -> skeleton (data qc).
Proof.
  unfold get_circuit_to_print. unfold mbind, outcome_mbind, outcome_bind.
  destruct (BellCircuit_init n_ancillas n_ancillas) as [st|e] eqn:Hinit; [|discriminate].
  destruct (String.eqb correction_type "simple").
  { destruct (call _ st) as [r|e] eqn:Hcall; [|discriminate].
    intros H; injection H as <-. skeleton_call. }
  destruct (String.eqb correction_type "repetition_simple").
  { destruct (call _ st) as [r|e] eqn:Hcall; [|discriminate].
    intros H; injection H as <-. skeleton_call. }
  destruct (String.eqb correction_type "shor").
  { destruct (call _ st) as [r|e] eqn:Hcall; [|discriminate].
    intros H; injection H as <-. skeleton_call. }
  destruct (call _ st) as [r|e] eqn:Hcall; [|discriminate].
  intros H; injection H as <-. skeleton_call.
Qed.

Lemma printed_circuit_skeleton_witness :
  exists qc, get_circuit_to_print 8 "shor" = Return qc /\ skeleton (data qc).
Proof.
  eexists. split; [vm_compute; reflexivity|].
  apply (printed_circuit_skeleton 8 "shor"). vm_compute; reflexivity.
Defined.

(** ** The assemblies return *)

Ltac open_state H :=
  lazymatch type of H with
  | registers _ ?st =>
      let q := fresh "q" in let a := fresh "a" in let c := fresh "c" in
      let r := fresh "r" in let objs := fresh "objs" in
      destruct st as [[q a c r] objs];
      destruct H as (? & ? & ?); cbn [self qubits anc_qubit cbits] in *; subst q a c
  end.

Ltac returned_done :=
  split; [eexists; reflexivity | repeat split].

Lemma returned_superpose (anc : list QuantumRegister) (st : State) :
  registers anc st -> wp superpose st (returned anc).
Proof. intros H. open_state H. unfold superpose. wp_steps. returned_done. Qed.

Lemma returned_inject_symbolic_1 (anc : list QuantumRegister) (st : State) :
  registers anc st -> wp inject_symbolic_1 st (returned anc).
Proof.
  intros H. open_state H. unfold inject_symbolic_1, qc_append. wp_steps. returned_done.
Qed.

Lemma py_slice_all {A} (l : list A) : py_slice l None None = l.
Proof.
  unfold py_slice, slice_bound. rewrite Z.sub_0_r, Nat2Z.id. cbn [Z.to_nat skipn].
  apply firstn_all.
Qed.

Lemma len_whole_register (q : Qubit) (r : QuantumRegister) :
  0 <= size r -> Z.of_nat (length (q :: reg_slice r None None)) = size r + 1.
Proof.
  intros Hr. unfold reg_slice. rewrite py_slice_all. cbn [length].
  rewrite length_bits. lia.
Qed.

(** The symbolic error on a qubit and all its ancillas is an instruction on
    [num_qubits] qubits: it is accepted when the group has one qubit less. *)
Lemma returned_inject_symbolic_all (n num_qubits : Z) (st : State) :
  0 <= n -> num_qubits = n + 1 ->
  registers (ancillas n) st -> wp (inject_symbolic_all num_qubits) st (returned (ancillas n)).
Proof.
  intros Hn -> H. open_state H. unfold inject_symbolic_all, qc_append, ancillas.
  wp_steps; rewrite ?len_whole_register in * by (cbn; lia); cbn [size] in *;
    try lia; returned_done.
Qed.

Lemma returned_entangle_and_measure (anc : list QuantumRegister) (st : State) :
  registers anc st -> wp entangle_and_measure st (returned anc).
Proof.
  intros H. open_state H. unfold entangle_and_measure, add_measurement.
  wp_steps. returned_done.
Qed.

Lemma returned_check_both (n required : Z) (how_many : string) (st : State) :
  required <= n ->
  registers (ancillas n) st -> wp (check_both required how_many) st (returned (ancillas n)).
Proof.
  intros Hn H. open_state H. unfold check_both, ancillas.
  wp_steps; wp_done; returned_done.
Qed.

Lemma returned_barrier (anc : list QuantumRegister) (st : State) :
  registers anc st -> wp (c ← self_circuit; qc_barrier c) st (returned anc).
Proof. intros H. open_state H. wp_steps. returned_done. Qed.

Lemma returned_add_x_pf_corr (n : Z) (g : Z) (st : State) :
  1 <= n -> g = 1 \/ g = 2 ->
  registers (ancillas n) st -> wp (add_x_pf_corr g true) st (returned (ancillas n)).
Proof.
  intros Hn Hg H. open_state H. unfold add_x_pf_corr, ancillas.
  destruct Hg; subst g; wp_steps; wp_done; returned_done.
Qed.

Lemma returned_add_zero_bf_corr (n : Z) (g : Z) (st : State) :
  1 <= n -> g = 1 \/ g = 2 ->
  registers (ancillas n) st -> wp (add_zero_bf_corr g true) st (returned (ancillas n)).
Proof.
  intros Hn Hg H. open_state H. unfold add_zero_bf_corr, ancillas.
  destruct Hg; subst g; wp_steps; wp_done; returned_done.
Qed.

Lemma returned_add_x_pf_corr_with_repetition (n : Z) (g : Z) (st : State) :
  2 <= n -> g = 1 \/ g = 2 ->
  registers (ancillas n) st ->
  wp (add_x_pf_corr_with_repetition g true) st (returned (ancillas n)).
Proof.
  intros Hn Hg H. open_state H. unfold add_x_pf_corr_with_repetition, ancillas.
  destruct Hg; subst g; wp_steps; wp_done; returned_done.
Qed.

Lemma returned_add_zero_bf_corr_with_repetition (n : Z) (g : Z) (st : State) :
  2 <= n -> g = 1 \/ g = 2 ->
  registers (ancillas n) st ->
  wp (add_zero_bf_corr_with_repetition g true) st (returned (ancillas n)).
Proof.
  intros Hn Hg H. open_state H. unfold add_zero_bf_corr_with_repetition, ancillas.
  destruct Hg; subst g; wp_steps; wp_done; returned_done.
Qed.

Lemma returned_prepare_repetition (anc : list QuantumRegister) (q : Qubit)
    (r : QuantumRegister) (st : State) :
  8 <= size r ->
  registers anc st -> wp (_prepare_repetition q r) st (returned anc).
Proof.
  intros Hn H. open_state H. unfold _prepare_repetition.
  wp_steps. returned_done.
Qed.

Lemma returned_add_shor_correction (anc : list QuantumRegister) (q : Qubit)
    (r : QuantumRegister) (st : State) :
  8 <= size r ->
  registers anc st -> wp (_add_shor_correction q r) st (returned anc).
Proof.
  intros Hn H. open_state H. unfold _add_shor_correction.
  wp_steps. returned_done.
Qed.

Lemma ancillas_of_pos (n : Z) : 1 <= n -> ancillas_of n = ancillas n.
Proof. intros Hn. unfold ancillas_of. destruct (Z.eqb_spec n 0); [lia | reflexivity]. Qed.

Lemma returned_add_error_gate (anc : list QuantumRegister) (q : Qubit) (gate : string)
    (st : State) :
  registers anc st -> wp (add_error_gate q gate) st (returned anc).
Proof.
  intros H. eapply wp_of_run; [apply add_error_gate_run|].
  split; [eexists; reflexivity|]. destruct (error_gates q gate); exact H.
Qed.

Lemma returned_add_error (n : Z) (e : Error) (st : State) :
  0 <= n -> in_range n e ->
  registers (ancillas_of n) st ->
  wp (add_error (fst e) (snd e)) st (returned (ancillas_of n)).
Proof.
  intros Hn [Hg Hi] H. destruct e as [[g i] gate]. cbn [fst snd] in *.
  unfold ancillas_of in *. destruct (Z.eqb_spec n 0) as [->|Hnz].
  - assert (i = 0) by lia. subst i. open_state H.
    destruct Hg; subst g; unfold add_error, index_out_of_range; cbn [fst snd];
      wp_steps; wp_done; apply returned_add_error_gate; repeat split.
  - open_state H. unfold ancillas.
    destruct Hg; subst g; unfold add_error, index_out_of_range; cbn [fst snd];
      wp_steps; wp_done; try (apply returned_add_error_gate; repeat split).
Qed.

Lemma returned_for_errors (n : Z) (errors : list Error) (st : State) :
  0 <= n -> Forall (in_range n) errors ->
  registers (ancillas_of n) st ->
  wp (for_ errors (fun qe => add_error (fst qe) (snd qe))) st (returned (ancillas_of n)).
Proof.
  intros Hn Herr. revert st. induction Herr as [|e errors He Herr IH]; intros st H.
  - cbn [for_]. apply wp_ret. split; [eexists; reflexivity | exact H].
  - cbn [for_]. apply wp_bind. eapply wp_mono; [apply returned_add_error; eassumption|].
    intros o s' [[[] ->] Hs']. apply IH. exact Hs'.
Qed.

Lemma returned_inject (n : Z) (errors : list Error) (st : State) :
  0 <= n -> Forall (in_range n) errors ->
  registers (ancillas_of n) st ->
  wp (inject errors) st (returned (ancillas_of n)).
Proof.
  intros Hn Herr H. unfold inject. apply wp_bind.
  eapply wp_mono; [apply returned_for_errors; eassumption|].
  intros o s' [[[] ->] Hs']. apply returned_barrier. exact Hs'.
Qed.

Lemma returned_inject_pos (n : Z) (errors : list Error) (st : State) :
  1 <= n -> Forall (in_range n) errors ->
  registers (ancillas n) st -> wp (inject errors) st (returned (ancillas n)).
Proof.
  intros Hn Herr. rewrite <- (ancillas_of_pos n Hn). apply returned_inject; [lia | exact Herr].
Qed.

(** One stage of an assembly, then the rest from the builder it leaves. *)
Ltac stage L :=
  wp_steps;
  eapply wp_mono;
  [ apply L; first [eassumption | lia | solve [cbn [size]; lia] | solve [repeat split] | solve [auto] | idtac]
  | let H := fresh "Hreg" in
    intros ? ? [[? ->] H]; cbv beta iota; open_state H ].

Lemma returned_create_circuit_with_no_correction (n : Z) (errors : list Error)
    (symb_err : bool) (st : State) :
  0 <= n -> (symb_err = false -> Forall (in_range n) errors) ->
  registers (ancillas_of n) st ->
  wp (create_circuit_with_no_correction errors symb_err) st (returned (ancillas_of n)).
Proof.
  intros Hn Herr H. unfold create_circuit_with_no_correction.
  stage returned_superpose.
  destruct symb_err.
  - stage returned_inject_symbolic_1. wp_steps.
    apply returned_entangle_and_measure. repeat split.
  - stage (returned_inject n). wp_steps.
    apply returned_entangle_and_measure. repeat split.
Qed.

Lemma returned_create_circuit_with_simple_correction (n : Z) (errors : list Error)
    (symb_err : bool) (st : State) :
  1 <= n -> (symb_err = false -> Forall (in_range n) errors) ->
  registers (ancillas n) st ->
  wp (create_circuit_with_simple_correction errors symb_err) st (returned (ancillas n)).
Proof.
  intros Hn Herr H. unfold create_circuit_with_simple_correction.
  stage (returned_check_both n).
  stage returned_superpose.
  destruct symb_err;
    [stage returned_inject_symbolic_1 | stage (returned_inject_pos n)];
    (stage (returned_add_x_pf_corr n);
     stage (returned_add_zero_bf_corr n);
     wp_steps; apply returned_entangle_and_measure; repeat split).
Qed.

Lemma returned_create_circuit_with_simple_repetition (n : Z) (errors : list Error)
    (symb_err : bool) (st : State) :
  2 <= n -> (symb_err = false -> Forall (in_range n) errors) ->
  (symb_err = true -> n = 2) ->
  registers (ancillas n) st ->
  wp (create_circuit_with_simple_repetition errors symb_err) st (returned (ancillas n)).
Proof.
  intros Hn Herr Hsymb H. unfold create_circuit_with_simple_repetition.
  stage (returned_check_both n).
  stage returned_superpose.
  destruct symb_err;
    [pose proof (Hsymb eq_refl); stage (returned_inject_symbolic_all n)
    | stage (returned_inject_pos n)];
    (stage (returned_add_x_pf_corr_with_repetition n);
     stage (returned_add_zero_bf_corr_with_repetition n);
     wp_steps; apply returned_entangle_and_measure; repeat split).
Qed.

Lemma returned_create_circuit_with_shor_correction (n : Z) (errors : list Error)
    (symb_err : bool) (st : State) :
  8 <= n -> (symb_err = false -> Forall (in_range n) errors) ->
  (symb_err = true -> n = 8) ->
  registers (ancillas n) st ->
  wp (create_circuit_with_shor_correction errors symb_err) st (returned (ancillas n)).
Proof.
  intros Hn Herr Hsymb H. unfold create_circuit_with_shor_correction.
  stage (returned_check_both n).
  stage returned_superpose.
  stage (returned_prepare_repetition (ancillas n)).
  stage (returned_prepare_repetition (ancillas n)).
  destruct symb_err;
    [pose proof (Hsymb eq_refl); stage (returned_inject_symbolic_all n)
    | stage (returned_inject_pos n)];
    (stage (returned_add_shor_correction (ancillas n));
     stage (returned_add_shor_correction (ancillas n));
     wp_steps; apply returned_entangle_and_measure; repeat split).
Qed.

Lemma allocated_registers_of (n : Z) (st : State) :
  allocated n n st -> 0 <= n /\ registers (ancillas_of n) st.
Proof.
  intros Hal. apply allocated_registers in Hal.
  destruct Hal as (Hq & Hc & [[Hz Ha] | (Hn & _ & Ha)]); unfold registers, ancillas_of.
  - assert (n = 0) as -> by lia. cbn. auto with zarith.
  - destruct (Z.eqb_spec n 0); [lia|]. split; [lia | auto].
Qed.

Lemma allocated_init (n1 n2 : Z) (st : State) :
  BellCircuit_init n1 n2 = Return st -> allocated n1 n2 st.
Proof. intros H. exists st. auto. Qed.

Lemma returned_run {A} (anc : list QuantumRegister) (m : M State A) (st : State) :
  wp m st (returned anc) -> exists a st', m st = (Return a, st') /\ registers anc st'.
Proof.
  unfold wp, returned. destruct (m st) as [o st']. cbn [fst snd].
  intros [[a ->] H]. eauto.
Qed.

Lemma returned_unit (anc : list QuantumRegister) (m : M State unit) (st : State) :
  wp m st (returned anc) -> exists st', m st = (Return tt, st').
Proof. intros H. destruct (returned_run _ _ _ H) as ([] & st' & Hrun & _). eauto. Qed.

(** ** The checks of the assemblies *)

Lemma check_both_no_register (required : Z) (how_many : string) (st : State) :
  anc_qubit (self st) = [] ->
  check_both required how_many st = (Raise (IndexError "list index out of range"), st).
Proof.
  intros Ha. destruct st as [[q a c r] objs]. cbn [self anc_qubit] in Ha. subst a.
  apply wp_run. unfold check_both. wp_steps. reflexivity.
Qed.

Lemma check_both_too_few (n1 n2 required : Z) (how_many : string) (st : State) :
  anc_qubit (self st) = [mkQReg n1 "anc_qb1"; mkQReg n2 "anc_qb2"] ->
  n1 < required \/ n2 < required ->
  check_both required how_many st
  = (Raise (Exception (msg_requires_both how_many n1 n2)), st).
Proof.
  intros Ha Hn. destruct st as [[q a c r] objs]. cbn [self anc_qubit] in Ha. subst a.
  apply wp_run. unfold check_both. wp_steps; wp_done.
Qed.

(** X3. In a builder made by [BellCircuit(n, n)], with errors whose groups
    are 1 or 2 and whose indices lie between 0 and [n], the assemblies raise
    nothing: the one without correction for every [n], the simple one from one
    ancilla per group, the repetition one from two, the Shor one from
    eight. *)
Theorem assemblies_return (n : Z) (errors : list Error) (st : State) :
  allocated n n st -> Forall (in_range n) errors ->
  (exists st', create_circuit_with_no_correction errors false st = (Return tt, st')) /\
  (1 <= n ->
   exists st', create_circuit_with_simple_correction errors false st = (Return tt, st')) /\
  (2 <= n ->
   exists st', create_circuit_with_simple_repetition errors false st = (Return tt, st')) /\
  (8 <= n ->
   exists st', create_circuit_with_shor_correction errors false st = (Return tt, st')).
Proof.
  intros Hal Herr. destruct (allocated_registers_of _ _ Hal) as [Hn Hreg].
  split; [|split; [|split]].
  - eapply returned_unit, returned_create_circuit_with_no_correction; eauto.
  - intros H. rewrite ancillas_of_pos in Hreg by lia.
    eapply returned_unit, returned_create_circuit_with_simple_correction; eauto.
  - intros H. rewrite ancillas_of_pos in Hreg by lia.
    eapply returned_unit, returned_create_circuit_with_simple_repetition; eauto.
    discriminate.
  - intros H. rewrite ancillas_of_pos in Hreg by lia.
    eapply returned_unit, returned_create_circuit_with_shor_correction; eauto.
    discriminate.
Qed.

Lemma allocated_8_8 : allocated 8 8 bell_8_8.
Proof. eexists. split; [reflexivity|]. repeat split. Qed.

Lemma in_range_8 : Forall (in_range 8) [((1, 8), "x"); ((2, 0), "z")].
Proof.
  constructor; [split; cbn; lia|]. constructor; [split; cbn; lia|]. constructor.
Qed.

Lemma assemblies_return_witness :
  exists st', create_circuit_with_shor_correction [((1, 8), "x"); ((2, 0), "z")] false
                bell_8_8
              = (Return tt, st').
Proof.
  apply (assemblies_return 8 [((1, 8), "x"); ((2, 0), "z")] bell_8_8
           allocated_8_8 in_range_8).
  lia.
Defined.

(** X4. The repetition and the Shor assembly check the ancillas of both
    groups before they add anything: in a builder with ancillas, of which one
    group has fewer than two (fewer than eight), they raise an [Exception]
    whose message gives the requirement and both counts, and the builder and
    its circuits are as they were. *)
Theorem assemblies_require_ancillas (n1 n2 : Z) (errors : list Error) (symb_err : bool)
    (st : State) :
  allocated n1 n2 st -> 0 < n1 -> 0 < n2 ->
  (n1 < 2 \/ n2 < 2 ->
   create_circuit_with_simple_repetition errors symb_err st
   = (Raise (Exception (msg_requires_both "two ancillas" n1 n2)), st)) /\
  (n1 < 8 \/ n2 < 8 ->
   create_circuit_with_shor_correction errors symb_err st
   = (Raise (Exception (msg_requires_both "eight ancillas" n1 n2)), st)).
Proof.
  intros Hal H1 H2. apply allocated_registers in Hal.
  destruct Hal as (_ & _ & [[Hz _] | (_ & _ & Ha)]); [lia|].
  split; intros Hn; apply bind_raise, check_both_too_few; assumption.
Qed.

Lemma assemblies_require_ancillas_witness :
  create_circuit_with_shor_correction [] true bell_2_2
  = (Raise (Exception
       "This method requires eight ancillas per each qubit. Currently qubit1 has 2 ancillas and qubit2 has 2 ancillas."),
     bell_2_2).
Proof.
  apply (assemblies_require_ancillas 2 2 [] true bell_2_2 allocated_bell_2_2); lia.
Defined.

(** X5. In a builder without ancillas (one of the two counts was zero) the
    three correcting assemblies fail on their own check: the list of ancilla
    registers is empty, so reading the first register raises [IndexError]
    instead of the message about missing ancillas; nothing is added to the
    circuit. *)
Theorem assemblies_without_ancillas (n1 n2 : Z) (errors : list Error) (symb_err : bool)
    (st : State) :
  allocated n1 n2 st -> n1 = 0 \/ n2 = 0 ->
  create_circuit_with_simple_correction errors symb_err st
  = (Raise (IndexError "list index out of range"), st) /\
  create_circuit_with_simple_repetition errors symb_err st
  = (Raise (IndexError "list index out of range"), st) /\
  create_circuit_with_shor_correction errors symb_err st
  = (Raise (IndexError "list index out of range"), st).
Proof.
  intros Hal Hz. apply allocated_registers in Hal.
  destruct Hal as (_ & _ & [[_ Ha] | (? & ? & _)]); [|lia].
  repeat split; apply bind_raise, check_both_no_register; assumption.
Qed.

Lemma allocated_bell_0_0 : allocated 0 5 bell_0_0.
Proof. eexists. split; [reflexivity|]. repeat split. Qed.

Lemma assemblies_without_ancillas_witness :
  create_circuit_with_simple_correction [] false bell_0_0
  = (Raise (IndexError "list index out of range"), bell_0_0).
Proof.
  apply (assemblies_without_ancillas 0 5 [] false bell_0_0 allocated_bell_0_0).
  left; reflexivity.
Defined.

(** ** The drivers *)

Lemma call_of_run {A} (method : M State A) (qc qc' : State) (a : A) :
  method qc = (Return a, qc') -> call method qc = Return (a, qc').
Proof. unfold call. intros ->. reflexivity. Qed.

Lemma call_of_raise {A} (method : M State A) (qc qc' : State) (e : exn) :
  method qc = (Raise e, qc') -> call method qc = Raise e.
Proof. unfold call. intros ->. reflexivity. Qed.

Lemma BellCircuit_init_returns (n : Z) :
  0 <= n -> exists st, BellCircuit_init n n = Return st /\ registers (ancillas_of n) st.
Proof.
  intros Hn. unfold ancillas_of. destruct (Z.eqb_spec n 0) as [->|Hnz].
  - eexists. split; [reflexivity | repeat split].
  - eexists. split; [apply BellCircuit_init_some; lia | repeat split].
Qed.

Lemma BellCircuit_init_registers (n : Z) (st : State) :
  BellCircuit_init n n = Return st -> 0 <= n /\ registers (ancillas_of n) st.
Proof. intros H. apply allocated_registers_of, allocated_init, H. Qed.

(** The symbolic error of the repetition and the Shor assembly spans a
    primary qubit and all the ancillas of its group, but is declared on three
    (nine) qubits: with more ancillas Qiskit refuses it. *)
Lemma raised_inject_symbolic_all (n num_qubits : Z) (st : State) :
  0 <= n -> num_qubits <> n + 1 ->
  registers (ancillas n) st ->
  wp (inject_symbolic_all num_qubits) st (fun o _ => exists e, o = Raise e).
Proof.
  intros Hn Hnum H. open_state H. unfold inject_symbolic_all, qc_append, ancillas.
  wp_steps; rewrite ?len_whole_register in * by (cbn; lia); cbn [size] in *;
    try lia; eexists; reflexivity.
Qed.

Lemma raised_run {A} (m : M State A) (st : State) :
  wp m st (fun o _ => exists e, o = Raise e) -> exists e st', m st = (Raise e, st').
Proof.
  unfold wp. destruct (m st) as [o st']. cbn [fst snd]. intros [e ->]. eauto.
Qed.

Lemma symbolic_repetition_raises (n : Z) (errors : list Error) (st : State) :
  3 <= n -> registers (ancillas n) st ->
  exists e st', create_circuit_with_simple_repetition errors true st = (Raise e, st').
Proof.
  intros Hn H. apply raised_run. unfold create_circuit_with_simple_repetition.
  stage (returned_check_both n).
  stage returned_superpose.
  wp_steps. eapply wp_mono;
    [apply (raised_inject_symbolic_all n); [lia | lia | repeat split]|].
  intros o s' [e ->]. eexists; reflexivity.
Qed.

Lemma symbolic_shor_raises (n : Z) (errors : list Error) (st : State) :
  9 <= n -> registers (ancillas n) st ->
  exists e st', create_circuit_with_shor_correction errors true st = (Raise e, st').
Proof.
  intros Hn H. apply raised_run. unfold create_circuit_with_shor_correction.
  stage (returned_check_both n).
  stage returned_superpose.
  stage (returned_prepare_repetition (ancillas n)).
  stage (returned_prepare_repetition (ancillas n)).
  wp_steps. eapply wp_mono;
    [apply (raised_inject_symbolic_all n); [lia | lia | repeat split]|].
  intros o s' [e ->]. eexists; reflexivity.
Qed.

Lemma get_circuit_to_print_returns (n : Z) (ct : string) :
  printable n ct -> exists qc, get_circuit_to_print n ct = Return qc.
Proof.
  unfold printable, get_circuit_to_print. intros Hp.
  assert (0 <= n) as Hn.
  { destruct (String.eqb ct "simple"); [lia|].
    destruct (String.eqb ct "repetition_simple"); [lia|].
    destruct (String.eqb ct "shor"); lia. }
  destruct (BellCircuit_init_returns n Hn) as (st & -> & Hreg).
  unfold mbind, outcome_mbind, outcome_bind.
  destruct (String.eqb ct "simple").
  { rewrite ancillas_of_pos in Hreg by lia.
    destruct (returned_unit _ _ _
                (returned_create_circuit_with_simple_correction n [] true st Hp
                   (fun H => False_ind _ (Bool.diff_true_false H)) Hreg)) as [st' Hrun].
    rewrite (call_of_run _ _ _ _ Hrun). eauto. }
  destruct (String.eqb ct "repetition_simple").
  { rewrite ancillas_of_pos in Hreg by lia.
    assert (2 <= n) as H2 by lia.
    destruct (returned_unit _ _ _
                (returned_create_circuit_with_simple_repetition n [] true st H2
                   (fun H => False_ind _ (Bool.diff_true_false H)) (fun _ => Hp) Hreg))
      as [st' Hrun].
    rewrite (call_of_run _ _ _ _ Hrun). eauto. }
  destruct (String.eqb ct "shor").
  { rewrite ancillas_of_pos in Hreg by lia.
    assert (8 <= n) as H8 by lia.
    destruct (returned_unit _ _ _
                (returned_create_circuit_with_shor_correction n [] true st H8
                   (fun H => False_ind _ (Bool.diff_true_false H)) (fun _ => Hp) Hreg))
      as [st' Hrun].
    rewrite (call_of_run _ _ _ _ Hrun). eauto. }
  destruct (returned_unit _ _ _
              (returned_create_circuit_with_no_correction n [] true st Hn
                 (fun H => False_ind _ (Bool.diff_true_false H)) Hreg)) as [st' Hrun].
  rewrite (call_of_run _ _ _ _ Hrun). eauto.
Qed.

Lemma get_circuit_to_print_Return (n : Z) (ct : string) (qc : QuantumCircuit) :
  get_circuit_to_print n ct = Return qc -> printable n ct.
Proof.
  unfold printable, get_circuit_to_print. unfold mbind, outcome_mbind, outcome_bind.
  destruct (BellCircuit_init n n) as [st|e] eqn:Hinit; [|discriminate].
  destruct (BellCircuit_init_registers _ _ Hinit) as [Hn Hreg].
  assert (n = 0 -> anc_qubit (self st) = []) as Hnone.
  { intros ->. apply Hreg. }
  destruct (String.eqb ct "simple").
  { intros Hrun. destruct (Z_le_gt_dec 1 n) as [|Hlt]; [assumption|]. exfalso.
    unfold create_circuit_with_simple_correction in Hrun.
    rewrite (call_of_raise _ _ _ _
               (bind_raise _ _ _ _ _ (check_both_no_register _ _ _ (Hnone ltac:(lia)))))
      in Hrun.
    discriminate. }
  destruct (String.eqb ct "repetition_simple").
  { intros Hrun. destruct (Z.eq_dec n 2) as [|Hne]; [assumption|]. exfalso.
    destruct (Z.eq_dec n 0) as [Hz|Hnz].
    { unfold create_circuit_with_simple_repetition in Hrun.
      rewrite (call_of_raise _ _ _ _
                 (bind_raise _ _ _ _ _ (check_both_no_register _ _ _ (Hnone Hz)))) in Hrun.
      discriminate. }
    rewrite ancillas_of_pos in Hreg by lia.
    destruct (Z_le_gt_dec 3 n) as [H3|H3].
    - destruct (symbolic_repetition_raises n [] st H3 Hreg) as (e & st' & Hr).
      rewrite (call_of_raise _ _ _ _ Hr) in Hrun. discriminate.
    - unfold create_circuit_with_simple_repetition in Hrun.
      rewrite (call_of_raise _ _ _ _
                 (bind_raise _ _ _ _ _
                    (check_both_too_few n n 2 _ st (proj1 (proj2 Hreg)) ltac:(lia))))
        in Hrun.
      discriminate. }
  destruct (String.eqb ct "shor").
  { intros Hrun. destruct (Z.eq_dec n 8) as [|Hne]; [assumption|]. exfalso.
    destruct (Z.eq_dec n 0) as [Hz|Hnz].
    { unfold create_circuit_with_shor_correction in Hrun.
      rewrite (call_of_raise _ _ _ _
                 (bind_raise _ _ _ _ _ (check_both_no_register _ _ _ (Hnone Hz)))) in Hrun.
      discriminate. }
    rewrite ancillas_of_pos in Hreg by lia.
    destruct (Z_le_gt_dec 9 n) as [H9|H9].
    - destruct (symbolic_shor_raises n [] st H9 Hreg) as (e & st' & Hr).
      rewrite (call_of_raise _ _ _ _ Hr) in Hrun. discriminate.
    - unfold create_circuit_with_shor_correction in Hrun.
      rewrite (call_of_raise _ _ _ _
                 (bind_raise _ _ _ _ _
                    (check_both_too_few n n 8 _ st (proj1 (proj2 Hreg)) ltac:(lia))))
        in Hrun.
      discriminate. }
  intros _. exact Hn.
Qed.

(** X6. [get_circuit_to_print] returns a diagram exactly for these numbers
    of ancillas: one or more for ["simple"], two for ["repetition_simple"],
    eight for ["shor"], zero or more for any other correction type.  For every
    other number it raises: the constructor refuses a negative count, the
    check of the assembly fails for too few ancillas, and with more than two
    (eight) ancillas the symbolic error, declared on three (nine) qubits, does
    not fit the qubit and all its ancillas. *)
Theorem get_circuit_to_print_returns_iff (n_ancillas : Z) (correction_type : string) :
  (exists qc, get_circuit_to_print n_ancillas correction_type = Return qc) <->
  printable n_ancillas correction_type.
Proof.
  split.
  - intros [qc H]. eapply get_circuit_to_print_Return, H.
  - apply get_circuit_to_print_returns.
Qed.

Lemma printable_n_ancillas_of (ct : string) : printable (n_ancillas_of ct) ct.
Proof.
  unfold printable, n_ancillas_of.
  destruct (String.eqb ct "simple"); [lia|].
  destruct (String.eqb ct "repetition_simple"); [lia|].
  destruct (String.eqb ct "shor"); lia.
Qed.

(** X7. With the number of ancillas [run_simulation] picks for the
    correction type given on the command line (1, 2, 8, or 0 for anything
    else), [get_circuit_to_print] returns a circuit: printing the diagram
    raises nothing before the drawing. *)
Theorem print_circuit_returns (correction : string) :
  exists qc, get_circuit_to_print (n_ancillas_of correction) correction = Return qc.
Proof. apply get_circuit_to_print_returns, printable_n_ancillas_of. Qed.

Lemma assemble_returns (n : Z) (ct : string) (e0 e1 : Error) (rest : list Error) :
  n_ancillas_of ct <= n -> 0 <= n ->
  (String.eqb ct "simple" = false -> Forall (in_range n) (e0 :: e1 :: rest)) ->
  exists qc,
    assemble n ct (e0 :: e1 :: rest)
    = Return (if String.eqb ct "simple"
              then error_key 0 (snd e0) 0 (snd e1)
              else error_key (snd (fst e0)) (snd e0) (snd (fst e1)) (snd e1),
              qc).
Proof.
  unfold n_ancillas_of, assemble. intros Hreq Hn Herr.
  destruct (BellCircuit_init_returns n Hn) as (st & -> & Hreg).
  rewrite py_index_0, py_index_1.
  unfold mbind, outcome_mbind, outcome_bind.
  destruct (String.eqb ct "simple").
  { rewrite ancillas_of_pos in Hreg by lia.
    assert (Forall (in_range n) [((1, 0), snd e0); ((2, 0), snd e1)]) as Hcoerced.
    { constructor; [split; cbn; lia|]. constructor; [split; cbn; lia|]. constructor. }
    destruct (returned_unit _ _ _
                (returned_create_circuit_with_simple_correction n _ false st Hreq
                   (fun _ => Hcoerced) Hreg)) as [st' Hrun].
    rewrite (call_of_run _ _ _ _ Hrun). eauto. }
  specialize (Herr eq_refl).
  destruct (String.eqb ct "repetition_simple").
  { rewrite ancillas_of_pos in Hreg by lia.
    destruct (returned_unit _ _ _
                (returned_create_circuit_with_simple_repetition n _ false st Hreq
                   (fun _ => Herr) (fun H => False_ind _ (Bool.diff_false_true H)) Hreg))
      as [st' Hrun].
    rewrite (call_of_run _ _ _ _ Hrun). eauto. }
  destruct (String.eqb ct "shor").
  { rewrite ancillas_of_pos in Hreg by lia.
    destruct (returned_unit _ _ _
                (returned_create_circuit_with_shor_correction n _ false st Hreq
                   (fun _ => Herr) (fun H => False_ind _ (Bool.diff_false_true H)) Hreg))
      as [st' Hrun].
    rewrite (call_of_run _ _ _ _ Hrun). eauto. }
  destruct (returned_unit _ _ _
              (returned_create_circuit_with_no_correction n _ false st Hn
                 (fun _ => Herr) Hreg)) as [st' Hrun].
  rewrite (call_of_run _ _ _ _ Hrun). eauto.
Qed.

Lemma n_ancillas_of_nonneg (ct : string) : 0 <= n_ancillas_of ct.
Proof.
  unfold n_ancillas_of.
  destruct (String.eqb ct "simple"); [lia|].
  destruct (String.eqb ct "repetition_simple"); [lia|].
  destruct (String.eqb ct "shor"); lia.
Qed.

(** X8. With at least the ancillas the correction type needs (1 for
    ["simple"], 2 for ["repetition_simple"], 8 for ["shor"], none
    otherwise), and errors whose groups are 1 or 2 and whose indices lie
    between 0 and the number of ancillas, [run_one_combination] raises
    nothing: it calls the backend and returns its counts with the key of the
    first two errors.  For ["simple"] the indices and groups given do not
    matter. *)
Theorem run_one_combination_returns {G OsRandom : Type}
    (execute : QuantumCircuit -> Counts) (n_ancillas : Z) (correction_type : string)
    (e0 e1 : Error) (rest : list Error) (w : World G OsRandom) :
  n_ancillas_of correction_type <= n_ancillas ->
  (String.eqb correction_type "simple" = false ->
   Forall (in_range n_ancillas) (e0 :: e1 :: rest)) ->
  exists counts w',
    run_one_combination execute n_ancillas correction_type (e0 :: e1 :: rest) w
    = (Return (counts,
               if String.eqb correction_type "simple"
               then error_key 0 (snd e0) 0 (snd e1)
               else error_key (snd (fst e0)) (snd e0) (snd (fst e1)) (snd e1)),
       w').
Proof.
  intros Hreq Herr. pose proof (n_ancillas_of_nonneg correction_type) as H0.
  destruct (assemble_returns n_ancillas correction_type e0 e1 rest Hreq ltac:(lia) Herr)
    as [qc Hasm].
  rewrite run_one_combination_run, Hasm. eauto.
Qed.

Lemma run_one_combination_returns_witness :
  exists counts w',
    run_one_combination execute_zero 8 "shor" [((1, 8), "x"); ((2, 0), "z")] world0
    = (Return (counts, "[(8, x), (0, z)]"), w').
Proof.
  apply (run_one_combination_returns execute_zero 8 "shor" ((1, 8), "x") ((2, 0), "z") []
           world0).
  - vm_compute. discriminate.
  - intros _. constructor; [split; cbn; lia|]. constructor; [split; cbn; lia|]. constructor.
Defined.

(** X9. [run_one_combination] reads the first two errors for the key before
    it assembles anything: with fewer than two errors (and a number of
    ancillas the constructor accepts) it raises [IndexError], whatever the
    correction type, and the backend is not called. *)
Theorem run_one_combination_needs_two_errors {G OsRandom : Type}
    (execute : QuantumCircuit -> Counts) (n_ancillas : Z) (correction_type : string)
    (errors : list Error) (w : World G OsRandom) :
  0 <= n_ancillas -> (length errors < 2)%nat ->
  run_one_combination execute n_ancillas correction_type errors w
  = (Raise (IndexError "list index out of range"), w).
Proof.
  intros Hn Hlen. rewrite run_one_combination_run. unfold assemble.
  destruct (BellCircuit_init_returns n_ancillas Hn) as (st & -> & _).
  unfold mbind, outcome_mbind, outcome_bind.
  destruct errors as [|e0 [|e1 rest]]; [reflexivity | | cbn in Hlen; lia].
  rewrite py_index_0. reflexivity.
Qed.

Lemma run_one_combination_needs_two_errors_witness :
  run_one_combination execute_zero 2 "repetition_simple" [((1, 0), "x")] world0
  = (Raise (IndexError "list index out of range"), world0).
Proof.
  apply (run_one_combination_needs_two_errors execute_zero 2 "repetition_simple"
           [((1, 0), "x")] world0); cbn; lia.
Defined.

(** X10. A call of [run_one_combination] that raises has not reached the
    backend, and no call draws from the random generator: after a failure the
    world is as it was, and after a success it differs by one executed
    circuit. *)
Theorem run_one_combination_backend_use {G OsRandom : Type}
    (execute : QuantumCircuit -> Counts) (n_ancillas : Z) (correction_type : string)
    (errors : list Error) (w w' : World G OsRandom) (o : outcome (Counts * string)) :
  run_one_combination execute n_ancillas correction_type errors w = (o, w') ->
  random_state w' = random_state w /\ os_random w' = os_random w /\
  match o with
  | Return _ => exists qc, backend_log w' = backend_log w ++ [qc]
  | Raise _ => backend_log w' = backend_log w
  end.
Proof.
  rewrite run_one_combination_run.
  destruct (assemble n_ancillas correction_type errors) as [[key qc]|e];
    intros H; injection H as <- <-; cbn; eauto.
Qed.

Lemma run_one_combination_backend_use_witness :
  random_state world0 = random_state world0 /\ os_random world0 = os_random world0 /\
  backend_log world0 = backend_log world0.
Proof.
  apply (run_one_combination_backend_use execute_zero 0 "shor"
           [((1, 0), "x"); ((2, 0), "z")] world0 world0
           (Raise (IndexError "list index out of range"))).
  vm_compute; reflexivity.
Defined.

Lemma for_loop_returns {S X A} (P : X -> Prop) (body : X -> A -> M S A) :
  (forall x acc s, P x -> exists acc' s', body x acc s = (Return acc', s')) ->
  forall xs, Forall P xs ->
  forall acc s, exists acc' s', for_loop xs body acc s = (Return acc', s').
Proof.
  intros Hbody xs Hxs. induction Hxs as [|x xs Hx Hxs IH]; intros acc s.
  - cbn. eauto.
  - cbn [for_loop]. unfold mbind, M_mbind, M_bind.
    destruct (Hbody x acc s Hx) as (acc1 & s1 & ->). apply IH.
Qed.

Lemma elem_of_py_range (n x : Z) : x ∈ py_range n -> 0 <= x < n.
Proof.
  unfold py_range. rewrite list_elem_of_In, in_map_iff.
  intros (i & <- & Hi). apply in_seq in Hi. lia.
Qed.

Lemma configurations_in_range (n : Z) :
  Forall (fun cfg => Forall (in_range n) (config_errors cfg)) (configurations n).
Proof.
  apply Forall_forall. intros cfg. unfold configurations.
  rewrite list_elem_of_bind. intros (g1 & Hcfg & Hg1).
  rewrite list_elem_of_bind in Hcfg. destruct Hcfg as (g2 & Hcfg & Hg2).
  rewrite list_elem_of_bind in Hcfg. destruct Hcfg as (e1 & Hcfg & _).
  rewrite list_elem_of_bind in Hcfg. destruct Hcfg as (e2 & Hcfg & _).
  apply list_elem_of_singleton in Hcfg. subst cfg.
  apply elem_of_py_range in Hg1, Hg2. cbn [config_errors].
  constructor; [split; cbn; lia|]. constructor; [split; cbn; lia|]. constructor.
Qed.

(** X11. With at least the ancillas the correction type needs,
    [run_all_combinations] raises nothing: every configuration it enumerates
    has its indices between 0 and the number of ancillas, so every circuit is
    assembled and executed, and the two dictionaries are returned. *)
Theorem run_all_combinations_returns {G OsRandom : Type}
    (execute : QuantumCircuit -> Counts) (n_ancillas : Z) (correction_type : string)
    (w : World G OsRandom) :
  n_ancillas_of correction_type <= n_ancillas ->
  exists totals w',
    run_all_combinations execute n_ancillas correction_type w = (Return totals, w').
Proof.
  intros Hreq. rewrite run_all_combinations_flat.
  pose proof (n_ancillas_of_nonneg correction_type) as H0.
  eapply for_loop_returns; [|apply configurations_in_range].
  intros [[[g1 g2] e1] e2] [all_counts err_to_counts] w1 Hcfg.
  rewrite all_body_run. cbn [config_errors] in *.
  destruct (assemble_returns n_ancillas correction_type _ _ _ Hreq ltac:(lia)
              (fun _ => Hcfg)) as [qc Hasm].
  match goal with
  | |- context [assemble ?a ?b ?c] =>
      let H := fresh in pose proof (Hasm : assemble a b c = _) as H; rewrite H
  end.
  eauto.
Qed.

Lemma run_all_combinations_returns_witness :
  exists totals w', run_all_combinations execute_zero 8 "shor" world0 = (Return totals, w').
Proof.
  apply (run_all_combinations_returns execute_zero 8 "shor" world0).
  vm_compute. discriminate.
Defined.

(** ** Counting *)

Lemma dict_get_set {V} (d : dict V) (k k' : string) (v : V) :
  dict_get (dict_set d k v) k' = if String.eqb k' k then Some v else dict_get d k'.
Proof.
  induction d as [|[k0 v0] d IH]; cbn [dict_set dict_get].
  - reflexivity.
  - destruct (String.eqb_spec k k0) as [->|Hk]; cbn [dict_get].
    + destruct (String.eqb k' k0); reflexivity.
    + rewrite IH. destruct (String.eqb_spec k' k0) as [->|Hk'].
      * destruct (String.eqb_spec k0 k); [congruence | reflexivity].
      * reflexivity.
Qed.

Lemma count_set (c : Counts) (k k' : string) (v : Z) :
  count (dict_set c k v) k' = if String.eqb k' k then v else count c k'.
Proof. unfold count. rewrite dict_get_set. destruct (String.eqb k' k); reflexivity. Qed.

Lemma dict_get_not_key {V} (d : dict V) (k : string) :
  k ∉ (fst <$> d) -> dict_get d k = None.
Proof.
  induction d as [|[k0 v0] d IH]; cbn; [reflexivity|].
  rewrite not_elem_of_cons. intros [Hk Hd].
  destruct (String.eqb_spec k k0); [congruence | auto].
Qed.

(** Adding the counts of one run, state by state. *)
Lemma count_add_counts (all_counts counts : Counts) (k : string) :
  NoDup (fst <$> counts) ->
  count (add_counts all_counts counts) k = count all_counts k + count counts k.
Proof.
  unfold add_counts. revert all_counts.
  induction counts as [|[k1 v1] counts IH]; intros all_counts Hnd.
  - cbn [fold_left]. unfold count. cbn. lia.
  - cbn [fmap list_fmap fst] in Hnd. apply NoDup_cons in Hnd as [Hk1 Hnd].
    cbn [fold_left fst snd]. rewrite (IH _ Hnd).
    fold (count all_counts k1). rewrite count_set.
    assert (count ((k1, v1) :: counts) k
            = if String.eqb k k1 then v1 else count counts k) as ->.
    { unfold count. cbn [dict_get]. destruct (String.eqb k k1); reflexivity. }
    destruct (String.eqb_spec k k1) as [->|Hk]; [|reflexivity].
    unfold count at 2. rewrite (dict_get_not_key _ _ Hk1). cbn. lia.
Qed.

Lemma merge_counts_add_counts (d counts : Counts) :
  merge_counts d counts = add_counts d counts.
Proof.
  unfold merge_counts, add_counts. revert d.
  induction counts as [|[k1 v1] counts IH]; intros d; [reflexivity|].
  cbn [fold_left fst snd]. rewrite IH.
  destruct (dict_get d k1); reflexivity.
Qed.

Lemma shots_cons (k : string) (v : Z) (c : Counts) : shots ((k, v) :: c) = v + shots c.
Proof. reflexivity. Qed.

Lemma shots_set (c : Counts) (k : string) (v : Z) :
  shots (dict_set c k v) = shots c - count c k + v.
Proof.
  unfold count. induction c as [|[k0 v0] c IH]; cbn [dict_set dict_get].
  - cbn. lia.
  - destruct (String.eqb_spec k k0) as [->|Hk]; rewrite !shots_cons.
    + change (default 0 (Some v0)) with v0. lia.
    + rewrite IH. lia.
Qed.

Lemma shots_add_counts (all_counts counts : Counts) :
  shots (add_counts all_counts counts) = shots all_counts + shots counts.
Proof.
  unfold add_counts. revert all_counts.
  induction counts as [|[k1 v1] counts IH]; intros all_counts.
  - cbn [fold_left]. change (shots []) with 0. lia.
  - cbn [fold_left fst snd]. rewrite IH. fold (count all_counts k1).
    rewrite shots_set, shots_cons. lia.
Qed.

Lemma split_count_cons (e : string) (c : Counts) (d : dict Counts) (k : string) :
  split_count ((e, c) :: d) k = count c k + split_count d k.
Proof. reflexivity. Qed.

Lemma split_count_set (d : dict Counts) (error : string) (c : Counts) (k : string) :
  split_count (dict_set d error c) k
  = split_count d k - match dict_get d error with Some old => count old k | None => 0 end
    + count c k.
Proof.
  induction d as [|[e0 c0] d IH]; cbn [dict_set dict_get].
  - rewrite split_count_cons. change (split_count [] k) with 0. lia.
  - destruct (String.eqb_spec error e0) as [->|He]; rewrite !split_count_cons.
    + lia.
    + rewrite IH. lia.
Qed.

(** ** Random runs *)

Lemma bind_run {S A B} (m : M S A) (f : A -> M S B) (s s1 : S) (a : A) :
  m s = (Return a, s1) -> (m ≫= f) s = f a s1.
Proof. intros H. unfold mbind, M_mbind, M_bind. rewrite H. reflexivity. Qed.

Lemma bind_Return {S A B} (m : M S A) (f : A -> M S B) (s s' : S) (b : B) :
  (m ≫= f) s = (Return b, s') ->
  exists a s1, m s = (Return a, s1) /\ f a s1 = (Return b, s').
Proof.
  unfold mbind, M_mbind, M_bind. destruct (m s) as [[a|e] s1]; [eauto | discriminate].
Qed.

Section RandomRuns.

Context {G SeedValue Weight OsRandom : Type}.
Context (execute : QuantumCircuit -> Counts).
Context (seed_state : SeedValue -> G) (os_seed : OsRandom -> G * OsRandom).
Context (randint : Z -> Z -> G -> outcome Z * G).
Context (choices : list string -> option (list Weight) -> G -> outcome (list string) * G).

Lemma random_randint_run (a b : Z) (w : World G OsRandom) (o : outcome Z) (g : G) :
  randint a b (random_state w) = (o, g) ->
  random_randint randint a b w = (o, mkWorld g (os_random w) (backend_log w)).
Proof. unfold random_randint. intros ->. reflexivity. Qed.

Lemma random_choices_run (population : list string) (weights : option (list Weight))
    (w : World G OsRandom) (o : outcome (list string)) (g : G) :
  choices population weights (random_state w) = (o, g) ->
  random_choices choices population weights w
  = (o, mkWorld g (os_random w) (backend_log w)).
Proof. unfold random_choices. intros ->. reflexivity. Qed.

Lemma random_randint_log (a b : Z) (w w' : World G OsRandom) (o : outcome Z) :
  random_randint randint a b w = (o, w') -> backend_log w' = backend_log w.
Proof.
  unfold random_randint. destruct (randint a b (random_state w)).
  intros H. injection H as _ <-. reflexivity.
Qed.

Lemma random_choices_log (population : list string) (weights : option (list Weight))
    (w w' : World G OsRandom) (o : outcome (list string)) :
  random_choices choices population weights w = (o, w') -> backend_log w' = backend_log w.
Proof.
  unfold random_choices. destruct (choices population weights (random_state w)).
  intros H. injection H as _ <-. reflexivity.
Qed.

Lemma random_seed_log (seed : option SeedValue) (w : World G OsRandom) :
  exists w1, random_seed seed_state os_seed seed w = (Return tt, w1) /\
             backend_log w1 = backend_log w.
Proof.
  unfold random_seed. destruct seed as [s|].
  - eexists. split; reflexivity.
  - destruct (os_seed (os_random w)) as [g os]. eexists. split; reflexivity.
Qed.

(** One iteration that returns: one circuit went to the backend, its counts
    were added to [all_counts], and they were stored under the key or merged
    into what the key held. *)
Lemma random_step_Return (n : Z) (ct : string) (probabilities : option (list Weight))
    (all_counts : Counts) (err_to_counts : dict Counts) (acc' : Totals)
    (w w' : World G OsRandom) :
  random_step execute randint choices n ct probabilities (all_counts, err_to_counts) w
  = (Return acc', w') ->
  exists qc key,
    backend_log w' = backend_log w ++ [qc] /\
    fst acc' = add_counts all_counts (execute qc) /\
    snd acc' = dict_set err_to_counts key
                 match dict_get err_to_counts key with
                 | Some old => merge_counts old (execute qc)
                 | None => execute qc
                 end.
Proof.
  unfold random_step. intros H.
  apply bind_Return in H as (i1 & w1 & H1 & H). apply random_randint_log in H1.
  apply bind_Return in H as (i2 & w2 & H2 & H). apply random_randint_log in H2.
  apply bind_Return in H as (l1 & w3 & H3 & H). apply random_choices_log in H3.
  apply bind_Return in H as (l2 & w4 & H4 & H). apply random_choices_log in H4.
  apply bind_Return in H as (g1 & w5 & H5 & H). injection H5 as _ <-.
  apply bind_Return in H as (g2 & w6 & H6 & H). injection H6 as _ <-.
  apply bind_Return in H as ([counts key] & w7 & H7 & H).
  rewrite run_one_combination_run in H7.
  destruct (assemble n ct _) as [[key' qc]|e]; [|discriminate].
  injection H7 as <- <- <-. exists qc, key'.
  destruct (dict_get err_to_counts key') as [old|]; injection H as <- <-;
    cbn [backend_log fst snd]; rewrite H4, H3, H2, H1; auto.
Qed.

Lemma random_run_Return (n : Z) (ct : string) (iterations : Z)
    (probabilities : option (list Weight)) (seed : option SeedValue)
    (w w' : World G OsRandom) (totals : Totals) :
  run_random_errors execute seed_state os_seed randint choices
                    n ct iterations probabilities seed w = (Return totals, w') ->
  exists w1,
    backend_log w1 = backend_log w /\
    for_loop (py_range iterations)
             (fun _ acc => random_step execute randint choices n ct probabilities acc)
             ([], []) w1 = (Return totals, w').
Proof.
  unfold run_random_errors. intros H.
  destruct (random_seed_log seed w) as (w1 & Hseed & Hlog).
  rewrite (bind_run _ _ _ _ _ Hseed) in H. eauto.
Qed.

(** X12. When [run_random_errors] returns, the backend was called once per
    iteration, and [all_counts] is the sum of the counts of these runs, in
    order. *)
Theorem run_random_errors_sums_every_run (n_ancillas : Z) (correction_type : string)
    (iterations : Z) (probabilities : option (list Weight)) (seed : option SeedValue)
    (w w' : World G OsRandom) (all_counts : Counts) (err_to_counts : dict Counts) :
  run_random_errors execute seed_state os_seed randint choices
                    n_ancillas correction_type iterations probabilities seed w
  = (Return (all_counts, err_to_counts), w') ->
  exists runs,
    backend_log w' = backend_log w ++ runs /\
    length runs = Z.to_nat iterations /\
    all_counts = total_counts (execute <$> runs).
Proof.
  intros H. apply random_run_Return in H as (w1 & Hlog & H).
  pose (I := fun (done : list Z) (acc : Totals) (w2 : World G OsRandom) =>
               exists runs, backend_log w2 = backend_log w ++ runs /\
                            length runs = length done /\
                            fst acc = total_counts (execute <$> runs)).
  assert (I ([] ++ py_range iterations) (all_counts, err_to_counts) w') as (runs & H1 & H2 & H3).
  { eapply (for_loop_inv I); [| |exact H].
    - intros done x [ac etc] w2 acc' w3 (runs & Hl & Hlen & Hsum) Hstep.
      apply random_step_Return in Hstep as (qc & key & Hl' & Hac & _).
      exists (runs ++ [qc]). cbn [fst] in *. rewrite Hl', Hl, <- app_assoc.
      split; [reflexivity|]. split; [rewrite !length_app; cbn; lia|].
      rewrite fmap_app. cbn [fmap list_fmap]. rewrite total_counts_snoc, <- Hsum. exact Hac.
    - exists []. rewrite app_nil_r. auto. }
  exists runs. cbn [app fst] in *. rewrite length_py_range in H2. auto.
Qed.

(** X13. When [run_random_errors] returns, the split by error adds up to the
    total: for every measured state, its shots in [all_counts] are the sum of
    its shots over the entries of [err_to_counts].  The backend's result is a
    dictionary: it has each measured state once. *)
Theorem run_random_errors_split_adds_up (n_ancillas : Z) (correction_type : string)
    (iterations : Z) (probabilities : option (list Weight)) (seed : option SeedValue)
    (w w' : World G OsRandom) (all_counts : Counts) (err_to_counts : dict Counts) :
  (forall qc, NoDup (fst <$> execute qc)) ->
  run_random_errors execute seed_state os_seed randint choices
                    n_ancillas correction_type iterations probabilities seed w
  = (Return (all_counts, err_to_counts), w') ->
  forall k, count all_counts k = split_count err_to_counts k.
Proof.
  intros Hexec H. apply random_run_Return in H as (w1 & Hlog & H).
  pose (I := fun (done : list Z) (acc : Totals) (w2 : World G OsRandom) =>
               forall k, count (fst acc) k = split_count (snd acc) k).
  apply (for_loop_inv I _) with (done := []) in H; [exact H| |intros k; reflexivity].
  intros done x [ac etc] w2 acc' w3 Hinv Hstep k.
  apply random_step_Return in Hstep as (qc & key & _ & -> & ->).
  unfold I in Hinv. cbn [fst snd] in Hinv.
  rewrite count_add_counts, split_count_set, Hinv by apply Hexec.
  destruct (dict_get etc key) as [old|].
  - rewrite merge_counts_add_counts, count_add_counts by apply Hexec. lia.
  - lia.
Qed.

(** X14. If every execution reports the same number of shots (1000 in the
    code), then [all_counts] returned by [run_random_errors] holds that
    number of shots for each iteration. *)
Theorem run_random_errors_total_shots (n_ancillas : Z) (correction_type : string)
    (iterations : Z) (probabilities : option (list Weight)) (seed : option SeedValue)
    (w w' : World G OsRandom) (all_counts : Counts) (err_to_counts : dict Counts)
    (per_run : Z) :
  (forall qc, shots (execute qc) = per_run) ->
  run_random_errors execute seed_state os_seed randint choices
                    n_ancillas correction_type iterations probabilities seed w
  = (Return (all_counts, err_to_counts), w') ->
  shots all_counts = per_run * Z.max 0 iterations.
Proof.
  intros Hexec H. apply random_run_Return in H as (w1 & Hlog & H).
  pose (I := fun (done : list Z) (acc : Totals) (w2 : World G OsRandom) =>
               shots (fst acc) = per_run * Z.of_nat (length done)).
  apply (for_loop_inv I _) with (done := []) in H.
  - unfold I in H. cbn [app fst] in H. rewrite length_py_range in H. lia.
  - intros done x [ac etc] w2 acc' w3 Hinv Hstep.
    apply random_step_Return in Hstep as (qc & key & _ & Hac & _).
    unfold I in *. cbn [fst] in *.
    rewrite Hac, shots_add_counts, Hinv, Hexec, length_app. cbn [length]. lia.
  - unfold I. cbn. lia.
Qed.

(** X15. With at least the ancillas the correction type needs, and a
    generator whose [randint] returns a number between its bounds and whose
    [choices] returns a non-empty list, [run_random_errors] raises nothing,
    for any number of iterations. *)
Theorem run_random_errors_returns (n_ancillas : Z) (correction_type : string)
    (iterations : Z) (probabilities : option (list Weight)) (seed : option SeedValue)
    (w : World G OsRandom) :
  n_ancillas_of correction_type <= n_ancillas ->
  (forall a b g, a <= b -> exists v g', randint a b g = (Return v, g') /\ a <= v <= b) ->
  (forall g, exists x rest g',
      choices ["i"; "x"; "z"] probabilities g = (Return (x :: rest), g')) ->
  exists totals w',
    run_random_errors execute seed_state os_seed randint choices
                      n_ancillas correction_type iterations probabilities seed w
    = (Return totals, w').
Proof.
  intros Hreq Hrandint Hchoices.
  pose proof (n_ancillas_of_nonneg correction_type) as H0.
  unfold run_random_errors.
  destruct (random_seed_log seed w) as (w1 & Hseed & _).
  rewrite (bind_run _ _ _ _ _ Hseed).
  apply (for_loop_returns (fun _ => True)); [|apply Forall_forall; auto].
  intros _ [all_counts err_to_counts] w2 _. unfold random_step.
  destruct (Hrandint 0 n_ancillas (random_state w2) ltac:(lia)) as (i1 & g1 & E1 & Hi1).
  rewrite (bind_run _ _ _ _ _ (random_randint_run _ _ _ _ _ E1)).
  destruct (Hrandint 0 n_ancillas g1 ltac:(lia)) as (i2 & g2 & E2 & Hi2).
  rewrite (bind_run _ _ _ _ _ (random_randint_run 0 n_ancillas (mkWorld g1 _ _) _ _ E2)).
  cbn [os_random backend_log].
  destruct (Hchoices g2) as (x1 & r1 & g3 & E3).
  rewrite (bind_run _ _ _ _ _ (random_choices_run _ _ (mkWorld g2 _ _) _ _ E3)).
  cbn [os_random backend_log].
  destruct (Hchoices g3) as (x2 & r2 & g4 & E4).
  rewrite (bind_run _ _ _ _ _ (random_choices_run _ _ (mkWorld g3 _ _) _ _ E4)).
  cbn [os_random backend_log].
  rewrite !py_index_0.
  rewrite (bind_run _ _ _ _ _ (eq_refl : eval (Return x1) _ = (Return x1, _))).
  rewrite (bind_run _ _ _ _ _ (eq_refl : eval (Return x2) _ = (Return x2, _))).
  assert (Forall (in_range n_ancillas) [((1, i1), x1); ((2, i2), x2)]) as Herr.
  { constructor; [split; cbn; lia|]. constructor; [split; cbn; lia|]. constructor. }
  destruct (assemble_returns n_ancillas correction_type _ _ _ Hreq ltac:(lia)
              (fun _ => Herr)) as [qc Hasm].
  unfold mbind at 1, M_mbind, M_bind. rewrite run_one_combination_run.
  match goal with
  | |- context [assemble ?a ?b ?c] =>
      let H := fresh in pose proof (Hasm : assemble a b c = _) as H; rewrite H
  end.
  destruct (dict_get err_to_counts _); eauto.
Qed.

End RandomRuns.

(** ** An index beyond the ancillas *)

Lemma registers_allocated (n : Z) (st : State) :
  0 <= n -> registers (ancillas_of n) st -> allocated n n st.
Proof.
  intros Hn (Hq & Ha & Hc). destruct (BellCircuit_init_returns n Hn) as (st0 & Hinit & Hq0 & Ha0 & Hc0).
  exists st0. split; [exact Hinit|]. repeat split; congruence.
Qed.

Lemma raising_add_error (n g i : Z) (gate : string) (st : State) :
  0 <= n -> g = 1 \/ g = 2 -> n < i ->
  registers (ancillas_of n) st ->
  wp (add_error (g, i) gate) st
     (fun o _ => o = Raise (ValueError (msg_out_of_index g n i))).
Proof.
  intros Hn Hg Hi Hreg. eapply wp_of_run; [|reflexivity].
  apply add_error_out_of_index; [apply registers_allocated; assumption | assumption | lia].
Qed.

(** The two errors of a driver, of which one has an index beyond the
    ancillas: the first such index is reported. *)
Lemma raising_inject (n i1 i2 : Z) (g1 g2 : string) (st : State) :
  0 <= n -> 0 <= i1 -> 0 <= i2 -> n < i1 \/ n < i2 ->
  registers (ancillas_of n) st ->
  wp (inject [((1, i1), g1); ((2, i2), g2)]) st
     (fun o _ => o = Raise (ValueError (if n <? i1 then msg_out_of_index 1 n i1
                                        else msg_out_of_index 2 n i2))).
Proof.
  intros Hn H1 H2 Hi Hreg. unfold inject. cbn [for_ fst snd].
  apply wp_bind, wp_bind.
  destruct (Z.ltb_spec n i1) as [Hlt|Hle].
  - eapply wp_mono; [apply (raising_add_error n 1 i1); auto|].
    intros o s' ->. reflexivity.
  - eapply wp_mono; [apply (returned_add_error n ((1, i1), g1)); [lia | split; cbn; lia | exact Hreg]|].
    intros o s' [[[] ->] Hreg']. apply wp_bind.
    eapply wp_mono; [apply (raising_add_error n 2 i2); auto; lia|].
    intros o' s'' ->. reflexivity.
Qed.

Lemma raising_inject_pos (n i1 i2 : Z) (g1 g2 : string) (st : State) :
  1 <= n -> 0 <= i1 -> 0 <= i2 -> n < i1 \/ n < i2 ->
  registers (ancillas n) st ->
  wp (inject [((1, i1), g1); ((2, i2), g2)]) st
     (fun o _ => o = Raise (ValueError (if n <? i1 then msg_out_of_index 1 n i1
                                        else msg_out_of_index 2 n i2))).
Proof.
  intros Hn. rewrite <- (ancillas_of_pos n Hn). apply raising_inject. lia.
Qed.

Ltac raising L :=
  wp_steps; eapply wp_mono; [apply L; first [eassumption | lia | solve [repeat split]]|];
  intros ? ? ->; reflexivity.

Lemma call_raises {A} (method : M State A) (qc : State) (e : exn) :
  wp method qc (fun o _ => o = Raise e) -> call method qc = Raise e.
Proof.
  unfold wp, call. destruct (method qc) as [o qc']. cbn [fst]. intros ->. reflexivity.
Qed.

Lemma assemble_out_of_index (n : Z) (ct : string) (i1 i2 : Z) (g1 g2 : string) :
  n_ancillas_of ct <= n -> String.eqb ct "simple" = false ->
  0 <= i1 -> 0 <= i2 -> n < i1 \/ n < i2 ->
  assemble n ct [((1, i1), g1); ((2, i2), g2)]
  = Raise (ValueError (if n <? i1 then msg_out_of_index 1 n i1
                       else msg_out_of_index 2 n i2)).
Proof.
  unfold n_ancillas_of, assemble. intros Hreq Hct H1 H2 Hi. rewrite Hct in *.
  assert (0 <= n) as Hn.
  { destruct (String.eqb ct "repetition_simple"); [lia|].
    destruct (String.eqb ct "shor"); lia. }
  destruct (BellCircuit_init_returns n Hn) as (st & -> & Hreg).
  rewrite py_index_0, py_index_1.
  unfold mbind, outcome_mbind, outcome_bind. cbn [fst snd].
  destruct (String.eqb ct "repetition_simple").
  { rewrite ancillas_of_pos in Hreg by lia.
    erewrite call_raises; [reflexivity|].
    unfold create_circuit_with_simple_repetition.
    stage (returned_check_both n). stage returned_superpose.
    raising (raising_inject_pos n i1 i2 g1 g2). }
  destruct (String.eqb ct "shor").
  { rewrite ancillas_of_pos in Hreg by lia.
    erewrite call_raises; [reflexivity|].
    unfold create_circuit_with_shor_correction.
    stage (returned_check_both n). stage returned_superpose.
    stage (returned_prepare_repetition (ancillas n)).
    stage (returned_prepare_repetition (ancillas n)).
    raising (raising_inject_pos n i1 i2 g1 g2). }
  erewrite call_raises; [reflexivity|].
  unfold create_circuit_with_no_correction.
  stage returned_superpose.
  raising (raising_inject n i1 i2 g1 g2).
Qed.

(** X16. For a correction type other than ["simple"], with the ancillas it
    needs, [run_one_combination] on two errors of which one has an index
    beyond the number of ancillas raises the [ValueError] of [add_error] for
    the first such error, with its group, the number of ancillas and the index;
    the backend is not called. *)
Theorem run_one_combination_out_of_index {G OsRandom : Type}
    (execute : QuantumCircuit -> Counts) (n_ancillas : Z) (correction_type : string)
    (i1 i2 : Z) (g1 g2 : string) (w : World G OsRandom) :
  n_ancillas_of correction_type <= n_ancillas ->
  String.eqb correction_type "simple" = false ->
  0 <= i1 -> 0 <= i2 -> n_ancillas < i1 \/ n_ancillas < i2 ->
  run_one_combination execute n_ancillas correction_type
                      [((1, i1), g1); ((2, i2), g2)] w
  = (Raise (ValueError (if n_ancillas <? i1 then msg_out_of_index 1 n_ancillas i1
                        else msg_out_of_index 2 n_ancillas i2)), w).
Proof.
  intros Hreq Hct H1 H2 Hi.
  rewrite run_one_combination_run.
  pose proof (assemble_out_of_index n_ancillas correction_type i1 i2 g1 g2
                Hreq Hct H1 H2 Hi) as Hasm.
  match goal with
  | |- context [assemble ?a ?b ?c] =>
      let H := fresh in pose proof (Hasm : assemble a b c = _) as H; rewrite H
  end.
  reflexivity.
Qed.

Lemma run_one_combination_out_of_index_witness :
  run_one_combination execute_zero 2 "repetition_simple"
                      [((1, 2), "x"); ((2, 3), "z")] world0
  = (Raise (ValueError
       "In the error correction method  for qubit 2 there are 2 ancillas, so 3 is out of index for applying the error."),
     world0).
Proof.
  apply (run_one_combination_out_of_index execute_zero 2 "repetition_simple" 2 3 "x" "z"
           world0); first [reflexivity | lia | (vm_compute; discriminate)].
Defined.

Lemma run_random_errors_sums_every_run_witness :
  exists all_counts err_to_counts w',
    run_random_errors execute_zero (fun _ : unit => tt) (fun o : unit => (tt, o))
                      randint_low (@choices_first unit) 1 "simple" 2 None (Some tt) world0
    = (Return (all_counts, err_to_counts), w') /\
    exists runs,
      backend_log w' = backend_log world0 ++ runs /\
      length runs = Z.to_nat 2 /\
      all_counts = total_counts (execute_zero <$> runs).
Proof.
  eexists _, _, _. split; [vm_compute; reflexivity|].
  eapply (run_random_errors_sums_every_run execute_zero (fun _ : unit => tt)
           (fun o : unit => (tt, o)) randint_low (@choices_first unit)
           1 "simple" 2 None (Some tt) world0).
  vm_compute; reflexivity.
Defined.

Lemma execute_zero_NoDup (qc : QuantumCircuit) : NoDup (fst <$> execute_zero qc).
Proof. cbn. apply NoDup_singleton. Qed.

Lemma run_random_errors_split_adds_up_witness :
  exists all_counts err_to_counts w',
    run_random_errors execute_zero (fun _ : unit => tt) (fun o : unit => (tt, o))
                      randint_low (@choices_first unit) 1 "simple" 2 None (Some tt) world0
    = (Return (all_counts, err_to_counts), w') /\
    forall k, count all_counts k = split_count err_to_counts k.
Proof.
  eexists _, _, _. split; [vm_compute; reflexivity|].
  eapply (run_random_errors_split_adds_up execute_zero (fun _ : unit => tt)
           (fun o : unit => (tt, o)) randint_low (@choices_first unit)
           1 "simple" 2 None (Some tt) world0 _ _ _ execute_zero_NoDup).
  vm_compute; reflexivity.
Defined.

Lemma run_random_errors_total_shots_witness :
  exists all_counts err_to_counts w',
    run_random_errors execute_zero (fun _ : unit => tt) (fun o : unit => (tt, o))
                      randint_low (@choices_first unit) 1 "simple" 2 None (Some tt) world0
    = (Return (all_counts, err_to_counts), w') /\
    shots all_counts = 1000 * Z.max 0 2.
Proof.
  eexists _, _, _. split; [vm_compute; reflexivity|].
  eapply (run_random_errors_total_shots execute_zero (fun _ : unit => tt)
           (fun o : unit => (tt, o)) randint_low (@choices_first unit)
           1 "simple" 2 None (Some tt) world0 _ _ _ 1000 (fun _ => eq_refl)).
  vm_compute; reflexivity.
Defined.

Lemma randint_low_in_bounds (a b : Z) (g : unit) :
  a <= b -> exists v g', randint_low a b g = (Return v, g') /\ a <= v <= b.
Proof.
  intros Hab. unfold randint_low. destruct (Z.ltb_spec b a); [lia|].
  exists a, g. split; [reflexivity | lia].
Qed.

Lemma run_random_errors_returns_witness :
  exists totals w',
    run_random_errors execute_zero (fun _ : unit => tt) (fun o : unit => (tt, o))
                      randint_low (@choices_first unit) 8 "shor" 3 None None world0
    = (Return totals, w').
Proof.
  apply (run_random_errors_returns execute_zero (fun _ : unit => tt)
           (fun o : unit => (tt, o)) randint_low (@choices_first unit)
           8 "shor" 3 None None world0).
  - vm_compute. discriminate.
  - exact randint_low_in_bounds.
  - intros g. exists "i", [], g. reflexivity.
Defined.

(** ** The gates of the gadgets *)

Ltac gadget_run :=
  match goal with
  | H : registers _ _ |- _ => open_state H
  end;
  apply wp_run; unfold ancillas, snapshot, current, deref;
  cbn [self objects qubits anc_qubit cbits circuit];
  wp_steps; wp_done;
  rewrite ?alter_newest, ?append_data_app; reflexivity.

Lemma add_zero_bf_corr_run (n g : Z) (flag : bool) (st : State) :
  1 <= n -> g = 1 \/ g = 2 -> registers (ancillas n) st ->
  add_zero_bf_corr g flag st
  = (Return (length (objects st)),
     snapshot flag [CXGate (target g 0) (target g 1); CXGate (target g 1) (target g 0)] st).
Proof.
  intros Hn Hg H. unfold add_zero_bf_corr.
  destruct flag; destruct Hg; subst g; gadget_run.
Qed.

Lemma add_x_pf_corr_run (n g : Z) (flag : bool) (st : State) :
  1 <= n -> g = 1 \/ g = 2 -> registers (ancillas n) st ->
  add_x_pf_corr g flag st
  = (Return (length (objects st)),
     snapshot flag [HGate (target g 0);
                    CXGate (target g 0) (target g 1); CXGate (target g 1) (target g 0);
                    HGate (target g 0)] st).
Proof.
  intros Hn Hg H. unfold add_x_pf_corr.
  destruct flag; destruct Hg; subst g; gadget_run.
Qed.

Lemma add_zero_bf_corr_with_repetition_run (n g : Z) (flag : bool) (st : State) :
  2 <= n -> g = 1 \/ g = 2 -> registers (ancillas n) st ->
  add_zero_bf_corr_with_repetition g flag st
  = (Return (length (objects st)),
     snapshot flag [CXGate (target g 0) (target g 1); CXGate (target g 0) (target g 2);
                    CCXGate (target g 1) (target g 2) (target g 0)] st).
Proof.
  intros Hn Hg H. unfold add_zero_bf_corr_with_repetition.
  destruct flag; destruct Hg; subst g; gadget_run.
Qed.

Lemma add_x_pf_corr_with_repetition_run (n g : Z) (flag : bool) (st : State) :
  2 <= n -> g = 1 \/ g = 2 -> registers (ancillas n) st ->
  add_x_pf_corr_with_repetition g flag st
  = (Return (length (objects st)),
     snapshot flag [HGate (target g 0);
                    CXGate (target g 0) (target g 1); CXGate (target g 0) (target g 2);
                    CCXGate (target g 1) (target g 2) (target g 0);
                    HGate (target g 0)] st).
Proof.
  intros Hn Hg H. unfold add_x_pf_corr_with_repetition.
  destruct flag; destruct Hg; subst g; gadget_run.
Qed.

Lemma allocated_ancillas (n : Z) (st : State) :
  allocated n n st -> 1 <= n -> registers (ancillas n) st.
Proof.
  intros Hal Hn. destruct (allocated_registers_of _ _ Hal) as [_ Hreg].
  rewrite ancillas_of_pos in Hreg by lia. exact Hreg.
Qed.

(** X17. The phase-flip gadget is the bit-flip gadget between two Hadamard
    gates on the group's primary qubit: in a builder with enough ancillas,
    [add_x_pf_corr] returns the snapshot [add_zero_bf_corr] returns, with a
    Hadamard gate before and after the gates of the latter, and so do the two
    gadgets with repetition. *)
Theorem phase_flip_gadget_conjugates_bit_flip (n g : Z) (in_place : bool) (st : State) :
  allocated n n st -> g = 1 \/ g = 2 ->
  (1 <= n ->
   exists ins,
     add_zero_bf_corr g in_place st
     = (Return (length (objects st)), snapshot in_place ins st) /\
     add_x_pf_corr g in_place st
     = (Return (length (objects st)),
        snapshot in_place ([HGate (target g 0)] ++ ins ++ [HGate (target g 0)]) st)) /\
  (2 <= n ->
   exists ins,
     add_zero_bf_corr_with_repetition g in_place st
     = (Return (length (objects st)), snapshot in_place ins st) /\
     add_x_pf_corr_with_repetition g in_place st
     = (Return (length (objects st)),
        snapshot in_place ([HGate (target g 0)] ++ ins ++ [HGate (target g 0)]) st)).
Proof.
  intros Hal Hg. split; intros Hn.
  - pose proof (allocated_ancillas n st Hal ltac:(lia)) as Hreg.
    eexists. split; [apply (add_zero_bf_corr_run n); assumption|].
    apply (add_x_pf_corr_run n); assumption.
  - pose proof (allocated_ancillas n st Hal ltac:(lia)) as Hreg.
    eexists. split; [apply (add_zero_bf_corr_with_repetition_run n); assumption|].
    apply (add_x_pf_corr_with_repetition_run n); assumption.
Qed.

Lemma phase_flip_gadget_conjugates_bit_flip_witness :
  exists ins,
    add_zero_bf_corr_with_repetition 2 true bell_2_2
    = (Return (length (objects bell_2_2)), snapshot true ins bell_2_2) /\
    add_x_pf_corr_with_repetition 2 true bell_2_2
    = (Return (length (objects bell_2_2)),
       snapshot true ([HGate (target 2 0)] ++ ins ++ [HGate (target 2 0)]) bell_2_2).
Proof.
  apply (phase_flip_gadget_conjugates_bit_flip 2 2 true bell_2_2 allocated_bell_2_2);
    [right; reflexivity | lia].
Defined.

Lemma in_group_primary (g : Z) : g = 1 \/ g = 2 -> in_group g (target g 0).
Proof. intros [->| ->]; left; reflexivity. Qed.

Lemma in_group_ancilla (g i : Z) : g = 1 \/ g = 2 -> 0 < i -> in_group g (target g i).
Proof.
  intros Hg Hi. right. unfold target. destruct (Z.eqb_spec i 0); [lia|]. reflexivity.
Qed.

Ltac within :=
  repeat first
    [ apply Forall_nil_2
    | apply Forall_cons_2
    | apply in_group_primary; assumption
    | apply in_group_ancilla; [assumption | lia] ];
  unfold within_group; cbn [instruction_qubits].

(** X18. A correction gadget acts on its own group only: every gate it
    appends to its snapshot has its qubits among the primary qubit of the
    group and the ancillas of the group's register. *)
Theorem gadgets_stay_within_group (n g : Z) (in_place : bool) (st : State) :
  allocated n n st -> g = 1 \/ g = 2 ->
  (1 <= n ->
   (exists ins, add_zero_bf_corr g in_place st
                = (Return (length (objects st)), snapshot in_place ins st) /\
                Forall (within_group g) ins) /\
   (exists ins, add_x_pf_corr g in_place st
                = (Return (length (objects st)), snapshot in_place ins st) /\
                Forall (within_group g) ins)) /\
  (2 <= n ->
   (exists ins, add_zero_bf_corr_with_repetition g in_place st
                = (Return (length (objects st)), snapshot in_place ins st) /\
                Forall (within_group g) ins) /\
   (exists ins, add_x_pf_corr_with_repetition g in_place st
                = (Return (length (objects st)), snapshot in_place ins st) /\
                Forall (within_group g) ins)).
Proof.
  intros Hal Hg. split; intros Hn;
    pose proof (allocated_ancillas n st Hal ltac:(lia)) as Hreg; split; eexists.
  - split; [apply (add_zero_bf_corr_run n); assumption|].
    repeat (within; repeat constructor).
  - split; [apply (add_x_pf_corr_run n); assumption|].
    repeat (within; repeat constructor).
  - split; [apply (add_zero_bf_corr_with_repetition_run n); assumption|].
    repeat (within; repeat constructor).
  - split; [apply (add_x_pf_corr_with_repetition_run n); assumption|].
    repeat (within; repeat constructor).
Qed.

(** ** The Shor steps *)

Lemma alter_append_twice (a b : list Instruction) (c : ref) (objs : list QuantumCircuit) :
  alter (append_data b) c (alter (append_data a) c objs)
  = alter (append_data (a ++ b)) c objs.
Proof.
  rewrite list_alter_alter_eq. apply list_alter_ext; [|reflexivity].
  intros qc _. apply append_data_app.
Qed.

Lemma bits_register (r : QuantumRegister) :
  Forall (fun x => q_register x = name r) (bits r).
Proof.
  unfold bits. apply List.Forall_map. apply Forall_forall. intros; reflexivity.
Qed.

Lemma reg_slice_register (r : QuantumRegister) (a b : option Z) :
  Forall (fun x => q_register x = name r) (reg_slice r a b).
Proof.
  unfold reg_slice, py_slice. apply Forall_take, Forall_drop, bits_register.
Qed.

Lemma on_block_fan (q : Qubit) (r : QuantumRegister) (control : Qubit)
    (targets : list Qubit) :
  control = q \/ q_register control = name r ->
  Forall (fun x => q_register x = name r) targets ->
  Forall (on_block q r) (map (CXGate control) targets).
Proof.
  intros Hc Ht. apply List.Forall_map. eapply Forall_impl; [exact Ht|].
  intros x Hx. unfold on_block. cbn [instruction_qubits].
  apply Forall_cons_2; [exact Hc|]. apply Forall_cons_2; [right; exact Hx|].
  apply Forall_nil_2.
Qed.

Ltac on_block :=
  repeat first
    [ apply Forall_nil_2
    | apply Forall_cons_2
    | apply Forall_app; split
    | apply on_block_fan; [first [left; reflexivity | right; reflexivity]
                          | apply reg_slice_register ]
    | progress (unfold on_block; cbn [instruction_qubits map])
    | left; reflexivity
    | right; reflexivity ].

Lemma _prepare_repetition_block (q : Qubit) (r : QuantumRegister) (st : State) :
  8 <= size r ->
  wp (_prepare_repetition q r) st
     (fun o st' => o = Return tt /\
        exists ins, st' = mkState (self st)
                            (alter (append_data ins) (circuit (self st)) (objects st)) /\
                    Forall (on_block q r) ins).
Proof.
  intros Hr. unfold _prepare_repetition. wp_steps.
  split; [reflexivity|]. rewrite !alter_append_twice.
  eexists. split; [reflexivity|]. on_block.
Qed.

Lemma _add_shor_correction_block (q : Qubit) (r : QuantumRegister) (st : State) :
  8 <= size r ->
  wp (_add_shor_correction q r) st
     (fun o st' => o = Return tt /\
        exists ins, st' = mkState (self st)
                            (alter (append_data ins) (circuit (self st)) (objects st)) /\
                    Forall (on_block q r) ins).
Proof.
  intros Hr. unfold _add_shor_correction. wp_steps.
  split; [reflexivity|]. rewrite !alter_append_twice.
  eexists. split; [reflexivity|]. on_block.
Qed.

(** X19. The two Shor steps, called as the Shor assembly calls them (for
    the primary qubit of a group and the group's register) in a builder with at
    least eight ancillas per group, raise nothing and work in place on the
    builder's current circuit; every gate they append acts on the qubits of
    that group only, also when the register holds more than eight ancillas. *)
Theorem shor_steps_stay_within_group (n g : Z) (st : State) :
  allocated n n st -> 8 <= n -> g = 1 \/ g = 2 ->
  (exists ins,
     _prepare_repetition (target g 0)
                         (mkQReg n (if g =? 1 then "anc_qb1" else "anc_qb2")) st
     = (Return tt,
        mkState (self st) (alter (append_data ins) (circuit (self st)) (objects st))) /\
     Forall (within_group g) ins) /\
  (exists ins,
     _add_shor_correction (target g 0)
                          (mkQReg n (if g =? 1 then "anc_qb1" else "anc_qb2")) st
     = (Return tt,
        mkState (self st) (alter (append_data ins) (circuit (self st)) (objects st))) /\
     Forall (within_group g) ins).
Proof.
  intros _ Hn _.
  set (q := target g 0). set (r := mkQReg n (if g =? 1 then "anc_qb1" else "anc_qb2")).
  assert (8 <= size r) as Hr by exact Hn.
  split.
  - pose proof (_prepare_repetition_block q r st Hr) as H. unfold wp in H.
    destruct (_prepare_repetition q r st) as [o st']. cbn [fst snd] in H.
    destruct H as (-> & ins & -> & Hins). exists ins. split; [reflexivity | exact Hins].
  - pose proof (_add_shor_correction_block q r st Hr) as H. unfold wp in H.
    destruct (_add_shor_correction q r st) as [o st']. cbn [fst snd] in H.
    destruct H as (-> & ins & -> & Hins). exists ins. split; [reflexivity | exact Hins].
Qed.

Lemma gadgets_stay_within_group_witness :
  exists ins, add_x_pf_corr_with_repetition 1 false bell_2_2
              = (Return (length (objects bell_2_2)), snapshot false ins bell_2_2) /\
              Forall (within_group 1) ins.
Proof.
  apply (gadgets_stay_within_group 2 1 false bell_2_2 allocated_bell_2_2);
    [left; reflexivity | lia].
Defined.

Lemma shor_steps_stay_within_group_witness :
  exists ins,
    _add_shor_correction (target 2 0) (mkQReg 8 "anc_qb2") bell_8_8
    = (Return tt,
       mkState (self bell_8_8)
               (alter (append_data ins) (circuit (self bell_8_8)) (objects bell_8_8))) /\
    Forall (within_group 2) ins.
Proof.
  apply (shor_steps_stay_within_group 8 2 bell_8_8 allocated_8_8);
    [lia | right; reflexivity].
Defined.

(** ** Unrecognised correction types: the circuit that is built *)

Lemma registers_same (anc : list QuantumRegister) (st st' : State) :
  registers anc st -> same_registers st st' -> registers anc st'.
Proof. intros (Hq & Ha & Hc) (Hq' & Ha' & Hc'). repeat split; congruence. Qed.

Lemma after_emit (ins : list Instruction) (st : State) :
  well_formed st ->
  let st' := mkState (self st) (alter (append_data ins) (circuit (self st)) (objects st)) in
  well_formed st' /\ same_registers st st' /\ current st' = append_data ins (current st).
Proof.
  intros Hwf. unfold well_formed, current, deref in *. cbn [self objects].
  split; [rewrite length_alter; exact Hwf|]. split; [repeat split|].
  apply list_lookup_total_alter_eq. exact Hwf.
Qed.

Lemma after_error_gates (q : Qubit) (gate : string) (st : State) :
  well_formed st ->
  well_formed (snd (add_error_gate q gate st)) /\
  same_registers st (snd (add_error_gate q gate st)) /\
  current (snd (add_error_gate q gate st)) = append_data (error_gates q gate) (current st).
Proof.
  intros Hwf. rewrite add_error_gate_run. cbn [snd].
  destruct (error_gates q gate) as [|i ins].
  - split; [exact Hwf|]. split; [apply same_registers_refl|].
    symmetry. apply append_data_nil.
  - apply after_emit. exact Hwf.
Qed.

(** The errors of the drivers, all in range: each adds the gates of
    [add_error_gate] on the qubit it designates, in order. *)
Lemma for_errors_run (n : Z) (errors : list Error) (st : State) :
  0 <= n -> Forall (in_range n) errors ->
  well_formed st -> registers (ancillas_of n) st ->
  exists st',
    for_ errors (fun qe => add_error (fst qe) (snd qe)) st = (Return tt, st') /\
    well_formed st' /\ registers (ancillas_of n) st' /\
    current st' =
    append_data (flat_map (fun e => error_gates (target (fst (fst e)) (snd (fst e))) (snd e))
                          errors) (current st).
Proof.
  intros Hn Herr. revert st. induction Herr as [|[[g i] gate] errors [Hg Hi] Herr IH];
    intros st Hwf Hreg.
  - exists st. cbn [for_ flat_map]. rewrite append_data_nil. auto.
  - cbn [fst snd] in Hg, Hi. cbn [for_ fst snd flat_map].
    pose proof (add_error_in_range n st g i gate (registers_allocated n st Hn Hreg) Hg Hi)
      as Hrun.
    destruct (after_error_gates (target g i) gate st Hwf) as (Hwf1 & Hsame & Hcur).
    destruct (IH _ Hwf1 (registers_same _ _ _ Hreg Hsame)) as (st' & Hrest & Hwf' & Hreg' & Hcur').
    exists st'. rewrite (bind_run _ _ _ _ _ Hrun).
    split; [exact Hrest|]. split; [exact Hwf'|]. split; [exact Hreg'|].
    rewrite Hcur', Hcur, append_data_app. reflexivity.
Qed.

Lemma barrier_run (st : State) :
  (c ← self_circuit; qc_barrier c) st
  = (Return tt,
     mkState (self st) (alter (append_data [Barrier]) (circuit (self st)) (objects st))).
Proof. apply wp_run. wp_steps. reflexivity. Qed.

Lemma entangle_and_measure_current (st : State) :
  well_formed st ->
  qubits (self st) = mkQReg 2 "qubit" -> cbits (self st) = mkCReg 2 "c" ->
  exists st',
    entangle_and_measure st = (Return tt, st') /\
    current st' =
    append_data ([CXGate (mkQubit "qubit" 0) (mkQubit "qubit" 1); Barrier] ++ measurement)
                (current st).
Proof.
  intros Hwf Hq Hc. eexists. split; [apply entangle_and_measure_run; assumption|].
  unfold well_formed, current, deref, entangled in *.
  cbn [self objects circuit qubits anc_qubit cbits].
  rewrite lookup_total_app_r by lia. rewrite Nat.sub_diag. cbn [lookup_total list_lookup_total].
  rewrite list_lookup_total_alter_eq by (rewrite length_alter; exact Hwf).
  rewrite list_lookup_total_alter_eq by exact Hwf.
  rewrite !append_data_app. reflexivity.
Qed.

Lemma inject_run (n : Z) (errors : list Error) (st : State) :
  0 <= n -> Forall (in_range n) errors ->
  well_formed st -> registers (ancillas_of n) st ->
  exists st',
    inject errors st = (Return tt, st') /\
    well_formed st' /\ registers (ancillas_of n) st' /\
    current st' =
    append_data (flat_map (fun e => error_gates (target (fst (fst e)) (snd (fst e))) (snd e))
                          errors ++ [Barrier]) (current st).
Proof.
  intros Hn Herr Hwf Hreg. unfold inject.
  destruct (for_errors_run n errors st Hn Herr Hwf Hreg)
    as (st1 & Hrun1 & Hwf1 & Hreg1 & Hcur1).
  rewrite (bind_run _ _ _ _ _ Hrun1), barrier_run.
  destruct (after_emit [Barrier] st1 Hwf1) as (Hwf2 & Hsame2 & Hcur2).
  eexists. split; [reflexivity|]. split; [exact Hwf2|].
  split; [exact (registers_same _ _ _ Hreg1 Hsame2)|].
  rewrite Hcur2, Hcur1, append_data_app. reflexivity.
Qed.

(** The assembly without correction, for errors in range: what it appends
    to the builder's current circuit. *)
Lemma create_circuit_with_no_correction_run (n : Z) (errors : list Error) (st : State) :
  0 <= n -> Forall (in_range n) errors ->
  well_formed st -> registers (ancillas_of n) st ->
  exists st',
    create_circuit_with_no_correction errors false st = (Return tt, st') /\
    current st' = append_data (no_correction_circuit errors) (current st).
Proof.
  intros Hn Herr Hwf Hreg. unfold create_circuit_with_no_correction.
  rewrite (bind_run _ _ _ _ _ (superpose_run st (proj1 Hreg))).
  destruct (current_superposed st Hwf) as (Hwf1 & Hsame1 & Hcur1).
  pose proof (registers_same _ _ _ Hreg Hsame1) as Hreg1.
  destruct (inject_run n errors _ Hn Herr Hwf1 Hreg1)
    as (st2 & Hrun2 & Hwf2 & (Hq2 & _ & Hc2) & Hcur2).
  rewrite (bind_run _ _ _ _ _ Hrun2).
  destruct (entangle_and_measure_current _ Hwf2 Hq2 Hc2) as (st' & Hrun & Hcur).
  exists st'. split; [exact Hrun|].
  rewrite Hcur, Hcur2, Hcur1, !append_data_app. unfold no_correction_circuit.
  rewrite <- !app_assoc. reflexivity.
Qed.

Lemma BellCircuit_init_circuit (n : Z) (st : State) :
  BellCircuit_init n n = Return st ->
  well_formed st /\
  current st = mkCircuit (mkQReg 2 "qubit" :: ancillas_of n) [mkCReg 2 "c"] [].
Proof.
  intros Hinit. unfold ancillas_of.
  destruct (BellCircuit_init_Return _ _ _ Hinit) as [Hz | [H1 H2]].
  - assert (n = 0) as -> by lia. rewrite (BellCircuit_init_none 0 0) in Hinit by auto.
    injection Hinit as <-. split; [unfold well_formed; cbn; lia | reflexivity].
  - rewrite (BellCircuit_init_some _ _ H1 H2) in Hinit. injection Hinit as <-.
    destruct (Z.eqb_spec n 0); [lia|].
    split; [unfold well_formed; cbn; lia | reflexivity].
Qed.

(** What [run_one_combination] assembles for a correction type it does not
    know, from at least two errors in range. *)
Lemma assemble_unknown (n : Z) (ct : string) (e0 e1 : Error) (rest : list Error) :
  String.eqb ct "simple" = false -> String.eqb ct "repetition_simple" = false ->
  String.eqb ct "shor" = false ->
  0 <= n -> Forall (in_range n) (e0 :: e1 :: rest) ->
  assemble n ct (e0 :: e1 :: rest)
  = Return (error_key (snd (fst e0)) (snd e0) (snd (fst e1)) (snd e1),
            mkCircuit (mkQReg 2 "qubit" :: ancillas_of n) [mkCReg 2 "c"]
                      (no_correction_circuit (e0 :: e1 :: rest))).
Proof.
  intros H1 H2 H3 Hn Herr. unfold assemble. rewrite H1, H2, H3.
  destruct (BellCircuit_init_returns n Hn) as (st & Hinit & Hreg). rewrite Hinit.
  destruct (BellCircuit_init_circuit n st Hinit) as [Hwf Hcur].
  rewrite py_index_0, py_index_1.
  unfold mbind, outcome_mbind, outcome_bind.
  destruct (create_circuit_with_no_correction_run n _ st Hn Herr Hwf Hreg)
    as (st' & Hrun & Hcur').
  rewrite (call_of_run _ _ _ _ Hrun). cbn [snd].
  rewrite Hcur', Hcur. reflexivity.
Qed.

(** C10. A correction type other than ["simple"], ["repetition_simple"] and
    ["shor"] is treated by [run_one_combination] and by [get_circuit_to_print]
    exactly as ["no_correction"] is: same outcome, same circuit handed to the
    backend, same key.  No error is raised for the unknown name, and the
    circuit without correction is what is built and used:
    [get_circuit_to_print] returns the no-correction diagram for every
    non-negative number of ancillas, and [run_one_combination], given at least
    two errors whose groups are 1 or 2 and whose indices lie between 0 and the
    number of ancillas, hands to the backend, once, the circuit on the
    builder's registers that holds the Hadamard gate, the gates of the errors,
    the entangling gate and the measurement, and returns the backend's counts
    for it with the key of the first two errors. *)
Theorem unknown_correction_type_is_no_correction {G OsRandom : Type}
    (execute : QuantumCircuit -> Counts) (n : Z) (correction_type : string)
    (errors : list Error) (w : World G OsRandom) :
  correction_type <> "simple" ->
  correction_type <> "repetition_simple" ->
  correction_type <> "shor" ->
  run_one_combination execute n correction_type errors w
  = run_one_combination execute n "no_correction" errors w /\
  get_circuit_to_print n correction_type = get_circuit_to_print n "no_correction" /\
  (0 <= n -> exists qc, get_circuit_to_print n correction_type = Return qc /\
                        data qc = no_correction_diagram) /\
  (forall e0 e1 rest,
     errors = e0 :: e1 :: rest -> 0 <= n -> Forall (in_range n) errors ->
     exists qc,
       run_one_combination execute n correction_type errors w
       = (Return (execute qc, error_key (snd (fst e0)) (snd e0) (snd (fst e1)) (snd e1)),
          mkWorld (random_state w) (os_random w) (backend_log w ++ [qc])) /\
       qregs qc = mkQReg 2 "qubit" :: ancillas_of n /\
       cregs qc = [mkCReg 2 "c"] /\
       data qc = no_correction_circuit errors).
Proof.
  intros H1 H2 H3. apply String.eqb_neq in H1, H2, H3.
  assert (Hprint : get_circuit_to_print n correction_type
                   = get_circuit_to_print n "no_correction").
  { unfold get_circuit_to_print. rewrite H1, H2, H3. reflexivity. }
  split; [|split; [|split]].
  - rewrite !run_one_combination_run. unfold assemble. rewrite H1, H2, H3. reflexivity.
  - exact Hprint.
  - intros Hn. rewrite Hprint, get_circuit_to_print_no_correction by exact Hn.
    eexists. split; reflexivity.
  - intros e0 e1 rest -> Hn Herr.
    rewrite run_one_combination_run, (assemble_unknown n _ e0 e1 rest H1 H2 H3 Hn Herr).
    eexists. split; [reflexivity|]. repeat split.
Qed.

Lemma unknown_correction_type_is_no_correction_witness :
  run_one_combination execute_zero 1 "surface" [((1, 1), "x"); ((2, 0), "z")] world0
  = run_one_combination execute_zero 1 "no_correction" [((1, 1), "x"); ((2, 0), "z")] world0 /\
  get_circuit_to_print 1 "surface" = get_circuit_to_print 1 "no_correction" /\
  (exists qc, get_circuit_to_print 1 "surface" = Return qc /\
              data qc = no_correction_diagram) /\
  (exists qc,
     run_one_combination execute_zero 1 "surface" [((1, 1), "x"); ((2, 0), "z")] world0
     = (Return (execute_zero qc, "[(1, x), (0, z)]"), mkWorld tt tt [qc]) /\
     qregs qc = [mkQReg 2 "qubit"; mkQReg 1 "anc_qb1"; mkQReg 1 "anc_qb2"] /\
     cregs qc = [mkCReg 2 "c"] /\
     data qc = [HGate (mkQubit "qubit" 0); Barrier;
                XGate (mkQubit "anc_qb1" 0); ZGate (mkQubit "qubit" 1);
                Barrier; CXGate (mkQubit "qubit" 0) (mkQubit "qubit" 1); Barrier;
                CXGate (mkQubit "qubit" 0) (mkQubit "qubit" 1);
                HGate (mkQubit "qubit" 0);
                Measure (mkQubit "qubit" 0) (mkClbit "c" 0);
                Measure (mkQubit "qubit" 1) (mkClbit "c" 1)]).
Proof.
  assert ("surface" <> "simple") as H1 by discriminate.
  assert ("surface" <> "repetition_simple") as H2 by discriminate.
  assert ("surface" <> "shor") as H3 by discriminate.
  pose proof (unknown_correction_type_is_no_correction execute_zero 1 "surface"
                [((1, 1), "x"); ((2, 0), "z")] world0 H1 H2 H3)
    as (Hrun & Hprint & Hdiagram & Hcircuit).
  split; [exact Hrun|]. split; [exact Hprint|]. split; [apply Hdiagram; lia|].
  destruct (Hcircuit _ _ _ eq_refl) as (qc & Hqc & Hqregs & Hcregs & Hdata); [lia| |].
  { constructor; [split; cbn; lia|]. constructor; [split; cbn; lia|]. constructor. }
  exists qc. split; [etransitivity; [exact Hqc|]; vm_compute; reflexivity|].
  split; [exact Hqregs|]. split; [exact Hcregs|].
  etransitivity; [exact Hdata|]. vm_compute. reflexivity.
Defined.
